(** * zonaite.forecast.gfs: selective GFS download

    A shallow embedding of [src/zonaite/forecast/gfs.py] together with the
    properties of its index parser, element matcher, range fetch loop and
    top-level orchestrator.

    Conventions of the embedding.
    - A Python [str] is the list of its code points ([pystr]); [bytes] and
      [bytearray] are lists of [byte].
    - A Python [int] is a [Z]; a Python [float] is an exact rational [Q]
      (rounding is not modelled; no property below depends on it).
    - A Python exception is a value of [PyExc]; a computation that may
      raise returns a [result].
    - Code that talks to the S3 client, the file system or the clock runs
      in the monad [M], which threads a [World] and may raise.  What the
      collaborators answer is given by an [Env], over which every theorem
      quantifies. *)

From Stdlib Require Import ZArith QArith List String Ascii Strings.Byte DecimalString Lia Bool.
From stdpp Require Import gmap list.

Import ListNotations.
Local Open Scope Z_scope.
Local Open Scope list_scope.

(** ** Python values *)

(** A [str]: the sequence of its Unicode code points. *)
Definition pystr := list N.

(** A [bytes] or [bytearray] value. *)
Definition pybytes := list byte.

(** The [str] written as an ASCII literal. *)
Definition py (s : string) : pystr :=
  List.map N_of_ascii (list_ascii_of_string s).

(** Exceptions (all of them subclasses of [Exception]). *)
Inductive PyExc : Type :=
| ValueError (literal : pystr)
| KeyError (key : pystr)
| IndexError
| OverflowError
| UnicodeDecodeError
| ZeroDivisionError
| FileNotFoundError (path : pystr)
| ExternalError (text : pystr).

Inductive result (A : Type) : Type :=
| Ok (a : A)
| Raise (e : PyExc).
Arguments Ok {A} a.
Arguments Raise {A} e.

Definition rbind {A B} (r : result A) (k : A -> result B) : result B :=
  match r with
  | Ok a => k a
  | Raise e => Raise e
  end.

Declare Scope result_scope.
Delimit Scope result_scope with result.
Notation "'let*' x ':=' c 'in' k" := (rbind c (fun x => k))
  (at level 10, x name, c at level 100, k at level 200) : result_scope.

(** What the interpreter and the C library fix, and the source does not. *)
Record Platform : Type := {
  (** [Py_UNICODE_TODECIMAL] on code points above 126: the decimal digit
      value of the Unicode database, if any. *)
  unicode_todecimal : N -> option N;
  (** [sys.get_int_max_str_digits()]; 0 switches the limit off. *)
  int_max_str_digits : N;
  (** whether [strftime("%Y")] pads years below 1000 to four digits. *)
  strftime_pads_year : bool
}.

(** ** The [str] methods the parser uses *)

(** [str.isspace] on one code point ([_PyUnicode_IsWhitespace]). *)
Definition Py_UNICODE_ISSPACE (c : N) : bool :=
  ((9 <=? c) && (c <=? 13) || (28 <=? c) && (c <=? 32)
   || (c =? 133) || (c =? 160) || (c =? 5760)
   || (8192 <=? c) && (c <=? 8202)
   || (c =? 8232) || (c =? 8233) || (c =? 8239) || (c =? 8287)
   || (c =? 12288))%N.

Fixpoint lstrip (s : pystr) : pystr :=
  match s with
  | [] => []
  | c :: s' => if Py_UNICODE_ISSPACE c then lstrip s' else s
  end.

Definition rstrip (s : pystr) : pystr := rev (lstrip (rev s)).

(** [s.strip()] *)
Definition strip (s : pystr) : pystr := rstrip (lstrip s).

(** [s.split(sep)] for a separator of one code point. *)
Fixpoint split (sep : N) (s : pystr) : list pystr :=
  match s with
  | [] => [[]]
  | c :: s' =>
      if (c =? sep)%N then [] :: split sep s'
      else match split sep s' with
           | [] => [[c]]
           | w :: ws => (c :: w) :: ws
           end
  end.

Definition NEWLINE : N := 10.
Definition COLON : N := 58.

(** ** [int(str)] *)

Section PyInt.
Variable pf : Platform.

(** [_PyUnicode_TransformDecimalAndSpaceToASCII]: a non-ASCII string has
    its spaces turned into [' '] and its decimal digits into ASCII ones,
    and is cut after the first code point that is neither. *)
Fixpoint transform_non_ascii (s : pystr) : pystr :=
  match s with
  | [] => []
  | c :: s' =>
      if (c <? 127)%N then c :: transform_non_ascii s'
      else if Py_UNICODE_ISSPACE c then 32%N :: transform_non_ascii s'
      else match unicode_todecimal pf c with
           | Some d => (48 + d)%N :: transform_non_ascii s'
           | None => [63%N]
           end
  end.

Definition transform_decimal_and_space (s : pystr) : pystr :=
  if forallb (fun c => (c <? 128)%N) s then s else transform_non_ascii s.

(** [Py_ISSPACE]: the white space of the C locale. *)
Definition Py_ISSPACE (c : N) : bool :=
  ((9 <=? c) && (c <=? 13) || (c =? 32))%N.

Definition is_digit (c : N) : bool := ((48 <=? c) && (c <=? 57))%N.

Fixpoint skip_spaces (s : pystr) : pystr :=
  match s with
  | c :: s' => if Py_ISSPACE c then skip_spaces s' else s
  | [] => []
  end.

(** The digit run of [PyLong_FromString]: digits, with single
    underscores between them.  [prev_us] tells that the previous code
    point was an underscore; the result is the value read so far, the
    number of digits and the rest of the string, or [None] for a doubled
    or trailing underscore. *)
Fixpoint scan_digits (s : pystr) (prev_us : bool) (acc : Z) (digits : N)
  : option (Z * N * pystr) :=
  match s with
  | c :: s' =>
      if is_digit c then
        scan_digits s' false (10 * acc + Z.of_N (c - 48)) (digits + 1)%N
      else if (c =? 95)%N then
        if prev_us then None else scan_digits s' true acc digits
      else if prev_us then None else Some (acc, digits, s)
  | [] => if prev_us then None else Some (acc, digits, [])
  end.

(** [PyLong_FromString(s, base=10)] after the transformation above. *)
Definition long_from_string (s : pystr) : option Z :=
  let s1 := skip_spaces s in
  let '(negative, s2) :=
    match s1 with
    | 43%N :: r => (false, r)
    | 45%N :: r => (true, r)
    | _ => (false, s1)
    end in
  match s2 with
  | 95%N :: _ => None
  | _ =>
      match scan_digits s2 false 0 0%N with
      | None => None
      | Some (v, digits, rest) =>
          if (digits =? 0)%N then None
          else if ((0 <? int_max_str_digits pf)
                   && (int_max_str_digits pf <? digits))%N then None
          else match skip_spaces rest with
               | [] => Some (if negative then - v else v)
               | _ :: _ => None
               end
      end
  end.

(** [int(s)] for a [str] argument. *)
Definition py_int (s : pystr) : result Z :=
  match long_from_string (transform_decimal_and_space s) with
  | Some v => Ok v
  | None => Raise (ValueError s)
  end.

End PyInt.

(** ** [GribElement] and [GribIdx] *)

Record GribElement : Type := {
  variable : pystr;
  level : pystr;
  start_byte : Z;
  end_byte : Z
}.

(** A target of [find_elements]: a [dict] from [str] to [str]. *)
Abbreviation Dict := (gmap pystr pystr).

(** [d[key]] *)
Definition getitem (d : Dict) (key : pystr) : result pystr :=
  match d !! key with
  | Some v => Ok v
  | None => Raise (KeyError key)
  end.

(** [a == b] on two [str]. *)
Definition str_eq (a b : pystr) : bool := bool_decide (a = b).

(** [parts[k]] where the source has checked [len(parts) > k]. *)
Definition item (parts : list pystr) (k : nat) : pystr := nth k parts [].

Module GribIdx.
Section WithPlatform.
Variable pf : Platform.
Local Open Scope result_scope.

(** The lookahead of the loop body (source lines 141-147): the [end_byte]
    taken from the line after line [i], [None] when there is none to
    take. *)
Definition next_offset (lines : list pystr) (i : nat) : result (option Z) :=
  if (i <? length lines - 1)%nat then
    match lines !! (i + 1)%nat with
    | None => Raise IndexError
    | Some next_line =>
        match strip next_line with
        | [] => Ok None
        | _ :: _ =>
            let next_parts := split COLON (strip next_line) in
            if (2 <=? length next_parts)%nat then
              let* e := py_int pf (item next_parts 1) in Ok (Some e)
            else Ok None
        end
    end
  else Ok None.

(** One turn of the [for] loop (source lines 131-157): the element the
    turn appends, if any. *)
Definition parse_line (lines : list pystr) (i : nat) (line : pystr)
  : result (option GribElement) :=
  match strip line with
  | [] => Ok None
  | _ :: _ =>
      let parts := split COLON (strip line) in
      if (6 <=? length parts)%nat then
        let* start := py_int pf (item parts 1) in
        let var := item parts 3 in
        let lvl := item parts 4 in
        let* oe := next_offset lines i in
        match oe with
        | Some e =>
            Ok (Some {| variable := var; level := lvl;
                        start_byte := start; end_byte := e |})
        | None => Ok None
        end
      else Ok None
  end.

(** The [for i, line in enumerate(lines)] loop, from index [i] on, with
    the [elements] appended so far. *)
Fixpoint parse_loop (lines : list pystr) (i : nat) (todo : list pystr)
         (elements : list GribElement) : result (list GribElement) :=
  match todo with
  | [] => Ok elements
  | line :: todo' =>
      let* r := parse_line lines i line in
      parse_loop lines (S i) todo'
        (match r with Some e => elements ++ [e] | None => elements end)
  end.

(** [GribIdx._parse_idx_content] *)
Definition _parse_idx_content (idx_content : pystr) : result (list GribElement) :=
  let lines := split NEWLINE idx_content in
  parse_loop lines 0 lines [].

End WithPlatform.

(** An instance of the class: its one attribute. *)
Record t : Type := { elements : list GribElement }.

(** [GribIdx.__init__] *)
Definition __init__ (pf : Platform) (idx_content : pystr) : result t :=
  (let* es := _parse_idx_content pf idx_content in Ok {| elements := es |})%result.

(** The test of the inner loop (source line 183); [and] looks the level
    up only when the names are equal. *)
Definition is_match (elem : GribElement) (target : Dict) : result bool :=
  (let* name := getitem target (py "name") in
   if str_eq (variable elem) name then
     let* lvl := getitem target (py "level") in
     Ok (str_eq (level elem) lvl)
   else Ok false)%result.

(** [for elem in self.elements] for one target (source lines 182-185). *)
Fixpoint scan_elements (target : Dict) (elems : list GribElement)
         (acc : list GribElement) : result (list GribElement) :=
  match elems with
  | [] => Ok acc
  | elem :: elems' =>
      (let* b := is_match elem target in
       scan_elements target elems' (if b then acc ++ [elem] else acc))%result
  end.

(** [for target in target_elements] (source lines 181-185). *)
Fixpoint scan_targets (self : t) (targets : list Dict)
         (acc : list GribElement) : result (list GribElement) :=
  match targets with
  | [] => Ok acc
  | target :: targets' =>
      (let* acc' := scan_elements target (elements self) acc in
       scan_targets self targets' acc')%result
  end.

(** [GribIdx.find_elements] *)
Definition find_elements (self : t) (target_elements : list Dict)
  : result (list GribElement) :=
  scan_targets self target_elements [].

(** [GribIdx.get_byte_ranges] *)
Definition get_byte_ranges (self : t) (target_elements : list Dict)
  : result (list (Z * Z)) :=
  (let* elems := find_elements self target_elements in
   Ok (List.map (fun elem => (start_byte elem, end_byte elem)) elems))%result.

End GribIdx.

(** ** Numbers and their formatting *)

(** [str(n)] without the digit limit: the decimal numeral of [n]. *)
Definition decimal (n : Z) : pystr := py (NilZero.string_of_int (Z.to_int n)).

(** The number of decimal digits of [n]. *)
Definition digit_count (n : Z) : N :=
  N.of_nat (length (decimal (Z.abs n))).

(** [f"{n}"] for an [int]: above the digit limit the conversion raises. *)
Definition format_int (pf : Platform) (n : Z) : result pystr :=
  if ((0 <? int_max_str_digits pf)
      && (int_max_str_digits pf <? digit_count n))%N
  then Raise (ValueError [])
  else Ok (decimal n).

(** [n] written with at least [width] digits, zeros in front ([n >= 0]). *)
Definition zero_pad (width : nat) (n : Z) : pystr :=
  let d := decimal n in
  repeat 48%N (width - length d) ++ d.

(** The least magnitude that no longer rounds to a finite [float]. *)
Definition FLOAT_OVERFLOW : Z := 2 ^ 1024 - 2 ^ 970.

(** [a / b] on two [int]. *)
Definition int_truediv (a b : Z) : result Q :=
  if b =? 0 then Raise ZeroDivisionError
  else if FLOAT_OVERFLOW * Z.abs b <=? Z.abs a then Raise OverflowError
  else Ok (inject_Z a / inject_Z b)%Q.

(** [x / y] on two [float] (an [int] divisor is converted first). *)
Definition float_truediv (x y : Q) : result Q :=
  if Qeq_bool y 0 then Raise ZeroDivisionError else Ok (x / y)%Q.

(** [x > 0] on a [float]. *)
Definition positive (x : Q) : bool := negb (Qle_bool x 0).

(** [n / 1024 / 1024] *)
Definition megabytes (n : Z) : result Q :=
  (let* kb := int_truediv n 1024 in float_truediv kb (inject_Z 1024))%result.

(** Source line 245:
    [(chunk_size / 1024 / 1024) / duration if duration > 0 else 0] *)
Definition speed_mbps (chunk_size : Z) (duration : Q) : result Q :=
  if positive duration then
    (let* mb := megabytes chunk_size in float_truediv mb duration)%result
  else Ok 0%Q.

(** Source lines 383-385:
    [(total_bytes / 1024 / 1024) / total_time if total_time > 0 else 0] *)
Definition avg_speed_mbps (total_bytes : Z) (total_time : Q) : result Q :=
  if positive total_time then
    (let* mb := megabytes total_bytes in float_truediv mb total_time)%result
  else Ok 0%Q.

(** ** [bytes.decode("utf-8")] *)

Definition continuation (b : N) : bool := ((128 <=? b) && (b <=? 191))%N.

(** The strict decoder: shortest forms only, no surrogates, nothing above
    U+10FFFF. *)
Fixpoint utf8_decode (bs : list N) : option pystr :=
  match bs with
  | [] => Some []
  | b0 :: r0 =>
      if (b0 <? 128)%N then option_map (cons b0) (utf8_decode r0)
      else match r0 with
      | [] => None
      | b1 :: r1 =>
          if negb (continuation b1) then None
          else if ((194 <=? b0) && (b0 <=? 223))%N then
            option_map (cons ((b0 - 192) * 64 + (b1 - 128))%N) (utf8_decode r1)
          else match r1 with
          | [] => None
          | b2 :: r2 =>
              if negb (continuation b2) then None
              else if ((224 <=? b0) && (b0 <=? 239))%N then
                let c := ((b0 - 224) * 4096 + (b1 - 128) * 64 + (b2 - 128))%N in
                if ((c <? 2048) || (55296 <=? c) && (c <=? 57343))%N then None
                else option_map (cons c) (utf8_decode r2)
              else match r2 with
              | [] => None
              | b3 :: r3 =>
                  if negb (continuation b3) then None
                  else if ((240 <=? b0) && (b0 <=? 244))%N then
                    let c := ((b0 - 240) * 262144 + (b1 - 128) * 4096
                              + (b2 - 128) * 64 + (b3 - 128))%N in
                    if ((c <? 65536) || (1114111 <? c))%N then None
                    else option_map (cons c) (utf8_decode r3)
                  else None
              end
          end
      end
  end.

(** [body.decode("utf-8")] *)
Definition decode_utf8 (body : pybytes) : result pystr :=
  match utf8_decode (List.map Byte.to_N body) with
  | Some s => Ok s
  | None => Raise UnicodeDecodeError
  end.

(** ** [os.path.dirname] (POSIX) *)

Definition SLASH : N := 47.

Fixpoint drop_slashes (s : pystr) : pystr :=
  match s with
  | c :: s' => if (c =? SLASH)%N then drop_slashes s' else s
  | [] => []
  end.

(** [s.rstrip("/")] *)
Definition rstrip_slash (s : pystr) : pystr := rev (drop_slashes (rev s)).

(** What is left of a reversed path from its first slash on. *)
Fixpoint from_slash (s : pystr) : pystr :=
  match s with
  | c :: s' => if (c =? SLASH)%N then s else from_slash s'
  | [] => []
  end.

(** [p[:p.rfind("/") + 1]] *)
Definition upto_last_slash (p : pystr) : pystr := rev (from_slash (rev p)).

(** [posixpath.dirname] *)
Definition dirname (p : pystr) : pystr :=
  let head := upto_last_slash p in
  match head with
  | [] => head
  | _ :: _ =>
      if forallb (fun c => (c =? SLASH)%N) head then head
      else rstrip_slash head
  end.

(** ** [datetime] *)

(** A [datetime.datetime].  [tzinfo] is [None] for a naive value and
    otherwise gives the fixed UTC offset of its [datetime.timezone], in
    microseconds. *)
Record datetime : Type := {
  year : Z; month : Z; day : Z;
  hour : Z; minute : Z; second : Z; microsecond : Z;
  tzinfo : option Z
}.

Definition is_leap (y : Z) : bool :=
  (y mod 4 =? 0) && (negb (y mod 100 =? 0) || (y mod 400 =? 0)).

Definition days_before_year (y : Z) : Z :=
  let y := y - 1 in y * 365 + y / 4 - y / 100 + y / 400.

Definition DAYS_IN_MONTH : list Z :=
  [-1; 31; 28; 31; 30; 31; 30; 31; 31; 30; 31; 30; 31].

Definition DAYS_BEFORE_MONTH : list Z :=
  [-1; 0; 31; 59; 90; 120; 151; 181; 212; 243; 273; 304; 334].

Definition days_in_month (y m : Z) : Z :=
  if (m =? 2) && is_leap y then 29 else nth (Z.to_nat m) DAYS_IN_MONTH 0.

Definition days_before_month (y m : Z) : Z :=
  nth (Z.to_nat m) DAYS_BEFORE_MONTH 0
  + (if (2 <? m) && is_leap y then 1 else 0).

(** The proleptic Gregorian ordinal: 1 for 0001-01-01. *)
Definition ymd2ord (y m d : Z) : Z :=
  days_before_year y + days_before_month y m + d.

Definition DI400Y : Z := 146097.
Definition DI100Y : Z := 36524.
Definition DI4Y : Z := 1461.
Definition MAXORDINAL : Z := 3652059.

(** The date of an ordinal. *)
Definition ord2ymd (n : Z) : Z * Z * Z :=
  let n := n - 1 in
  let n400 := n / DI400Y in let n := n mod DI400Y in
  let n100 := n / DI100Y in let n := n mod DI100Y in
  let n4 := n / DI4Y in let n := n mod DI4Y in
  let n1 := n / 365 in let n := n mod 365 in
  let y := n400 * 400 + 1 + n100 * 100 + n4 * 4 + n1 in
  if (n1 =? 4) || (n100 =? 4) then (y - 1, 12, 31)
  else
    let leapyear := (n1 =? 3) && (negb (n4 =? 24) || (n100 =? 3)) in
    let m := Z.shiftr (n + 50) 5 in
    let preceding :=
      nth (Z.to_nat m) DAYS_BEFORE_MONTH 0
      + (if (2 <? m) && leapyear then 1 else 0) in
    if n <? preceding then
      let m' := m - 1 in
      let preceding' :=
        preceding - (nth (Z.to_nat m') DAYS_IN_MONTH 0
                     + (if (m' =? 2) && leapyear then 1 else 0)) in
      (y, m', n - preceding' + 1)
    else (y, m, n - preceding + 1).

Definition US_PER_SECOND : Z := 1000000.
Definition US_PER_DAY : Z := 86400 * US_PER_SECOND.

(** The microseconds from the start of day 0 to the wall time of [dt],
    whatever its zone. *)
Definition wall_microseconds (dt : datetime) : Z :=
  ymd2ord (year dt) (month dt) (day dt) * US_PER_DAY
  + ((hour dt * 60 + minute dt) * 60 + second dt) * US_PER_SECOND
  + microsecond dt.

(** A value the constructors of [datetime] and [timezone] accept. *)
Definition valid_datetime (dt : datetime) : Prop :=
  1 <= year dt <= 9999 /\ 1 <= month dt <= 12
  /\ 1 <= day dt <= days_in_month (year dt) (month dt)
  /\ 0 <= hour dt < 24 /\ 0 <= minute dt < 60 /\ 0 <= second dt < 60
  /\ 0 <= microsecond dt < US_PER_SECOND
  /\ match tzinfo dt with
     | Some off => - US_PER_DAY < off < US_PER_DAY
     | None => True
     end.

(** [dt.replace(tzinfo=timezone.utc)] *)
Definition replace_tzinfo_utc (dt : datetime) : datetime :=
  {| year := year dt; month := month dt; day := day dt;
     hour := hour dt; minute := minute dt; second := second dt;
     microsecond := microsecond dt; tzinfo := Some 0 |}.

(** [dt.astimezone(timezone.utc)] for an aware [dt] of offset [off]: the
    offset is subtracted, and a result outside years 1..9999 raises. *)
Definition astimezone_utc (dt : datetime) (off : Z) : result datetime :=
  let us := wall_microseconds dt - off in
  let days := us / US_PER_DAY in
  let rest := us mod US_PER_DAY in
  if (0 <? days) && (days <=? MAXORDINAL) then
    let '(y, m, d) := ord2ymd days in
    let secs := rest / US_PER_SECOND in
    Ok {| year := y; month := m; day := d;
          hour := secs / 3600; minute := (secs mod 3600) / 60;
          second := secs mod 60; microsecond := rest mod US_PER_SECOND;
          tzinfo := Some 0 |}
  else Raise OverflowError.

(** The UTC time of an aware [dt] of offset [off] lies in the years 1 to
    9999. *)
Definition utc_in_range (dt : datetime) (off : Z) : Prop :=
  US_PER_DAY <= wall_microseconds dt - off < (MAXORDINAL + 1) * US_PER_DAY.

(** Source lines 320-324. *)
Definition normalize_utc (dt : datetime) : result datetime :=
  match tzinfo dt with
  | None => Ok (replace_tzinfo_utc dt)
  | Some off => astimezone_utc dt off
  end.

(** [dt.strftime("%Y%m%d")] *)
Definition strftime_Ymd (pf : Platform) (dt : datetime) : pystr :=
  (if strftime_pads_year pf then zero_pad 4 (year dt) else decimal (year dt))
  ++ zero_pad 2 (month dt) ++ zero_pad 2 (day dt).

(** [dt.strftime("%H")] *)
Definition strftime_H (dt : datetime) : pystr := zero_pad 2 (hour dt).

(** ** The collaborators: S3, the file system, the clock *)

(** The keyword arguments of one [s3_client.get_object] call. *)
Record S3Request : Type := {
  Bucket : pystr;
  Key : pystr;
  Range : option pystr
}.

(** What the program asks of its collaborators, in the order it asks. *)
Inductive Event : Type :=
| EvClient (region : pystr)
| EvGetObject (request : S3Request)
| EvMakedirs (name : pystr)
| EvOpen (path : pystr)
| EvWrite (path : pystr) (data : pybytes).

(** The state outside the program: the regular files by path, the calls
    made so far, and how often the clock has been read. *)
Record World : Type := {
  files : gmap pystr pybytes;
  trace : list Event;
  clock_reads : nat
}.

(** How the collaborators behave.  Every answer may depend on the whole
    world at the time of the call. *)
Record Env : Type := {
  platform : Platform;
  (** [boto3.client("s3", ...)]: the exception it raises, if any. *)
  boto3_client : World -> pystr -> option PyExc;
  (** [get_object(...)] followed by [response["Body"].read()]. *)
  s3_get_object : World -> S3Request -> result pybytes;
  (** the error of [os.makedirs] for a name other than the empty one. *)
  mkdir_fault : World -> pystr -> option PyExc;
  (** the error of [open(path, "wb")]. *)
  open_fault : World -> pystr -> option PyExc;
  (** the error of writing (or flushing, or closing) the opened file, and
      how many bytes had reached the file before it. *)
  write_fault : World -> pystr -> pybytes -> option (nat * PyExc);
  (** [time.time()] *)
  time_time : World -> Q
}.

(** The world after one more call. *)
Definition record_event (ev : Event) (w : World) : World :=
  {| files := files w; trace := trace w ++ [ev];
     clock_reads := clock_reads w |}.

(** The world where the file at [path] holds [data]. *)
Definition set_file (path : pystr) (data : pybytes) (w : World) : World :=
  {| files := <[path := data]> (files w); trace := trace w;
     clock_reads := clock_reads w |}.

(** Computations that act on the world and may raise; the world keeps
    what was done before the exception. *)
Definition M (A : Type) : Type := World -> result A * World.

(** A value, with no effect. *)
Definition ret {A} (a : A) : M A := fun w => (Ok a, w).

(** One statement after another; an exception ends the sequence. *)
Definition bind {A B} (m : M A) (k : A -> M B) : M B :=
  fun w =>
    match m w with
    | (Ok a, w') => k a w'
    | (Raise e, w') => (Raise e, w')
    end.

(** A computation that leaves the world alone. *)
Definition lift {A} (r : result A) : M A := fun w => (r, w).

(** [try: body  except Exception as e: handler] *)
Definition try_except {A} (body : M A) (handler : PyExc -> M A) : M A :=
  fun w =>
    match body w with
    | (Ok a, w') => (Ok a, w')
    | (Raise e, w') => handler e w'
    end.

Declare Scope M_scope.
Delimit Scope M_scope with M.
Notation "'let*' x ':=' c 'in' k" := (bind c (fun x => k))
  (at level 10, x name, c at level 100, k at level 200) : M_scope.

Section Collaborators.
Variable env : Env.

(** [time.time()] *)
Definition time : M Q :=
  fun w =>
    (Ok (time_time env w),
     {| files := files w; trace := trace w;
        clock_reads := S (clock_reads w) |}).

(** [boto3.client("s3", region_name=region, config=...)] *)
Definition new_client (region : pystr) : M unit :=
  fun w =>
    (match boto3_client env w region with
     | Some e => Raise e
     | None => Ok tt
     end, record_event (EvClient region) w).

(** [s3_client.get_object(...)["Body"].read()] *)
Definition get_object (request : S3Request) : M pybytes :=
  fun w => (s3_get_object env w request, record_event (EvGetObject request) w).

(** [os.makedirs(name, exist_ok=True)]: the empty name has no directory
    to make and raises [FileNotFoundError]. *)
Definition makedirs (name : pystr) : M unit :=
  fun w =>
    (match name with
     | [] => Raise (FileNotFoundError [])
     | _ :: _ =>
         match mkdir_fault env w name with
         | Some e => Raise e
         | None => Ok tt
         end
     end, record_event (EvMakedirs name) w).

(** [open(path, "wb")]: creates the file, or truncates the one there. *)
Definition open_wb (path : pystr) : M unit :=
  fun w =>
    match open_fault env w path with
    | Some e => (Raise e, record_event (EvOpen path) w)
    | None => (Ok tt, record_event (EvOpen path) (set_file path [] w))
    end.

(** [f.write(data)] and the close at the end of the [with] block. *)
Definition write_all (path : pystr) (data : pybytes) : M unit :=
  fun w =>
    match write_fault env w path data with
    | Some (n, e) =>
        (Raise e, record_event (EvWrite path data) (set_file path (take n data) w))
    | None => (Ok tt, record_event (EvWrite path data) (set_file path data w))
    end.

End Collaborators.

(** ** [download_bytes] *)

Section Download.
Variable env : Env.
Local Open Scope M_scope.

(** [f"bytes={start_byte}-{end_byte-1}"] *)
Definition range_header (start_byte end_byte : Z) : result pystr :=
  (let* first := format_int (platform env) start_byte in
   let* last := format_int (platform env) (end_byte - 1) in
   Ok (py "bytes=" ++ first ++ py "-" ++ last))%result.

(** Source lines 235-251.  The speed and the size in megabytes are
    computed for the log line only; computing them can raise. *)
Definition download_bytes (bucket key : pystr) (start_byte end_byte : Z)
  : M pybytes :=
  let chunk_size := end_byte - start_byte in
  let* start_time := time env in
  let* range := lift (range_header start_byte end_byte) in
  let* data :=
    get_object env {| Bucket := bucket; Key := key; Range := Some range |} in
  let* end_time := time env in
  let duration := (end_time - start_time)%Q in
  let* speed := lift (speed_mbps chunk_size duration) in
  let* logged_size := lift (megabytes chunk_size) in
  ret data.

(** ** [download_gfs_data] *)

(** [error_message]: the two texts the source builds. *)
Inductive ErrorMessage : Type :=
| (** [f"Specified elements not found: {elements}"] *)
  ElementsNotFound (elements : list Dict)
| (** [f"Error downloading data: {str(e)}"] *)
  ErrorDownloading (e : PyExc).

Record GFSDownloadResult : Type := {
  success : bool;
  date : pystr;
  cycle : pystr;
  forecast_hour : pystr;
  elements : list Dict;
  file_format : pystr;
  file_path : option pystr;
  file_size_mb : option Q;
  download_time_s : option Q;
  download_speed_mbs : option Q;
  error_message : option ErrorMessage
}.

(** [result.error_message = msg] *)
Definition with_error (result : GFSDownloadResult) (msg : ErrorMessage)
  : GFSDownloadResult :=
  {| success := success result; date := date result; cycle := cycle result;
     forecast_hour := forecast_hour result; elements := elements result;
     file_format := file_format result; file_path := file_path result;
     file_size_mb := file_size_mb result;
     download_time_s := download_time_s result;
     download_speed_mbs := download_speed_mbs result;
     error_message := Some msg |}.

(** Source lines 388-391. *)
Definition with_success (result : GFSDownloadResult) (size time speed : Q)
  : GFSDownloadResult :=
  {| success := true; date := date result; cycle := cycle result;
     forecast_hour := forecast_hour result; elements := elements result;
     file_format := file_format result; file_path := file_path result;
     file_size_mb := Some size;
     download_time_s := Some time;
     download_speed_mbs := Some speed;
     error_message := error_message result |}.

(** Source line 341. *)
Definition grib_key_of (date_str cycle_str forecast_hour : pystr) : pystr :=
  py "gfs." ++ date_str ++ py "/" ++ cycle_str ++ py "/atmos/gfs.t"
  ++ cycle_str ++ py "z.pgrb2.0p25.f" ++ forecast_hour.

(** Source line 342. *)
Definition idx_key_of (grib_key : pystr) : pystr := grib_key ++ py ".idx".

(** The loop of source lines 369-375, with [merged_data] and
    [total_bytes] as they stand on entry. *)
Fixpoint fetch_loop (bucket grib_key : pystr) (selected : list GribElement)
         (merged_data : pybytes) (total_bytes : Z) : M (pybytes * Z) :=
  match selected with
  | [] => ret (merged_data, total_bytes)
  | elem :: rest =>
      let* chunk :=
        download_bytes bucket grib_key (start_byte elem) (end_byte elem) in
      fetch_loop bucket grib_key rest
        (merged_data ++ chunk) (total_bytes + Z.of_nat (length chunk))
  end.

(** Source lines 352-358: the index is fetched whole, decoded, parsed and
    searched. *)
Definition select_elements (bucket idx_key : pystr) (elements : list Dict)
  : M (list GribElement) :=
  let* body :=
    get_object env {| Bucket := bucket; Key := idx_key; Range := None |} in
  let* idx_content := lift (decode_utf8 body) in
  let* grib_idx := lift (GribIdx.__init__ (platform env) idx_content) in
  lift (GribIdx.find_elements grib_idx elements).

(** Source lines 377-399: the [merged_data] is saved and the outcome
    completed. *)
Definition save_and_report (result : GFSDownloadResult) (output_path : pystr)
           (total_start_time : Q) (merged_data : pybytes) (total_bytes : Z)
  : M GFSDownloadResult :=
  let* _ := makedirs env (dirname output_path) in
  let* _ := open_wb env output_path in
  let* _ := write_all env output_path merged_data in
  let* now := time env in
  let total_time := (now - total_start_time)%Q in
  let* speed := lift (avg_speed_mbps total_bytes total_time) in
  let* size := lift (megabytes total_bytes) in
  ret (with_success result size total_time speed).

(** The body of the [try] statement (source lines 340-399). *)
Definition try_body (result : GFSDownloadResult) (date_str cycle_str : pystr)
           (forecast_hour : pystr) (elements : list Dict)
           (output_path bucket region : pystr) (total_start_time : Q)
  : M GFSDownloadResult :=
  let grib_key := grib_key_of date_str cycle_str forecast_hour in
  let idx_key := idx_key_of grib_key in
  let* _ := new_client env region in
  let* selected_elements := select_elements bucket idx_key elements in
  match selected_elements with
  | [] => ret (with_error result (ElementsNotFound elements))
  | _ :: _ =>
      let* fetched := fetch_loop bucket grib_key selected_elements [] 0 in
      let merged_data := fst fetched in
      let total_bytes := snd fetched in
      save_and_report result output_path total_start_time
        merged_data total_bytes
  end.

(** Source lines 316-405.  The timestamp is brought to UTC before the
    [try] statement is entered. *)
Definition download_gfs_data (dt : datetime) (forecast_hour : pystr)
           (elements : list Dict) (output_path bucket region : pystr)
  : M GFSDownloadResult :=
  let* total_start_time := time env in
  let* dt := lift (normalize_utc dt) in
  let date_str := strftime_Ymd (platform env) dt in
  let cycle_str := strftime_H dt in
  let result :=
    {| success := false; date := date_str; cycle := cycle_str;
       forecast_hour := forecast_hour; elements := elements;
       file_format := py "grib2"; file_path := Some output_path;
       file_size_mb := None; download_time_s := None;
       download_speed_mbs := None; error_message := None |} in
  try_except
    (try_body result date_str cycle_str forecast_hour elements
       output_path bucket region total_start_time)
    (fun e => ret (with_error result (ErrorDownloading e))).

End Download.

(** The defaults of [bucket] and [region]. *)
Definition DEFAULT_BUCKET : pystr := py "noaa-gfs-bdp-pds".
Definition DEFAULT_REGION : pystr := py "us-east-1".

(** ** Vocabulary of the properties *)

(** The colon-separated fields of a line, as the parser sees them. *)
Definition fields (line : pystr) : list pystr := split COLON (strip line).

(** A well-formed entry: six fields or more, the second an integer. *)
Definition well_formed_entry (pf : Platform) (line : pystr) (offset : Z) : Prop :=
  (6 <= length (fields line))%nat /\ py_int pf (item (fields line) 1) = Ok offset.

(** The pair [(start_byte, end_byte)] of a record. *)
Definition byte_range (elem : GribElement) : Z * Z :=
  (start_byte elem, end_byte elem).

(** The record of a line, given its byte range. *)
Definition record_of (line : pystr) (range : Z * Z) : GribElement :=
  {| variable := item (fields line) 3; level := item (fields line) 4;
     start_byte := fst range; end_byte := snd range |}.

(** [int] refuses the second field of the line. *)
Definition rejects (pf : Platform) (line : pystr) : Prop :=
  exists e, py_int pf (item (fields line) 1) = Raise e.

(** Line [i] makes the parser raise: it has six fields or more, and [int]
    refuses its own second field or that of the line after it. *)
Definition offending (pf : Platform) (lines : list pystr) (i : nat) : Prop :=
  exists line,
    lines !! i = Some line
    /\ (6 <= length (fields line))%nat
    /\ (rejects pf line
        \/ exists next,
             lines !! S i = Some next
             /\ (2 <= length (fields next))%nat
             /\ rejects pf next).

(** The target names exactly this record. *)
Definition selects (target : Dict) (elem : GribElement) : bool :=
  bool_decide (target !! py "name" = Some (variable elem)
               /\ target !! py "level" = Some (level elem)).

(** A target with both of its keys. *)
Definition well_formed_target (target : Dict) : Prop :=
  is_Some (target !! py "name") /\ is_Some (target !! py "level").

(** The request for the half-open interval from [first_byte] to
    [end_excl]: the inclusive range that ends one byte earlier. *)
Definition range_request (bucket key : pystr) (first_byte end_excl : Z)
  : S3Request :=
  {| Bucket := bucket; Key := key;
     Range := Some (py "bytes=" ++ decimal first_byte ++ py "-"
                    ++ decimal (end_excl - 1)) |}.

Definition element_request (bucket key : pystr) (elem : GribElement)
  : S3Request :=
  range_request bucket key (start_byte elem) (end_byte elem).

Definition index_request (bucket idx_key : pystr) : S3Request :=
  {| Bucket := bucket; Key := idx_key; Range := None |}.

(** The store gave [data] in answer to [request], in some world. *)
Definition answered (env : Env) (request : S3Request) (data : pybytes) : Prop :=
  exists w, s3_get_object env w request = Ok data.

(** The sum of [end_byte - start_byte] over the records. *)
Definition sum_ranges (selected : list GribElement) : Z :=
  fold_right Z.add 0
    (List.map (fun elem => end_byte elem - start_byte elem) selected).

(** What [fetch_loop] leaves: the files as they were, one range read for
    each of the first [k] records, and on success the chunks appended. *)
Definition fetch_post (env : Env) (bucket key : pystr)
           (selected : list GribElement) (merged : pybytes) (total : Z)
           (w : World) (r : result (pybytes * Z)) (w' : World) : Prop :=
  files w' = files w
  /\ exists k,
       (k <= length selected)%nat
       /\ trace w' = trace w
                     ++ List.map (fun elem =>
                                    EvGetObject (element_request bucket key elem))
                                 (take k selected)
       /\ match r with
          | Ok (merged', total') =>
              k = length selected
              /\ exists chunks,
                   Forall2 (fun elem chunk =>
                              answered env (element_request bucket key elem) chunk)
                           selected chunks
                   /\ merged' = merged ++ concat chunks
                   /\ total' = total + Z.of_nat (length (concat chunks))
          | Raise _ => True
          end.

(** What the three steps of saving leave when the file was opened. *)
Definition saved_prefix (path : pystr) (data : pybytes) (n : nat)
           (w w' : World) : Prop :=
  trace w' = trace w ++ [EvMakedirs (dirname path); EvOpen path; EvWrite path data]
  /\ files w' = <[path := take n data]> (files w).

(** The outcome as the source first builds it (lines 330-337). *)
Definition initial_result (pf : Platform) (utc : datetime) (fh : pystr)
           (els : list Dict) (path : pystr) : GFSDownloadResult :=
  {| success := false; date := strftime_Ymd pf utc; cycle := strftime_H utc;
     forecast_hour := fh; elements := els;
     file_format := py "grib2"; file_path := Some path;
     file_size_mb := None; download_time_s := None;
     download_speed_mbs := None; error_message := None |}.

(** The world after one more reading of the clock. *)
Definition after_clock (w : World) : World :=
  {| files := files w; trace := trace w; clock_reads := S (clock_reads w) |}.

(** How far a run of [download_gfs_data] got, and with what. *)
Inductive Progress : Type :=
| ClientFailed (e : PyExc)
| IndexFailed (e : PyExc)
| NothingSelected
| FetchFailed (selected : list GribElement) (issued : nat) (e : PyExc)
| MakedirsFailed (selected : list GribElement) (chunks : list pybytes) (e : PyExc)
| OpenFailed (selected : list GribElement) (chunks : list pybytes) (e : PyExc)
| AfterOpenFailed (selected : list GribElement) (chunks : list pybytes)
                  (written : nat) (e : PyExc)
| Completed (selected : list GribElement) (chunks : list pybytes)
            (size elapsed speed : Q).

(** The exception that ended the [try] body, if one did. *)
Definition raised (p : Progress) : option PyExc :=
  match p with
  | NothingSelected | Completed _ _ _ _ _ => None
  | ClientFailed e | IndexFailed e | FetchFailed _ _ e | MakedirsFailed _ _ e
  | OpenFailed _ _ e | AfterOpenFailed _ _ _ e => Some e
  end.

Section Summary.
Variable env : Env.
Variables (utc : datetime) (fh : pystr) (els : list Dict).
Variables (path bucket region : pystr).

Definition the_grib_key : pystr :=
  grib_key_of (strftime_Ymd (platform env) utc) (strftime_H utc) fh.

Definition the_index_request : S3Request :=
  index_request bucket (idx_key_of the_grib_key).

Definition range_reads (selected : list GribElement) : list Event :=
  List.map (fun elem => EvGetObject (element_request bucket the_grib_key elem))
           selected.

Definition opening : list Event :=
  [EvClient region; EvGetObject the_index_request].

(** The calls a run makes, by how far it got. *)
Definition events_of (p : Progress) : list Event :=
  match p with
  | ClientFailed _ => [EvClient region]
  | IndexFailed _ | NothingSelected => opening
  | FetchFailed selected issued _ => opening ++ range_reads (take issued selected)
  | MakedirsFailed selected _ _ =>
      opening ++ range_reads selected ++ [EvMakedirs (dirname path)]
  | OpenFailed selected _ _ =>
      opening ++ range_reads selected ++ [EvMakedirs (dirname path); EvOpen path]
  | AfterOpenFailed selected chunks _ _
  | Completed selected chunks _ _ _ =>
      opening ++ range_reads selected
      ++ [EvMakedirs (dirname path); EvOpen path; EvWrite path (concat chunks)]
  end.

(** The files it leaves. *)
Definition files_of (p : Progress) (before : gmap pystr pybytes)
  : gmap pystr pybytes :=
  match p with
  | AfterOpenFailed _ chunks written _ =>
      <[path := take written (concat chunks)]> before
  | Completed _ chunks _ _ _ => <[path := concat chunks]> before
  | _ => before
  end.

(** The outcome it returns. *)
Definition outcome_of (p : Progress) : GFSDownloadResult :=
  let result := initial_result (platform env) utc fh els path in
  match p with
  | NothingSelected => with_error result (ElementsNotFound els)
  | Completed _ _ size elapsed speed => with_success result size elapsed speed
  | ClientFailed e | IndexFailed e | FetchFailed _ _ e | MakedirsFailed _ _ e
  | OpenFailed _ _ e | AfterOpenFailed _ _ _ e =>
      with_error result (ErrorDownloading e)
  end.

(** [selected] is what the index, as the store served it, holds for the
    targets. *)
Definition selected_from_index (selected : list GribElement) : Prop :=
  exists body text records,
    answered env the_index_request body
    /\ decode_utf8 body = Ok text
    /\ GribIdx._parse_idx_content (platform env) text = Ok records
    /\ GribIdx.find_elements {| GribIdx.elements := records |} els = Ok selected.

(** [chunks] are the answers of the store to the range reads of
    [selected], one each, in order. *)
Definition fetched (selected : list GribElement) (chunks : list pybytes) : Prop :=
  selected_from_index selected
  /\ selected <> []
  /\ Forall2 (fun elem chunk =>
                answered env (element_request bucket the_grib_key elem) chunk)
             selected chunks.

(** What is known of each way to end. *)
Definition justified (p : Progress) : Prop :=
  match p with
  | ClientFailed _ | IndexFailed _ => True
  | NothingSelected => selected_from_index []
  | FetchFailed selected issued _ =>
      selected_from_index selected /\ selected <> []
      /\ (issued <= length selected)%nat
  | MakedirsFailed selected chunks e =>
      fetched selected chunks /\ (dirname path = [] -> e = FileNotFoundError [])
  | OpenFailed selected chunks _ | AfterOpenFailed selected chunks _ _ =>
      fetched selected chunks /\ dirname path <> []
  | Completed selected chunks size elapsed speed =>
      fetched selected chunks /\ dirname path <> []
      /\ megabytes (Z.of_nat (length (concat chunks))) = Ok size
      /\ avg_speed_mbps (Z.of_nat (length (concat chunks))) elapsed = Ok speed
  end.

End Summary.

(** The date of ordinal [n] has ordinal [n]. *)
Definition roundtrips (n : Z) : bool :=
  let '(y, m, d) := ord2ymd n in ymd2ord y m d =? n.

(** [check] holds of the [count] integers from [n] on. *)
Fixpoint all_from (check : Z -> bool) (count : nat) (n : Z) : bool :=
  match count with
  | O => true
  | S count' => if check n then all_from check count' (n + 1) else false
  end.

(** ** Data of the examples *)

(** The platform of the examples.  Their inputs are ASCII, so the table
    of Unicode digits plays no part and is left empty. *)
Definition example_platform : Platform :=
  {| unicode_todecimal := fun _ => None;
     int_max_str_digits := 4300;
     strftime_pads_year := false |}.

(** Four entries, at offsets 100, 500, 900 and 1400. *)
Definition four_entries : pystr := py
"1:100:d=2025030100:TMP:2 m above ground:anl:
2:500:d=2025030100:UGRD:10 m above ground:anl:
3:900:d=2025030100:VGRD:10 m above ground:anl:
4:1400:d=2025030100:APCP:surface:anl:".

(** The same index with a second field that is no integer. *)
Definition garbled_entries : pystr := py
"1:100:d=2025030100:TMP:2 m above ground:anl:
2:oops:d=2025030100:UGRD:10 m above ground:anl:
3:900:d=2025030100:VGRD:10 m above ground:anl:
4:1400:d=2025030100:APCP:surface:anl:".

(** An index without one line of six fields. *)
Definition degenerate_index : pystr := py
"<html>

not:an:index".

Definition target (name level : string) : Dict :=
  {[ py "name" := py name; py "level" := py level ]}.

Definition wind_then_temperature : list Dict :=
  [target "UGRD" "10 m above ground"; target "TMP" "2 m above ground"].

(** A store with one small object and its index. *)
Definition small_index : string :=
"1:0:d=2025030100:TMP:2 m above ground:anl:
2:3:d=2025030100:UGRD:10 m above ground:anl:
3:5:d=2025030100:VGRD:10 m above ground:anl:
".

Definition small_store (request : S3Request) : result pybytes :=
  match Range request with
  | None => Ok (list_byte_of_string small_index)
  | Some range =>
      if bool_decide (range = py "bytes=0-2") then Ok [x01; x02; x03]%byte
      else if bool_decide (range = py "bytes=3-4") then Ok [x04; x05]%byte
      else Raise (ExternalError (py "InvalidRange"))
  end.

(** Collaborators that never fail. *)
Definition quiet_env : Env :=
  {| platform := example_platform;
     boto3_client := fun _ _ => None;
     s3_get_object := fun _ request => small_store request;
     mkdir_fault := fun _ _ => None;
     open_fault := fun _ _ => None;
     write_fault := fun _ _ _ => None;
     time_time := fun w => inject_Z (Z.of_nat (clock_reads w)) |}.

(** The same, on a disk with no room left: the file opens, the write
    fails at once. *)
Definition full_disk_env : Env :=
  {| platform := example_platform;
     boto3_client := fun _ _ => None;
     s3_get_object := fun _ request => small_store request;
     mkdir_fault := fun _ _ => None;
     open_fault := fun _ _ => None;
     write_fault := fun _ _ _ =>
       Some (0%nat, ExternalError (py "[Errno 28] No space left on device"));
     time_time := fun w => inject_Z (Z.of_nat (clock_reads w)) |}.

(** A store that serves [degenerate_index] as the index. *)
Definition junk_env : Env :=
  {| platform := example_platform;
     boto3_client := fun _ _ => None;
     s3_get_object := fun _ _ =>
       Ok (list_byte_of_string "<html>

not:an:index");
     mkdir_fault := fun _ _ => None;
     open_fault := fun _ _ => None;
     write_fault := fun _ _ _ => None;
     time_time := fun w => inject_Z (Z.of_nat (clock_reads w)) |}.

(** The same as [quiet_env], with a connection that drops after the
    second answer. *)
Definition flaky_env : Env :=
  {| platform := example_platform;
     boto3_client := fun _ _ => None;
     s3_get_object := fun w request =>
       if (3 <=? length (trace w))%nat
       then Raise (ExternalError (py "Connection reset by peer"))
       else small_store request;
     mkdir_fault := fun _ _ => None;
     open_fault := fun _ _ => None;
     write_fault := fun _ _ _ => None;
     time_time := fun w => inject_Z (Z.of_nat (clock_reads w)) |}.

Definition empty_world : World :=
  {| files := ∅; trace := []; clock_reads := 0 |}.

Definition output_path : pystr := py "data/out.grib2".

(** A world where the destination exists already. *)
Definition world_with_output : World :=
  {| files := {[ output_path := [x47; x52; x49; x42]%byte ]};
     trace := []; clock_reads := 0 |}.

(** 2025-03-01 00:00, naive. *)
Definition naive_midnight : datetime :=
  {| year := 2025; month := 3; day := 1;
     hour := 0; minute := 0; second := 0; microsecond := 0;
     tzinfo := None |}.

(** 2025-03-01 01:30 at UTC+08:00. *)
Definition shanghai_morning : datetime :=
  {| year := 2025; month := 3; day := 1;
     hour := 1; minute := 30; second := 0; microsecond := 0;
     tzinfo := Some (8 * 3600 * US_PER_SECOND) |}.

(** 9999-12-31 23:30 at UTC-01:00: half an hour past the last UTC
    instant a [datetime] can hold. *)
Definition last_half_hour : datetime :=
  {| year := 9999; month := 12; day := 31;
     hour := 23; minute := 30; second := 0; microsecond := 0;
     tzinfo := Some (- 3600 * US_PER_SECOND) |}.

(** ** Vocabulary of the further properties *)

(** [a] is [b] with whitespace put before and after it. *)
Definition differ_by_outer_whitespace (a b : pystr) : Prop :=
  exists pre post,
    Forall (fun c => Py_UNICODE_ISSPACE c = true) pre
    /\ Forall (fun c => Py_UNICODE_ISSPACE c = true) post
    /\ a = pre ++ b ++ post.

(** The text with a carriage return put before each of its newlines. *)
Definition with_carriage_returns (text : pystr) : pystr :=
  flat_map (fun c => if (c =? NEWLINE)%N then [13%N; NEWLINE] else [c]) text.

(** Line [i] has six fields or more and the line after it two or more:
    the two counts the parser asks for before it builds a record. *)
Definition closes (lines : list pystr) (i : nat) : bool :=
  match lines !! i, lines !! S i with
  | Some line, Some next =>
      (6 <=? length (fields line))%nat && (2 <=? length (fields next))%nat
  | _, _ => false
  end.

(** [elem] is the record of line [i]: its variable and level are the
    fourth and fifth fields of the line, its range runs from the offset
    of the line to the offset of the line after it. *)
Definition record_at (pf : Platform) (lines : list pystr) (i : nat)
           (elem : GribElement) : Prop :=
  exists line next,
    lines !! i = Some line
    /\ lines !! S i = Some next
    /\ py_int pf (item (fields line) 1) = Ok (start_byte elem)
    /\ py_int pf (item (fields next) 1) = Ok (end_byte elem)
    /\ variable elem = item (fields line) 3
    /\ level elem = item (fields line) 4.

(** [four_entries] with its lines indented and a blank after each. *)
Definition indented_entries : pystr := py
"  1:100:d=2025030100:TMP:2 m above ground:anl: 
  2:500:d=2025030100:UGRD:10 m above ground:anl: 
  3:900:d=2025030100:VGRD:10 m above ground:anl: 
  4:1400:d=2025030100:APCP:surface:anl: ".

(** The key whose lookup raises while [target] is compared with the
    records [elems], if one does: ["name"] is looked up at the first
    record, ["level"] at the first record whose variable is the name. *)
Definition missing_key (elems : list GribElement) (target : Dict)
  : option pystr :=
  match elems, target !! py "name" with
  | [], _ => None
  | _ :: _, None => Some (py "name")
  | _ :: _, Some name =>
      if existsb (fun elem => str_eq (variable elem) name) elems then
        match target !! py "level" with
        | None => Some (py "level")
        | Some _ => None
        end
      else None
  end.

(** The first key missing, in the order of the targets. *)
Fixpoint first_missing (elems : list GribElement) (targets : list Dict)
  : option pystr :=
  match targets with
  | [] => None
  | target :: targets' =>
      match missing_key elems target with
      | Some key => Some key
      | None => first_missing elems targets'
      end
  end.

(** The records of the index that the targets name, target by target. *)
Definition named_records (self : GribIdx.t) (targets : list Dict)
  : list GribElement :=
  flat_map (fun target => List.filter (selects target) (GribIdx.elements self))
           targets.

(** An index of two records. *)
Definition two_records : GribIdx.t :=
  {| GribIdx.elements :=
       [ {| variable := py "TMP"; level := py "2 m above ground";
            start_byte := 0; end_byte := 3 |};
         {| variable := py "UGRD"; level := py "10 m above ground";
            start_byte := 3; end_byte := 5 |} ] |}.

(** A target without its level. *)
Definition name_only (name : string) : Dict := {[ py "name" := py name ]}.

(** The world after the one request of [download_bytes]: the clock read
    before it, the request made. *)
Definition after_range_read (bucket key : pystr) (first_byte end_excl : Z)
           (w : World) : World :=
  record_event (EvGetObject (range_request bucket key first_byte end_excl))
               (after_clock w).

(** A store that answers every request with the same four bytes. *)
Definition echo_env : Env :=
  {| platform := example_platform;
     boto3_client := fun _ _ => None;
     s3_get_object := fun _ _ => Ok [x47; x52; x49; x42]%byte;
     mkdir_fault := fun _ _ => None;
     open_fault := fun _ _ => None;
     write_fault := fun _ _ _ => None;
     time_time := fun w => inject_Z (Z.of_nat (clock_reads w)) |}.

(** Source lines 352-358 as a value: the answer of the store to
    [request] in the world [w], decoded, parsed and searched for the
    targets. *)
Definition index_stage (env : Env) (w : World) (request : S3Request)
           (targets : list Dict) : result (list GribElement) :=
  (let* body := s3_get_object env w request in
   let* idx_content := decode_utf8 body in
   let* grib_idx := GribIdx.__init__ (platform env) idx_content in
   GribIdx.find_elements grib_idx targets)%result.

(** The world when the client has been made: the clock read once, the
    client asked for. *)
Definition with_client (region : pystr) (w : World) : World :=
  record_event (EvClient region) (after_clock w).

(** The world when the index has been asked for. *)
Definition with_index (region : pystr) (request : S3Request) (w : World)
  : World :=
  record_event (EvGetObject request) (with_client region w).

(** A store whose index is no UTF-8. *)
Definition binary_env : Env :=
  {| platform := example_platform;
     boto3_client := fun _ _ => None;
     s3_get_object := fun _ _ => Ok [xff; xfe]%byte;
     mkdir_fault := fun _ _ => None;
     open_fault := fun _ _ => None;
     write_fault := fun _ _ _ => None;
     time_time := fun w => inject_Z (Z.of_nat (clock_reads w)) |}.

(** The ordinal [n] has the date [y]-[m]-[d], and lies in the first 400
    years, in the first 399 if [y] does. *)
Definition has_date (n y m d : Z) : bool :=
  let '(y', m', d') := ord2ymd n in
  (y' =? y) && (m' =? m) && (d' =? d) && (1 <=? n)
  && (n <=? (if y <? 400 then DI400Y - 366 else DI400Y)).

(** The ordinal of every day of the month [m] of the year [y] has the
    date of that day. *)
Definition month_roundtrips (y m : Z) : bool :=
  all_from (fun d => has_date (ymd2ord y m d) y m d)
           (Z.to_nat (days_in_month y m)) 1.

(** So for every month of the year. *)
Definition year_roundtrips (y : Z) : bool := all_from (month_roundtrips y) 12 1.

(** The instant of a timestamp, in microseconds: its wall time less its
    offset, a naive one being taken as UTC. *)
Definition instant (dt : datetime) : Z :=
  wall_microseconds dt - default 0 (tzinfo dt).

(** 2025-02-28 16:30 at UTC-01:00: the instant of [shanghai_morning]. *)
Definition azores_afternoon : datetime :=
  {| year := 2025; month := 2; day := 28;
     hour := 16; minute := 30; second := 0; microsecond := 0;
     tzinfo := Some (- 3600 * US_PER_SECOND) |}.

(** The collaborators [env] with another clock. *)
Definition with_clock (env : Env) (clock : World -> Q) : Env :=
  {| platform := platform env;
     boto3_client := boto3_client env;
     s3_get_object := s3_get_object env;
     mkdir_fault := mkdir_fault env;
     open_fault := open_fault env;
     write_fault := write_fault env;
     time_time := clock |}.

(** The outcome without its time and its speed. *)
Definition without_timing (out : GFSDownloadResult) : GFSDownloadResult :=
  {| success := success out; date := date out; cycle := cycle out;
     forecast_hour := forecast_hour out; elements := elements out;
     file_format := file_format out; file_path := file_path out;
     file_size_mb := file_size_mb out;
     download_time_s := None; download_speed_mbs := None;
     error_message := error_message out |}.

(** What a call gives, the time and the speed apart. *)
Definition forget_timing (run : result GFSDownloadResult * World)
  : result GFSDownloadResult * World :=
  (match fst run with
   | Ok out => Ok (without_timing out)
   | Raise e => Raise e
   end, snd run).

(** A clock that stands still. *)
Definition stopped_clock : World -> Q := fun _ => 0%Q.

(** A Unicode scalar value: a code point up to U+10FFFF that is no
    surrogate. *)
Definition scalar_value (c : N) : Prop :=
  (c <= 1114111)%N /\ ~ (55296 <= c <= 57343)%N.

(** [s] is made of ASCII digits. *)
Definition digits_only (s : pystr) : bool := forallb is_digit s.

(** [n], padded to two places, is two digits. *)
Definition two_digits (n : Z) : bool :=
  digits_only (zero_pad 2 n) && (length (zero_pad 2 n) =? 2)%nat.

(** The year [y] is written in digits, four of them when it is padded
    or has four. *)
Definition year_digits (y : Z) : bool :=
  digits_only (decimal y) && digits_only (zero_pad 4 y)
  && (length (zero_pad 4 y) =? 4)%nat
  && ((y <? 1000) || (length (decimal y) =? 4)%nat).

(** Source line 424: the destination of the script,
    [f"data/gfs_{%Y%m%d}_{%H}_{forecast_hour}.grib2"]. *)
Definition main_output_path (pf : Platform) (forecast_time : datetime)
           (forecast_hour : pystr) : pystr :=
  py "data/gfs_" ++ strftime_Ymd pf forecast_time ++ py "_"
  ++ strftime_H forecast_time ++ py "_" ++ forecast_hour ++ py ".grib2".

(** ** Vocabulary of the stages of a run *)

(** The error of [os.makedirs(name, exist_ok=True)] in the world [w], if
    it fails: that of the empty name, or the fault of the file system. *)
Definition makedirs_error (env : Env) (w : World) (name : pystr)
  : option PyExc :=
  match name with
  | [] => Some (FileNotFoundError [])
  | _ :: _ => mkdir_fault env w name
  end.

(** [str(n)] is within the digit limit of the platform. *)
Definition within_digit_limit (pf : Platform) (n : Z) : Prop :=
  int_max_str_digits pf = 0%N \/ (digit_count n <= int_max_str_digits pf)%N.

(** Both numbers of the header [bytes=start-(end-1)] can be written. *)
Definition header_formats (pf : Platform) (elem : GribElement) : Prop :=
  within_digit_limit pf (start_byte elem)
  /\ within_digit_limit pf (end_byte elem - 1).

(** The world when the records [done] have been read one after the
    other, from [w] on: for each the clock read, the request made, the
    clock read again. *)
Fixpoint world_after_reads (bucket key : pystr) (done : list GribElement)
         (w : World) : World :=
  match done with
  | [] => w
  | elem :: rest =>
      world_after_reads bucket key rest
        (after_clock
           (after_range_read bucket key (start_byte elem) (end_byte elem) w))
  end.

(** What the store answers to the range read of [elem] when it is made
    after the reads of [done], the loop having started in [w]. *)
Definition store_answer (env : Env) (bucket key : pystr)
           (done : list GribElement) (elem : GribElement) (w : World)
  : result pybytes :=
  s3_get_object env (after_clock (world_after_reads bucket key done w))
                (element_request bucket key elem).

(** The run that starts in [w] gets as far as the saving: the client is
    made, the index stage gives the records [selected], one at least, and
    the fetch loop gives the buffer [data] and the count [total] and
    leaves the world [ws]. *)
Definition reaches_save (env : Env) (utc : datetime) (fh : pystr)
           (els : list Dict) (bucket region : pystr) (w : World)
           (selected : list GribElement) (data : pybytes) (total : Z)
           (ws : World) : Prop :=
  boto3_client env (after_clock w) region = None
  /\ index_stage env (with_client region w)
                 (the_index_request env utc fh bucket) els = Ok selected
  /\ selected <> []
  /\ fetch_loop env bucket (the_grib_key env utc fh) selected [] 0
                (with_index region (the_index_request env utc fh bucket) w)
     = (Ok (data, total), ws).

(** The world when the directory of [path] has been asked for. *)
Definition after_makedirs (path : pystr) (ws : World) : World :=
  record_event (EvMakedirs (dirname path)) ws.

(** The world when the file at [path] has been opened for writing. *)
Definition after_open (path : pystr) (ws : World) : World :=
  record_event (EvOpen path) (set_file path [] (after_makedirs path ws)).

(** The outcome is the failure with the message of [e]. *)
Definition failed_with (out : GFSDownloadResult) (e : PyExc) : Prop :=
  success out = false /\ error_message out = Some (ErrorDownloading e).

(** No collaborator of [env] ever raises [e]. *)
Definition never_raises (env : Env) (e : PyExc) : Prop :=
  (forall w region, boto3_client env w region <> Some e)
  /\ (forall w request, s3_get_object env w request <> Raise e)
  /\ (forall w name, mkdir_fault env w name <> Some e)
  /\ (forall w path, open_fault env w path <> Some e)
  /\ (forall w path data n, write_fault env w path data <> Some (n, e)).

(** The ordinal [n] of the first 400 years has a valid date, of the
    first 399 years if it is not among the last 366 days. *)
Definition has_valid_date (n : Z) : bool :=
  let '(y, m, d) := ord2ymd n in
  (1 <=? y) && (y <=? 400) && (1 <=? m) && (m <=? 12)
  && (1 <=? d) && (d <=? days_in_month y m)
  && ((DI400Y - 366 <? n) || (y <=? 399)).

(** The exceptions that the program and the library functions it calls
    raise of themselves, whatever the collaborators do. *)
Definition own_exception (e : PyExc) : Prop :=
  e = OverflowError \/ e = UnicodeDecodeError \/ e = FileNotFoundError []
  \/ (exists literal, e = ValueError literal) \/ (exists key, e = KeyError key).

(** The collaborators of the examples, with a clock that stands still. *)
Definition still_env : Env := with_clock quiet_env stopped_clock.

(** * Properties *)

(** ** The index parser *)

Lemma parse_line_fields pf lines i line :
  GribIdx.parse_line pf lines i line =
  if (6 <=? length (fields line))%nat then
    rbind (py_int pf (item (fields line) 1)) (fun start =>
    rbind (GribIdx.next_offset pf lines i) (fun oe =>
      Ok (option_map (fun e => record_of line (start, e)) oe)))
  else Ok None.
Proof.
  unfold GribIdx.parse_line, fields.
  destruct (strip line) eqn:E.
  - reflexivity.
  - rewrite <- E. destruct (6 <=? _)%nat; [|reflexivity].
    destruct (py_int pf _); cbn [rbind]; [|reflexivity].
    destruct (GribIdx.next_offset pf lines i) as [[e|]|]; reflexivity.
Qed.

Lemma next_offset_fields pf lines i :
  GribIdx.next_offset pf lines i =
  match lines !! S i with
  | Some next_line =>
      if (2 <=? length (fields next_line))%nat then
        rbind (py_int pf (item (fields next_line) 1)) (fun e => Ok (Some e))
      else Ok None
  | None => Ok None
  end.
Proof.
  unfold GribIdx.next_offset, fields.
  replace (i + 1)%nat with (S i) by lia.
  destruct (Nat.ltb_spec i (length lines - 1)) as [Hlt|Hge].
  - destruct (lines !! S i) as [next|] eqn:E.
    + destruct (strip next); reflexivity.
    + apply lookup_ge_None in E. lia.
  - rewrite (proj2 (lookup_ge_None lines (S i))); [reflexivity | lia].
Qed.

Lemma parse_loop_consecutive pf lines :
  forall todo offs pre acc,
    lines = pre ++ todo ->
    Forall2 (well_formed_entry pf) todo offs ->
    GribIdx.parse_loop pf lines (length pre) todo acc
    = Ok (acc ++ zip_with record_of todo (zip offs (tail offs))).
Proof.
  induction todo as [|line todo IH]; intros offs pre acc Hl Hwf.
  - inversion Hwf. simpl. by rewrite app_nil_r.
  - inversion Hwf as [|? o ? offs' [H6 Hint] Hrest Ea Eb]; clear Hwf; subst offs.
    cbn [GribIdx.parse_loop]. rewrite parse_line_fields.
    apply Nat.leb_le in H6 as ->. rewrite Hint. cbn [rbind].
    rewrite next_offset_fields.
    assert (Hnext : lines !! S (length pre) = todo !! 0%nat).
    { rewrite Hl, lookup_app_r by lia.
      by replace (S (length pre) - length pre)%nat with 1%nat by lia. }
    assert (Hl' : lines = (pre ++ [line]) ++ todo) by (by rewrite <- app_assoc).
    assert (Hlen : S (length pre) = length (pre ++ [line]))
      by (rewrite length_app; simpl; lia).
    rewrite Hnext, Hlen.
    destruct Hrest as [|next o' todo' offs'' [H6' Hint'] Hrest'].
    + cbn [lookup list_lookup rbind option_map].
      rewrite (IH [] _ acc Hl') by constructor. reflexivity.
    + cbn [lookup list_lookup].
      assert (H2 : (2 <=? length (fields next))%nat = true) by (apply Nat.leb_le; lia).
      rewrite H2, Hint'. cbn [rbind option_map].
      rewrite (IH (o' :: offs'') _ _ Hl') by (by constructor).
      cbn [tail zip zip_with]. by rewrite <- app_assoc.
Qed.

(** C1.  An index text all of whose lines are well-formed entries, with
    offsets [offsets], parses to one record for each line but the last:
    the record of line [i] has the variable and level of that line and the
    byte range from offset [i] to offset [i + 1].  For the offsets 100,
    500, 900, 1400 the ranges are (100, 500), (500, 900), (900, 1400). *)
Theorem parse_consecutive_entries pf text offsets :
  Forall2 (well_formed_entry pf) (split NEWLINE text) offsets ->
  let lines := split NEWLINE text in
  let records := zip_with record_of lines (zip offsets (tail offsets)) in
  GribIdx._parse_idx_content pf text = Ok records
  /\ length records = (length lines - 1)%nat
  /\ List.map byte_range records = zip offsets (tail offsets)
  /\ (offsets = [100; 500; 900; 1400] ->
      List.map byte_range records = [(100, 500); (500, 900); (900, 1400)]).
Proof.
  intros Hwf lines records.
  assert (Hlen : length lines = length offsets) by (eapply Forall2_length; eauto).
  assert (Hzl : length (zip offsets (tail offsets)) = (length lines - 1)%nat).
  { rewrite length_zip_with, length_tl. lia. }
  assert (Hmap : List.map byte_range records = zip offsets (tail offsets)).
  { subst records. revert Hzl. generalize (zip offsets (tail offsets)).
    generalize lines. clear.
    induction lines as [|l ls IH]; intros [|[a b] rs] Hz; simpl in *; try done; try lia.
    f_equal. destruct ls; [by destruct rs|]. apply IH. simpl in *. lia. }
  split; [|split; [|split]].
  - unfold GribIdx._parse_idx_content.
    apply (parse_loop_consecutive pf lines lines offsets [] []); done.
  - subst records. rewrite length_zip_with. lia.
  - exact Hmap.
  - intros ->. rewrite Hmap. reflexivity.
Qed.

(** The lines of [four_entries] are well-formed, with these offsets. *)
Lemma four_entries_well_formed :
  Forall2 (well_formed_entry example_platform)
          (split NEWLINE four_entries) [100; 500; 900; 1400].
Proof.
  set (lines := split NEWLINE four_entries). vm_compute in lines. subst lines.
  repeat (constructor;
          [split; [apply Nat.leb_le|]; vm_compute; reflexivity|]).
  constructor.
Defined.

(** The four entries of the example parse to the three ranges. *)
Lemma parse_consecutive_entries_witness :
  exists records,
    GribIdx._parse_idx_content example_platform four_entries = Ok records
    /\ List.map byte_range records = [(100, 500); (500, 900); (900, 1400)].
Proof.
  destruct (parse_consecutive_entries example_platform four_entries
              [100; 500; 900; 1400] four_entries_well_formed)
    as (Hparse & _ & _ & Hranges).
  eexists. split; [exact Hparse | exact (Hranges eq_refl)].
Defined.

Lemma py_int_raise pf s e : py_int pf s = Raise e -> e = ValueError s.
Proof. unfold py_int. destruct (long_from_string _ _); congruence. Qed.

Lemma parse_line_short pf lines i line :
  (length (fields line) < 6)%nat -> GribIdx.parse_line pf lines i line = Ok None.
Proof.
  intros H. rewrite parse_line_fields.
  by apply Nat.leb_gt in H as ->.
Qed.

Lemma parse_line_raise_iff pf lines i line :
  lines !! i = Some line ->
  (exists e, GribIdx.parse_line pf lines i line = Raise e) <-> offending pf lines i.
Proof.
  intros Hi. rewrite parse_line_fields, next_offset_fields. unfold offending, rejects.
  split.
  - intros [e He]. exists line. split; [done|].
    destruct (Nat.leb_spec 6 (length (fields line))) as [H6|H6]; [|done].
    split; [done|].
    destruct (py_int pf (item (fields line) 1)) as [o|e1]; [|eauto].
    right. cbn [rbind] in He.
    destruct (lines !! S i) as [next|]; [|done].
    exists next. split; [done|].
    destruct (Nat.leb_spec 2 (length (fields next))) as [H2|H2]; [|done].
    split; [done|].
    destruct (py_int pf (item (fields next) 1)) as [o'|e2]; [done|eauto].
  - intros (line' & Hl & H6 & Hbad).
    assert (line' = line) as -> by congruence.
    apply Nat.leb_le in H6 as ->.
    destruct Hbad as [[e He]|(next & Hn & H2 & [e He])].
    + rewrite He. eauto.
    + rewrite Hn. apply Nat.leb_le in H2 as ->. rewrite He.
      destruct (py_int pf (item (fields line) 1)); cbn [rbind]; eauto.
Qed.

Lemma parse_line_raise_ValueError pf lines i line e :
  GribIdx.parse_line pf lines i line = Raise e -> exists s, e = ValueError s.
Proof.
  rewrite parse_line_fields, next_offset_fields.
  destruct (6 <=? _)%nat; [|done].
  destruct (py_int pf (item (fields line) 1)) as [o|e1] eqn:E1; cbn [rbind].
  - destruct (lines !! S i) as [next|]; [|done].
    destruct (2 <=? _)%nat; [|done].
    destruct (py_int pf (item (fields next) 1)) as [o'|e2] eqn:E2; cbn [rbind]; [done|].
    intros [= <-]. apply py_int_raise in E2. eauto.
  - intros [= <-]. apply py_int_raise in E1. eauto.
Qed.

Lemma parse_loop_raise_iff pf lines :
  forall todo pre acc,
    lines = pre ++ todo ->
    (exists e, GribIdx.parse_loop pf lines (length pre) todo acc = Raise e)
    <-> exists j, (length pre <= j)%nat /\ offending pf lines j.
Proof.
  induction todo as [|line todo IH]; intros pre acc Hl.
  - cbn. split; [by intros [e He]|].
    intros (j & Hj & line & Hline & _).
    apply lookup_lt_Some in Hline. rewrite Hl, app_nil_r in Hline. lia.
  - assert (Hline : lines !! length pre = Some line).
    { rewrite Hl, lookup_app_r, Nat.sub_diag by lia. done. }
    assert (Hl' : lines = (pre ++ [line]) ++ todo) by (by rewrite <- app_assoc).
    assert (Hlen : S (length pre) = length (pre ++ [line]))
      by (rewrite length_app; simpl; lia).
    cbn [GribIdx.parse_loop].
    pose proof (parse_line_raise_iff pf lines (length pre) line Hline) as Hiff.
    destruct (GribIdx.parse_line pf lines (length pre) line) as [r|e]; cbn [rbind].
    + rewrite Hlen, (IH _ _ Hl'), <- Hlen.
      split; intros (j & Hj & Hoff).
      * exists j. split; [lia|done].
      * exists j. split; [|done].
        destruct (decide (j = length pre)) as [->|]; [|lia].
        apply Hiff in Hoff as [e He]. done.
    + split; [|eauto]. intros _. exists (length pre). split; [lia|].
      apply Hiff. eauto.
Qed.

Lemma parse_loop_raise_ValueError pf lines :
  forall todo i acc e,
    GribIdx.parse_loop pf lines i todo acc = Raise e -> exists s, e = ValueError s.
Proof.
  induction todo as [|line todo IH]; intros i acc e; cbn [GribIdx.parse_loop]; [done|].
  destruct (GribIdx.parse_line pf lines i line) as [r|e1] eqn:E; cbn [rbind].
  - apply IH.
  - intros [= <-]. eapply parse_line_raise_ValueError; eauto.
Qed.

Lemma parse_loop_short pf lines :
  forall todo i acc,
    Forall (fun line => (length (fields line) < 6)%nat) todo ->
    GribIdx.parse_loop pf lines i todo acc = Ok acc.
Proof.
  induction todo as [|line todo IH]; intros i acc Hs; [done|].
  inversion Hs; subst. cbn [GribIdx.parse_loop].
  rewrite parse_line_short by done. cbn [rbind]. by apply IH.
Qed.

Lemma find_elements_nothing targets :
  GribIdx.find_elements {| GribIdx.elements := [] |} targets = Ok [].
Proof.
  unfold GribIdx.find_elements. generalize (@nil GribElement) at 2 3.
  induction targets as [|target targets IH]; intros acc; cbn; [done|apply IH].
Qed.

Lemma degenerate_index_not_found
      env dt fh els path bucket region w utc body text :
  normalize_utc dt = Ok utc ->
  boto3_client env (after_clock w) region = None ->
  s3_get_object env (record_event (EvClient region) (after_clock w))
                (the_index_request env utc fh bucket) = Ok body ->
  decode_utf8 body = Ok text ->
  Forall (fun line => (length (fields line) < 6)%nat) (split NEWLINE text) ->
  download_gfs_data env dt fh els path bucket region w
  = (Ok (with_error (initial_result (platform env) utc fh els path)
                    (ElementsNotFound els)),
     record_event (EvGetObject (the_index_request env utc fh bucket))
                  (record_event (EvClient region) (after_clock w))).
Proof.
  intros Hn Hclient Hbody Htext Hshort.
  unfold download_gfs_data, bind at 1, time. fold (after_clock w).
  unfold bind at 1, lift. rewrite Hn.
  unfold try_except, try_body, bind at 1, new_client. rewrite Hclient.
  unfold bind at 1, select_elements, bind at 1, get_object.
  fold (the_grib_key env utc fh).
  fold (index_request bucket (idx_key_of (the_grib_key env utc fh))).
  fold (the_index_request env utc fh bucket). rewrite Hbody.
  unfold bind at 1, lift. rewrite Htext.
  unfold bind at 1, GribIdx.__init__, GribIdx._parse_idx_content.
  rewrite parse_loop_short by done. cbn [rbind].
  rewrite find_elements_nothing. reflexivity.
Qed.

(** C4, corrected.  A line with fewer than six fields (a blank line is
    one) yields no record and no error at its turn; an index made of such
    lines parses to the empty list, and a run that is served it returns
    the failure that names the elements not found.  The parse is
    abandoned exactly when some line with six fields or more has a second
    field that [int] refuses, or is followed by a line of two fields or
    more whose second field [int] refuses; the error is then a
    [ValueError]. *)
Theorem parse_abandoned_only_by_int pf text :
  let lines := split NEWLINE text in
  (forall i line,
      (length (fields line) < 6)%nat ->
      GribIdx.parse_line pf lines i line = Ok None)
  /\ (Forall (fun line => (length (fields line) < 6)%nat) lines ->
      GribIdx._parse_idx_content pf text = Ok []
      /\ forall env dt fh els path bucket region w utc body,
           platform env = pf ->
           normalize_utc dt = Ok utc ->
           boto3_client env (after_clock w) region = None ->
           s3_get_object env (record_event (EvClient region) (after_clock w))
                         (the_index_request env utc fh bucket) = Ok body ->
           decode_utf8 body = Ok text ->
           exists out w',
             download_gfs_data env dt fh els path bucket region w = (Ok out, w')
             /\ success out = false
             /\ error_message out = Some (ElementsNotFound els))
  /\ ((exists e, GribIdx._parse_idx_content pf text = Raise e)
      <-> exists i, offending pf lines i)
  /\ (forall e, GribIdx._parse_idx_content pf text = Raise e ->
                exists literal, e = ValueError literal).
Proof.
  intros lines. unfold GribIdx._parse_idx_content. fold lines.
  split; [|split; [|split]].
  - intros i line. apply parse_line_short.
  - intros Hshort. split; [by apply parse_loop_short|].
    intros env dt fh els path bucket region w utc body _ Hn Hclient Hbody Htext.
    do 2 eexists. split; [by eapply degenerate_index_not_found|].
    split; reflexivity.
  - rewrite (parse_loop_raise_iff pf lines lines [] [] eq_refl). simpl.
    split; intros (j & H); [destruct H as [_ H]|]; exists j; [done|split; [lia|done]].
  - apply parse_loop_raise_ValueError.
Qed.

(** The degenerate index parses to nothing, and a run served it finds
    no element; the garbled index has an offending line. *)
Lemma parse_abandoned_only_by_int_witness :
  GribIdx._parse_idx_content example_platform degenerate_index = Ok []
  /\ (exists out w',
        download_gfs_data junk_env naive_midnight (py "000")
          wind_then_temperature output_path DEFAULT_BUCKET DEFAULT_REGION
          empty_world = (Ok out, w')
        /\ success out = false
        /\ error_message out = Some (ElementsNotFound wind_then_temperature))
  /\ exists i, offending example_platform (split NEWLINE garbled_entries) i.
Proof.
  destruct (parse_abandoned_only_by_int example_platform degenerate_index)
    as (_ & Hshort & _ & _).
  destruct (parse_abandoned_only_by_int example_platform garbled_entries)
    as (_ & _ & Hiff & _).
  assert (Hlines : Forall (fun line => (length (fields line) < 6)%nat)
                          (split NEWLINE degenerate_index)).
  { set (lines := split NEWLINE degenerate_index). vm_compute in lines.
    subst lines.
    repeat (constructor; [apply Nat.ltb_lt; vm_compute; reflexivity|]).
    constructor. }
  destruct (Hshort Hlines) as [Hparse Hrun].
  split; [exact Hparse|]. split.
  - apply (Hrun junk_env naive_midnight (py "000") wind_then_temperature
             output_path DEFAULT_BUCKET DEFAULT_REGION empty_world
             (replace_tzinfo_utc naive_midnight)
             (list_byte_of_string "<html>

not:an:index"));
      vm_compute; reflexivity.
  - apply (proj1 Hiff). exists (ValueError (py "oops")).
    vm_compute. reflexivity.
Defined.

(** C4 as stated fails: the second line of [garbled_entries] has six
    fields and the offset [oops]; the parser raises at the first line,
    and the well-formed lines after it are never read. *)
Lemma malformed_offset_aborts_parse :
  GribIdx._parse_idx_content example_platform garbled_entries
  = Raise (ValueError (py "oops")).
Proof. vm_compute. reflexivity. Qed.

(** ** The element matcher *)

Lemma is_match_selects elem target :
  well_formed_target target ->
  GribIdx.is_match elem target = Ok (selects target elem).
Proof.
  intros [[n Hn] [l Hl]]. unfold GribIdx.is_match, getitem, selects, str_eq.
  rewrite Hn, Hl. cbn [rbind].
  repeat case_bool_decide; try done; exfalso;
    match goal with
    | Hno : ~ (_ /\ _) |- _ => apply Hno; split; congruence
    | Hyes : _ /\ _ |- _ => destruct Hyes; congruence
    end.
Qed.

Lemma scan_elements_filter target :
  well_formed_target target ->
  forall elems acc,
    GribIdx.scan_elements target elems acc
    = Ok (acc ++ List.filter (selects target) elems).
Proof.
  intros Hwf. induction elems as [|elem elems IH]; intros acc; cbn.
  - by rewrite app_nil_r.
  - rewrite is_match_selects by done. cbn [rbind]. rewrite IH.
    destruct (selects target elem); [|done].
    by rewrite <- app_assoc.
Qed.

Lemma scan_targets_flat_map self :
  forall targets acc,
    Forall well_formed_target targets ->
    GribIdx.scan_targets self targets acc
    = Ok (acc ++ flat_map (fun target =>
                             List.filter (selects target) (GribIdx.elements self))
                          targets).
Proof.
  induction targets as [|target targets IH]; intros acc Hwf; cbn.
  - by rewrite app_nil_r.
  - inversion Hwf; subst. rewrite scan_elements_filter by done. cbn [rbind].
    rewrite IH by done. by rewrite <- app_assoc.
Qed.

(** C5.  For targets that have both keys, [find_elements] returns, target
    by target in the order given, the records of the index whose variable
    and level are equal to the name and level of the target, each group
    in index order; so it returns exactly the records some target names,
    and never sorts them by offset. *)
Theorem find_elements_grouped_by_target self targets :
  Forall well_formed_target targets ->
  GribIdx.find_elements self targets
  = Ok (flat_map (fun target =>
                    List.filter (selects target) (GribIdx.elements self))
                 targets)
  /\ (forall matched elem,
        GribIdx.find_elements self targets = Ok matched ->
        In elem matched <->
        In elem (GribIdx.elements self)
        /\ exists target,
             In target targets
             /\ target !! py "name" = Some (variable elem)
             /\ target !! py "level" = Some (level elem)).
Proof.
  intros Hwf.
  assert (Hrun : GribIdx.find_elements self targets
                 = Ok (flat_map (fun target =>
                                   List.filter (selects target)
                                               (GribIdx.elements self))
                                targets)).
  { unfold GribIdx.find_elements. by rewrite scan_targets_flat_map. }
  split; [exact Hrun|].
  intros matched elem. rewrite Hrun. intros [= <-].
  rewrite in_flat_map. setoid_rewrite filter_In.
  unfold selects. setoid_rewrite bool_decide_eq_true.
  split.
  - intros (target & Ht & He & Hname & Hlevel). eauto 10.
  - intros (He & target & Ht & Hname & Hlevel). eauto 10.
Qed.

(** Wind asked before temperature: the wind record comes first, though
    it lies later in the file. *)
Lemma find_elements_grouped_by_target_witness :
  exists records,
    GribIdx._parse_idx_content example_platform four_entries = Ok records
    /\ List.map byte_range
         (flat_map (fun target => List.filter (selects target) records)
                   wind_then_temperature)
       = [(500, 900); (100, 500)]
    /\ GribIdx.find_elements {| GribIdx.elements := records |}
                             wind_then_temperature
       = Ok (flat_map (fun target => List.filter (selects target) records)
                      wind_then_temperature).
Proof.
  eexists. split; [vm_compute; reflexivity|]. split; [vm_compute; reflexivity|].
  apply find_elements_grouped_by_target.
  repeat (constructor; [split; eexists; vm_compute; reflexivity|]).
  constructor.
Defined.

(** ** Arithmetic of the throughput *)

Lemma positive_spec x : positive x = true <-> (0 < x)%Q.
Proof.
  unfold positive. rewrite negb_true_iff, <- not_true_iff_false, Qle_bool_iff.
  split; [apply Qnot_le_lt | apply Qlt_not_le].
Qed.

Lemma float_truediv_nonzero x y : ~ (y == 0)%Q -> float_truediv x y = Ok (x / y)%Q.
Proof.
  intros H. unfold float_truediv.
  destruct (Qeq_bool y 0) eqn:E; [|done].
  by apply Qeq_bool_iff in E.
Qed.

Lemma megabytes_cases n :
  megabytes n = Ok (inject_Z n / inject_Z 1024 / inject_Z 1024)%Q
  \/ megabytes n = Raise OverflowError.
Proof.
  unfold megabytes, int_truediv. change (1024 =? 0) with false. cbv iota.
  destruct (_ <=? _); cbn [rbind]; [by right|left].
  by apply float_truediv_nonzero.
Qed.

(** ** The range fetch *)

Lemma format_int_ok pf n s : format_int pf n = Ok s -> s = decimal n.
Proof. unfold format_int. destruct (_ && _); congruence. Qed.

Lemma range_header_ok env s e h :
  range_header env s e = Ok h ->
  h = py "bytes=" ++ decimal s ++ py "-" ++ decimal (e - 1).
Proof.
  unfold range_header.
  destruct (format_int _ s) as [a|] eqn:Ea; cbn [rbind]; [|done].
  destruct (format_int _ (e - 1)) as [b|] eqn:Eb; cbn [rbind]; [|done].
  apply format_int_ok in Ea, Eb. congruence.
Qed.

Ltac inv_pair H := injection H as ? ?; subst.

Lemma download_bytes_inv env bucket key s e w r w' :
  download_bytes env bucket key s e w = (r, w') ->
  files w' = files w
  /\ ((trace w' = trace w /\ exists ex, r = Raise ex)
      \/ (trace w' = trace w ++ [EvGetObject (range_request bucket key s e)]
          /\ forall data, r = Ok data ->
                          answered env (range_request bucket key s e) data)).
Proof.
  unfold download_bytes, bind, time, lift, get_object, ret, record_event.
  destruct (range_header env s e) as [h|ex] eqn:Eh.
  2:{ intros H. inv_pair H. cbn. eauto. }
  apply range_header_ok in Eh. subst h. fold (range_request bucket key s e).
  cbn [files trace clock_reads].
  match goal with |- context [s3_get_object env ?wi ?rq] =>
    destruct (s3_get_object env wi rq) as [data|ex] eqn:Eg end.
  2:{ intros H. inv_pair H. cbn. split; [done|right]. split; [done|]. intros; done. }
  cbn [files trace clock_reads].
  destruct (speed_mbps _ _); [|intros H; inv_pair H; cbn; split; [done|right]; split; [done|]; intros; done].
  destruct (megabytes _); intros H; inv_pair H; cbn; (split; [done|right]; split; [done|]).
  - intros ? [= <-]. eexists; eauto.
  - intros; done.
Qed.

Lemma fetch_loop_inv env bucket key :
  forall selected merged total w r w',
    fetch_loop env bucket key selected merged total w = (r, w') ->
    fetch_post env bucket key selected merged total w r w'.
Proof.
  induction selected as [|elem rest IH]; intros merged total w r w' Hrun.
  - cbn in Hrun. unfold ret in Hrun. inv_pair Hrun.
    split; [done|]. exists 0%nat. cbn. rewrite !app_nil_r.
    repeat split; try done. exists []. cbn. rewrite app_nil_r.
    repeat split; [constructor|lia].
  - cbn [fetch_loop] in Hrun. unfold bind at 1 in Hrun.
    destruct (download_bytes env bucket key (start_byte elem) (end_byte elem) w)
      as [[chunk|ex] w1] eqn:Ed;
      apply download_bytes_inv in Ed as [Hf Ht].
    + destruct Ht as [[_ [? ?]]|[Ht Hans]]; [done|].
      specialize (Hans chunk eq_refl).
      apply IH in Hrun as (Hf' & k & Hk & Ht' & Hr).
      split; [congruence|]. exists (S k). split; [simpl; lia|].
      split.
      { rewrite Ht', Ht. cbn [take List.map]. by rewrite <- app_assoc. }
      destruct r as [[merged' total']|]; [|done].
      destruct Hr as (-> & chunks & Hall & -> & ->).
      split; [done|]. exists (chunk :: chunks).
      split; [by constructor|]. cbn [concat]. rewrite length_app, <- app_assoc.
      split; [done|lia].
    + inv_pair Hrun. split; [done|].
      destruct Ht as [[Ht _]|[Ht _]].
      * exists 0%nat. cbn. rewrite app_nil_r. repeat split; [lia|done].
      * exists 1%nat. cbn. repeat split; [lia|done].
Qed.

(** ** The calendar *)

Lemma all_from_spec check : forall count n,
  all_from check count n = true ->
  forall k, n <= k < n + Z.of_nat count -> check k = true.
Proof.
  induction count as [|count IH]; intros n H k Hk; [lia|].
  cbn [all_from] in H. destruct (check n) eqn:E; [|done].
  destruct (decide (k = n)) as [->|]; [done|].
  apply (IH (n + 1)); [done|lia].
Qed.

Lemma first_cycle_roundtrips : all_from roundtrips (Z.to_nat DI400Y) 1 = true.
Proof. vm_cast_no_check (eq_refl true). Qed.

Lemma ord2ymd_shift q r :
  0 <= r < DI400Y ->
  ord2ymd (DI400Y * q + r + 1)
  = let '(y, m, d) := ord2ymd (r + 1) in (y + 400 * q, m, d).
Proof.
  intros Hr. unfold ord2ymd.
  replace (DI400Y * q + r + 1 - 1) with (r + q * DI400Y) by lia.
  replace (r + 1 - 1) with r by lia.
  rewrite Z.div_add, Z.mod_add by done.
  rewrite (Z.div_small r DI400Y), (Z.mod_small r DI400Y) by done.
  cbv zeta.
  destruct (_ || _).
  - f_equal. f_equal. lia.
  - destruct (_ <? _); f_equal; f_equal; lia.
Qed.

Lemma is_leap_shift y q : is_leap (y + 400 * q) = is_leap y.
Proof.
  unfold is_leap.
  replace (y + 400 * q) with (y + (100 * q) * 4) at 1 by lia.
  replace (y + 400 * q) with (y + (4 * q) * 100) at 1 by lia.
  replace (y + 400 * q) with (y + q * 400) by lia.
  by rewrite !Z.mod_add.
Qed.

Lemma ymd2ord_shift y m d q :
  ymd2ord (y + 400 * q) m d = ymd2ord y m d + DI400Y * q.
Proof.
  unfold ymd2ord, days_before_month, days_before_year. rewrite is_leap_shift.
  cbv zeta.
  replace (y + 400 * q - 1) with (y - 1 + (100 * q) * 4) at 2 by lia.
  replace (y + 400 * q - 1) with (y - 1 + (4 * q) * 100) at 2 by lia.
  replace (y + 400 * q - 1) with (y - 1 + q * 400) at 2 by lia.
  rewrite !Z.div_add by done. unfold DI400Y. lia.
Qed.

Lemma ymd2ord_ord2ymd n :
  let '(y, m, d) := ord2ymd n in ymd2ord y m d = n.
Proof.
  pose proof (Z.div_mod (n - 1) DI400Y ltac:(done)) as Hdm.
  pose proof (Z.mod_pos_bound (n - 1) DI400Y ltac:(done)) as Hr.
  set (q := (n - 1) / DI400Y) in *. set (r := (n - 1) mod DI400Y) in *.
  replace n with (DI400Y * q + r + 1) by lia.
  rewrite ord2ymd_shift by done.
  pose proof (all_from_spec roundtrips _ _ first_cycle_roundtrips (r + 1)) as Hc.
  unfold roundtrips in Hc.
  destruct (ord2ymd (r + 1)) as [[y m] d].
  rewrite ymd2ord_shift.
  assert (ymd2ord y m d = r + 1); [|lia].
  apply Z.eqb_eq, Hc. unfold DI400Y in *. lia.
Qed.

Lemma time_of_day_recomposed rest :
  let secs := rest / US_PER_SECOND in
  ((secs / 3600 * 60 + secs mod 3600 / 60) * 60 + secs mod 60) * US_PER_SECOND
  + rest mod US_PER_SECOND = rest.
Proof.
  unfold US_PER_SECOND. cbv zeta. Z.div_mod_to_equations. lia.
Qed.

Lemma astimezone_utc_instant dt off utc :
  astimezone_utc dt off = Ok utc ->
  wall_microseconds utc = wall_microseconds dt - off /\ tzinfo utc = Some 0.
Proof.
  unfold astimezone_utc.
  set (us := wall_microseconds dt - off).
  destruct (_ && _); [|done].
  pose proof (ymd2ord_ord2ymd (us / US_PER_DAY)) as Hord.
  destruct (ord2ymd (us / US_PER_DAY)) as [[y m] d].
  intros [= <-]. split; [|done].
  unfold wall_microseconds at 1. cbn [year month day hour minute second microsecond].
  pose proof (time_of_day_recomposed (us mod US_PER_DAY)) as Htod.
  pose proof (Z.div_mod us US_PER_DAY ltac:(done)) as Hdm.
  cbv zeta in Htod. rewrite Hord. lia.
Qed.

Lemma normalize_naive dt :
  tzinfo dt = None -> normalize_utc dt = Ok (replace_tzinfo_utc dt).
Proof. unfold normalize_utc. by intros ->. Qed.

(** ** The orchestrator *)

Lemma select_elements_inv env bucket idx_key targets w r w' :
  select_elements env bucket idx_key targets w = (r, w') ->
  w' = record_event (EvGetObject (index_request bucket idx_key)) w
  /\ forall selected,
       r = Ok selected ->
       exists body text records,
         answered env (index_request bucket idx_key) body
         /\ decode_utf8 body = Ok text
         /\ GribIdx._parse_idx_content (platform env) text = Ok records
         /\ GribIdx.find_elements {| GribIdx.elements := records |} targets
            = Ok selected.
Proof.
  unfold select_elements, bind, get_object, lift. fold (index_request bucket idx_key).
  destruct (s3_get_object env w _) as [body|] eqn:Eb; [|intros H; by inv_pair H].
  destruct (decode_utf8 body) as [text|] eqn:Et; [|intros H; by inv_pair H].
  unfold GribIdx.__init__.
  destruct (GribIdx._parse_idx_content _ text) as [records|] eqn:Ep; cbn [rbind];
    [|intros H; by inv_pair H].
  intros H. inv_pair H. split; [done|]. intros selected Hs.
  exists body, text, records. repeat split; try done. by exists w.
Qed.

Lemma save_and_report_cases env result0 path t0 data total w r w' :
  save_and_report env result0 path t0 data total w = (r, w') ->
  (exists e, r = Raise e
             /\ w' = record_event (EvMakedirs (dirname path)) w
             /\ (dirname path = [] -> e = FileNotFoundError []))
  \/ (dirname path <> []
      /\ exists e, r = Raise e
                   /\ w' = record_event (EvOpen path)
                             (record_event (EvMakedirs (dirname path)) w))
  \/ (dirname path <> []
      /\ exists n, saved_prefix path data n w w'
                   /\ match r with
                      | Raise _ => True
                      | Ok out =>
                          take n data = data
                          /\ exists size elapsed speed,
                               megabytes total = Ok size
                               /\ avg_speed_mbps total elapsed = Ok speed
                               /\ out = with_success result0 size elapsed speed
                      end).
Proof.
  unfold save_and_report, bind at 1. unfold makedirs.
  destruct (dirname path) as [|c d] eqn:Edir.
  { intros H. inv_pair H. left. eexists. repeat split; done. }
  rewrite <- Edir.
  assert (Hne : dirname path <> []) by (rewrite Edir; done).
  destruct (mkdir_fault env w (dirname path)) as [e|].
  { intros H. inv_pair H. left. eexists. repeat split; done. }
  unfold bind at 1, open_wb.
  destruct (open_fault env _ path) as [e|].
  { intros H. inv_pair H. right. left. split; [done|]. eexists. split; done. }
  unfold bind at 1, write_all.
  destruct (write_fault env _ path data) as [[n e]|].
  { intros H. inv_pair H. right. right. split; [done|]. exists n.
    split; [|done]. split; cbn.
    - by rewrite <- !app_assoc.
    - by rewrite insert_insert_eq. }
  unfold bind, time, lift, ret. cbn [files trace clock_reads record_event set_file].
  assert (Hsaved : forall k,
    saved_prefix path data (length data) w
      {| files := <[path:=data]> (<[path:=[]]> (files w));
         trace := ((trace w ++ [EvMakedirs (dirname path)]) ++ [EvOpen path])
                  ++ [EvWrite path data];
         clock_reads := k |}).
  { intros k. split; cbn.
    - by rewrite <- !app_assoc.
    - by rewrite insert_insert_eq, firstn_all. }
  destruct (avg_speed_mbps total _) as [speed|] eqn:Es.
  2:{ intros H. inv_pair H. right. right. split; [done|]. eexists. split; [apply Hsaved|done]. }
  destruct (megabytes total) as [size|] eqn:Em.
  2:{ intros H. inv_pair H. right. right. split; [done|]. eexists. split; [apply Hsaved|done]. }
  intros H. inv_pair H. right. right. split; [done|]. eexists. split; [apply Hsaved|].
  split; [apply firstn_all|]. do 3 eexists. repeat split; eauto.
Qed.

Lemma try_body_summary env utc fh els path bucket region t0 w r w' :
  try_body env (initial_result (platform env) utc fh els path)
           (strftime_Ymd (platform env) utc) (strftime_H utc)
           fh els path bucket region t0 w = (r, w') ->
  exists p,
    justified env utc fh els path bucket p
    /\ files w' = files_of path p (files w)
    /\ trace w' = trace w ++ events_of env utc fh path bucket region p
    /\ r = match raised p with
           | Some e => Raise e
           | None => Ok (outcome_of env utc fh els path p)
           end.
Proof.
  unfold try_body. unfold bind at 1. unfold new_client.
  fold (the_grib_key env utc fh).
  fold (the_index_request env utc fh bucket).
  destruct (boto3_client env w region) as [e|].
  { intros H. inv_pair H. by exists (ClientFailed e). }
  unfold bind at 1.
  destruct (select_elements env bucket _ els _) as [[selected|e] w2] eqn:Es;
    apply select_elements_inv in Es as [-> Hsel];
    fold (the_index_request env utc fh bucket) in *.
  2:{ intros H. inv_pair H. exists (IndexFailed e).
      cbn [justified files_of events_of raised record_event files trace opening].
      by rewrite <- app_assoc. }
  specialize (Hsel selected eq_refl).
  assert (Hidx : selected_from_index env utc fh els bucket selected) by done.
  clear Hsel.
  destruct selected as [|elem rest].
  { intros H. unfold ret in H. inv_pair H. exists NothingSelected.
    cbn [justified files_of events_of raised record_event files trace opening].
    by rewrite <- app_assoc. }
  assert (Hne : elem :: rest <> []) by done.
  revert Hidx Hne. generalize (elem :: rest). clear elem rest. intros selected Hidx Hne.
  unfold bind at 1.
  destruct (fetch_loop env bucket _ selected [] 0 _) as [[[data total]|e] w3] eqn:Ef;
    apply fetch_loop_inv in Ef as (Hf & k & Hk & Ht & Hr);
    cbn [record_event files trace] in Hf, Ht;
    rewrite <- app_assoc in Ht; cbn [app] in Ht;
    fold (range_reads env utc fh bucket (take k selected)) in Ht;
    fold (opening env utc fh bucket region) in Ht.
  2:{ intros H. inv_pair H. exists (FetchFailed selected k e).
      cbn [justified files_of events_of raised].
      by rewrite Ht, <- app_assoc. }
  destruct Hr as (-> & chunks & Hall & -> & ->). cbn [fst snd app].
  assert (Hfetched : fetched env utc fh els bucket selected chunks) by done.
  rewrite firstn_all in Ht. rewrite Z.add_0_l.
  intros H. apply save_and_report_cases in H
    as [(e & -> & -> & He)|[(Hd & e & -> & ->)|(Hd & n & [Hst Hsf] & Hr)]].
  - exists (MakedirsFailed selected chunks e).
    cbn [justified files_of events_of raised record_event files trace].
    by rewrite Ht, <- !app_assoc.
  - exists (OpenFailed selected chunks e).
    cbn [justified files_of events_of raised record_event files trace].
    by rewrite Ht, <- !app_assoc.
  - destruct r as [out|e].
    + destruct Hr as (Hn & size & elapsed & speed & Hsize & Hspeed & ->).
      exists (Completed selected chunks size elapsed speed).
      cbn [justified files_of events_of raised].
      by rewrite Hsf, Hn, Hf, Hst, Ht, <- !app_assoc.
    + exists (AfterOpenFailed selected chunks n e).
      cbn [justified files_of events_of raised].
      by rewrite Hsf, Hf, Hst, Ht, <- !app_assoc.
Qed.

Lemma download_raises env dt fh els path bucket region w e :
  normalize_utc dt = Raise e ->
  download_gfs_data env dt fh els path bucket region w = (Raise e, after_clock w).
Proof.
  intros Hn. unfold download_gfs_data, bind, time, lift. by rewrite Hn.
Qed.

Lemma download_summary env dt fh els path bucket region w r w' utc :
  normalize_utc dt = Ok utc ->
  download_gfs_data env dt fh els path bucket region w = (r, w') ->
  exists p,
    justified env utc fh els path bucket p
    /\ files w' = files_of path p (files w)
    /\ trace w' = trace w ++ events_of env utc fh path bucket region p
    /\ r = Ok (outcome_of env utc fh els path p).
Proof.
  intros Hn. unfold download_gfs_data, bind, time, lift. rewrite Hn.
  unfold try_except.
  fold (initial_result (platform env) utc fh els path).
  destruct (try_body _ _ _ _ _ _ _ _ _ _ _) as [rb wb] eqn:Eb.
  apply try_body_summary in Eb as (p & Hj & Hf & Ht & ->).
  intros Hrun. exists p.
  destruct p; cbn [raised] in Hrun; unfold ret in Hrun; inv_pair Hrun; done.
Qed.

Lemma range_reads_are_reads env utc fh bucket selected ev :
  In ev (range_reads env utc fh bucket selected) ->
  exists elem,
    In elem selected
    /\ ev = EvGetObject (element_request bucket (the_grib_key env utc fh) elem).
Proof.
  unfold range_reads. rewrite in_map_iff. intros (elem & <- & Hin). eauto.
Qed.

Lemma run_exists env dt fh els path bucket region w :
  exists r w', download_gfs_data env dt fh els path bucket region w = (r, w').
Proof. destruct (download_gfs_data _ _ _ _ _ _ _ w) as [r w']. eauto. Qed.

Ltac split_membership H :=
  repeat (rewrite in_app_iff in H || cbn [In] in H);
  repeat match type of H with
         | _ \/ _ => destruct H as [H|H]
         end.

Lemma events_of_requests env utc fh path bucket region p request :
  In (EvGetObject request) (events_of env utc fh path bucket region p) ->
  request = the_index_request env utc fh bucket
  \/ exists elem,
       request = element_request bucket (the_grib_key env utc fh) elem.
Proof.
  intros H.
  assert (Hreads : forall selected,
             In (EvGetObject request) (range_reads env utc fh bucket selected) ->
             exists elem,
               request = element_request bucket (the_grib_key env utc fh) elem).
  { intros selected Hin.
    apply range_reads_are_reads in Hin as (elem & _ & [= ->]). eauto. }
  destruct p; cbn [events_of] in H; unfold opening in H;
    split_membership H;
    try discriminate; try (injection H as <-; by left);
    try (right; eapply Hreads; eassumption); try done.
Qed.

Lemma events_of_write env utc fh els path bucket region p path' data :
  In (EvWrite path' data) (events_of env utc fh path bucket region p) ->
  path' = path
  /\ exists selected chunks n,
       data = concat chunks
       /\ events_of env utc fh path bucket region p
          = opening env utc fh bucket region
            ++ range_reads env utc fh bucket selected
            ++ [EvMakedirs (dirname path); EvOpen path; EvWrite path data]
       /\ (forall before, files_of path p before = <[path := take n data]> before)
       /\ (justified env utc fh els path bucket p ->
           fetched env utc fh els bucket selected chunks).
Proof.
  intros H.
  assert (Hreads : forall selected,
             ~ In (EvWrite path' data) (range_reads env utc fh bucket selected)).
  { intros selected Hin.
    by apply range_reads_are_reads in Hin as (elem & _ & ?). }
  destruct p; cbn [events_of] in H; unfold opening in H;
    split_membership H;
    try discriminate; try done; try (by apply Hreads in H).
  - injection H as <- <-. split; [done|].
    exists selected, chunks, written. cbn [events_of files_of justified].
    split; [done|]. split; [done|]. split; [done|]. by intros [? _].
  - injection H as <- <-. split; [done|].
    exists selected, chunks, (length (concat chunks)).
    cbn [events_of files_of justified]. rewrite firstn_all.
    split; [done|]. split; [done|]. split; [done|]. by intros [? _].
Qed.

Lemma files_of_without_write env utc fh path bucket region p before :
  (forall path' data,
      ~ In (EvWrite path' data) (events_of env utc fh path bucket region p)) ->
  files_of path p before = before.
Proof.
  intros Hno. destruct p; try done; exfalso;
    eapply Hno; cbn [events_of]; rewrite !in_app_iff; right; right;
    cbn [In]; eauto.
Qed.

(** C2 as stated fails: on a full disk every read succeeds, the
    destination is opened, which empties it, and the write fails; the
    outcome is a failure and the file that was there has lost its
    content. *)
Lemma failed_write_truncates_destination :
  let run := download_gfs_data full_disk_env naive_midnight (py "000")
               wind_then_temperature output_path DEFAULT_BUCKET DEFAULT_REGION
               world_with_output in
  files world_with_output !! output_path = Some [x47; x52; x49; x42]%byte
  /\ (exists out, fst run = Ok out /\ success out = false)
  /\ files (snd run) !! output_path = Some [].
Proof.
  split; [vm_compute; reflexivity|]. split.
  - eexists. split; vm_compute; reflexivity.
  - vm_compute. reflexivity.
Qed.

Lemma outcome_of_echoes env utc fh els path p :
  let out := outcome_of env utc fh els path p in
  date out = strftime_Ymd (platform env) utc
  /\ cycle out = strftime_H utc
  /\ forecast_hour out = fh
  /\ elements out = els
  /\ file_format out = py "grib2"
  /\ file_path out = Some path
  /\ (success out = false -> exists msg, error_message out = Some msg)
  /\ (success out = true -> error_message out = None).
Proof.
  destruct p; cbn; repeat split; try done; eauto.
Qed.

Lemma astimezone_utc_in_range dt off :
  (utc_in_range dt off -> exists utc, astimezone_utc dt off = Ok utc)
  /\ (~ utc_in_range dt off -> astimezone_utc dt off = Raise OverflowError).
Proof.
  unfold utc_in_range, astimezone_utc.
  set (us := wall_microseconds dt - off).
  pose proof (Z.div_mod us US_PER_DAY ltac:(done)) as Hdm.
  pose proof (Z.mod_pos_bound us US_PER_DAY ltac:(done)) as Hr.
  set (days := us / US_PER_DAY) in *. set (rest := us mod US_PER_DAY) in *.
  unfold US_PER_DAY, US_PER_SECOND, MAXORDINAL in *.
  destruct (Z.ltb_spec 0 days) as [Hlo|Hlo];
    destruct (Z.leb_spec days 3652059) as [Hhi|Hhi];
    cbn [andb].
  - split; [|intros Hout; exfalso; apply Hout; lia].
    intros _. destruct (ord2ymd days) as [[y m] d]. eauto.
  - split; [|done]. intros Hin. lia.
  - split; [|done]. intros Hin. lia.
  - split; [|done]. intros Hin. lia.
Qed.

(** C3 as stated fails: [last_half_hour] is a [datetime] the constructor
    accepts, its UTC time lies in the year 10000, and the conversion,
    which stands before the [try], raises [OverflowError] to the
    caller. *)
Lemma overflowing_timestamp_raises :
  valid_datetime last_half_hour
  /\ fst (download_gfs_data quiet_env last_half_hour (py "000")
            wind_then_temperature output_path DEFAULT_BUCKET DEFAULT_REGION
            empty_world)
     = Raise OverflowError.
Proof.
  split; [|vm_compute; reflexivity].
  unfold valid_datetime, last_half_hour. cbn. unfold US_PER_DAY, US_PER_SECOND.
  repeat split; try lia; vm_compute; congruence.
Qed.

Lemma sum_of_sized_chunks selected chunks :
  Forall2 (fun elem (chunk : pybytes) =>
             Z.of_nat (length chunk) = end_byte elem - start_byte elem)
          selected chunks ->
  Z.of_nat (length (concat chunks)) = sum_ranges selected.
Proof.
  unfold sum_ranges.
  induction 1 as [|elem chunk selected chunks Hsize _ IH]; [done|].
  cbn [concat List.map fold_right]. rewrite length_app. lia.
Qed.

(** C6.  A successful run leaves at the destination the concatenation,
    in match order, of the chunks the store returned for the matched
    records, and reports the length of that buffer, in megabytes, as the
    size; if every chunk has as many bytes as its record's range asks
    for, that length is the sum of [end_byte - start_byte] over the
    matched records. *)
Theorem successful_run_writes_concatenation
        env dt fh els path bucket region w out w' :
  download_gfs_data env dt fh els path bucket region w = (Ok out, w') ->
  success out = true ->
  exists utc selected chunks,
    normalize_utc dt = Ok utc
    /\ fetched env utc fh els bucket selected chunks
    /\ files w' !! path = Some (concat chunks)
    /\ file_size_mb out
       = Some (inject_Z (Z.of_nat (length (concat chunks)))
               / inject_Z 1024 / inject_Z 1024)%Q
    /\ (Forall2 (fun elem (chunk : pybytes) =>
                   Z.of_nat (length chunk) = end_byte elem - start_byte elem)
                selected chunks ->
        Z.of_nat (length (concat chunks)) = sum_ranges selected
        /\ file_size_mb out
           = Some (inject_Z (sum_ranges selected)
                   / inject_Z 1024 / inject_Z 1024)%Q).
Proof.
  intros Hrun Hok. destruct (normalize_utc dt) as [utc|e] eqn:Hn.
  2:{ by rewrite (download_raises _ _ _ _ _ _ _ _ e Hn) in Hrun. }
  destruct (download_summary _ _ _ _ _ _ _ _ _ _ _ Hn Hrun)
    as (p & Hj & Hf & _ & [= ->]).
  destruct p; try discriminate Hok.
  cbn [justified files_of outcome_of] in *.
  destruct Hj as (Hfetched & _ & Hsize & _).
  assert (Hmb : file_size_mb
                  (with_success (initial_result (platform env) utc fh els path)
                                size elapsed speed)
                = Some (inject_Z (Z.of_nat (length (concat chunks)))
                        / inject_Z 1024 / inject_Z 1024)%Q).
  { destruct (megabytes_cases (Z.of_nat (length (concat chunks)))) as [Hm|Hm];
      rewrite Hm in Hsize; [|done]. by injection Hsize as <-. }
  exists utc, selected, chunks.
  split; [done|]. split; [done|].
  split; [by rewrite Hf, lookup_insert_eq|]. split; [exact Hmb|].
  intros Hsized. apply sum_of_sized_chunks in Hsized.
  split; [done|]. by rewrite <- Hsized.
Qed.

(** A run without faults: the file holds the wind chunk, then the
    temperature chunk, five bytes for ranges of two and three. *)
Lemma successful_run_writes_concatenation_witness :
  exists w',
    files w' !! output_path = Some [x04; x05; x01; x02; x03]%byte
    /\ exists selected,
         List.map byte_range selected = [(3, 5); (0, 3)]
         /\ Z.of_nat (length [x04; x05; x01; x02; x03]%byte)
            = sum_ranges selected.
Proof.
  destruct (download_gfs_data quiet_env shanghai_morning (py "000")
              wind_then_temperature output_path DEFAULT_BUCKET DEFAULT_REGION
              empty_world) as [r w'] eqn:Hrun.
  assert (Hr : exists out, r = Ok out /\ success out = true).
  { vm_compute in Hrun. injection Hrun as <- _. eexists. split; reflexivity. }
  destruct Hr as (out & -> & Hok).
  destruct (successful_run_writes_concatenation _ _ _ _ _ _ _ _ _ _ Hrun Hok)
    as (utc & selected & chunks & Hn & Hfetched & Hfile & _ & Hsum).
  exists w'.
  assert (Hw : files w' !! output_path = Some [x04; x05; x01; x02; x03]%byte).
  { vm_compute in Hrun. injection Hrun as _ <-. vm_compute. reflexivity. }
  split; [exact Hw|].
  rewrite Hw in Hfile. injection Hfile as Hdata.
  destruct Hfetched as ((body & text & records & [wi Hbody] & Htext & Hparse & Hfind)
                        & _ & Hchunks).
  assert (Hsel : List.map byte_range selected = [(3, 5); (0, 3)]).
  { cbn in Hbody. injection Hbody as <-.
    vm_compute in Htext. injection Htext as <-.
    vm_compute in Hparse. injection Hparse as <-.
    vm_compute in Hfind. injection Hfind as <-. reflexivity. }
  exists selected. split; [exact Hsel|].
  rewrite Hdata. apply Hsum.
  destruct selected as [|[v1 l1 s1 d1] [|[v2 l2 s2 d2] [|? ?]]];
    try discriminate Hsel.
  cbn in Hsel. injection Hsel as -> -> -> ->.
  inversion Hchunks as [|? c1 ? ? [w1 H1] Hrest]; subst.
  inversion Hrest as [|? c2 ? ? [w2 H2] Hnil]; subst.
  inversion Hnil; subst.
  cbv [quiet_env s3_get_object small_store element_request range_request
       Range start_byte end_byte] in H1, H2.
  vm_compute in H1. vm_compute in H2.
  injection H1 as <-. injection H2 as <-.
  repeat constructor; cbn; lia.
Defined.




Lemma makedirs_empty env w :
  makedirs env [] w = (Raise (FileNotFoundError []), record_event (EvMakedirs []) w).
Proof. reflexivity. Qed.

Lemma justified_empty_dirname env utc fh els path bucket p :
  dirname path = [] ->
  justified env utc fh els path bucket p ->
  match p with
  | OpenFailed _ _ _ | AfterOpenFailed _ _ _ _ | Completed _ _ _ _ _ => False
  | MakedirsFailed _ _ e => e = FileNotFoundError []
  | _ => True
  end.
Proof.
  intros Hdir. destruct p; cbn [justified]; try done.
  - intros [_ He]. by apply He.
  - intros [_ Hne]. by apply Hne.
  - intros [_ Hne]. by apply Hne.
  - intros (_ & Hne & _). by apply Hne.
Qed.

(** C10.  When the directory part of the destination path is empty,
    saving raises [FileNotFoundError] as soon as the directory is asked
    for, whatever was fetched; so for a timestamp that can be brought to
    UTC the run returns a failure, opens and writes no file and leaves
    every file as it was, and if all went well up to the saving the
    message is that of the [FileNotFoundError]. *)
Theorem empty_dirname_fails env dt fh els path bucket region w utc :
  dirname path = [] ->
  normalize_utc dt = Ok utc ->
  (forall result t0 data total w2,
      save_and_report env result path t0 data total w2
      = (Raise (FileNotFoundError []), record_event (EvMakedirs []) w2))
  /\ exists out w' evs,
       download_gfs_data env dt fh els path bucket region w = (Ok out, w')
       /\ success out = false
       /\ files w' = files w
       /\ trace w' = trace w ++ evs
       /\ (forall path', ~ In (EvOpen path') evs)
       /\ (forall path' data, ~ In (EvWrite path' data) evs)
       /\ (In (EvMakedirs []) evs ->
           error_message out
           = Some (ErrorDownloading (FileNotFoundError []))).
Proof.
  intros Hdir Hn. split.
  { intros result t0 data total w2.
    unfold save_and_report, bind. by rewrite Hdir, makedirs_empty. }
  destruct (run_exists env dt fh els path bucket region w) as (r & w' & Hrun).
  destruct (download_summary _ _ _ _ _ _ _ _ _ _ _ Hn Hrun)
    as (p & Hj & Hf & Ht & ->).
  exists (outcome_of env utc fh els path p), w',
         (events_of env utc fh path bucket region p).
  split; [exact Hrun|].
  assert (Hreads : forall selected ev,
             In ev (range_reads env utc fh bucket selected) ->
             exists request, ev = EvGetObject request).
  { intros selected ev Hin.
    apply range_reads_are_reads in Hin as (elem & _ & ->). eauto. }
  pose proof (justified_empty_dirname _ _ _ _ _ _ _ Hdir Hj) as Hmsg.
  destruct p; try done.
  all: cbn [events_of] in *; unfold opening in *.
  all: split; [reflexivity|].
  all: split; [exact Hf|].
  all: split; [exact Ht|].
  all: split;
    [intros path' H; split_membership H; try done;
     apply Hreads in H as [? ?]; done|].
  all: split;
    [intros path' data H; split_membership H; try done;
     apply Hreads in H as [? ?]; done|].
  all: intros H; split_membership H; try done;
    try (apply Hreads in H as [? ?]; done).
  cbn. by rewrite Hmsg.
Qed.

(** The path of the docstring's example has no directory part. *)
Lemma no_slash_no_dirname : dirname (py "gfs_data.grib2") = [].
Proof. vm_compute. reflexivity. Qed.

(** With that path a run without faults fails at [os.makedirs]. *)
Lemma empty_dirname_fails_witness :
  exists out w',
    download_gfs_data quiet_env naive_midnight (py "000")
      wind_then_temperature (py "gfs_data.grib2") DEFAULT_BUCKET
      DEFAULT_REGION empty_world = (Ok out, w')
    /\ success out = false
    /\ files w' = ∅
    /\ error_message out = Some (ErrorDownloading (FileNotFoundError [])).
Proof.
  destruct (empty_dirname_fails quiet_env naive_midnight (py "000")
              wind_then_temperature (py "gfs_data.grib2") DEFAULT_BUCKET
              DEFAULT_REGION empty_world (replace_tzinfo_utc naive_midnight)
              no_slash_no_dirname eq_refl)
    as (_ & out & w' & evs & Hrun & Hfail & Hfiles & Ht & _ & _ & Hmsg).
  exists out, w'. split; [exact Hrun|]. split; [exact Hfail|].
  split; [exact Hfiles|]. apply Hmsg.
  vm_compute in Hrun. injection Hrun as _ <-.
  cbn [trace empty_world app] in Ht. subst evs.
  cbn [trace In]. do 4 right. left. reflexivity.
Defined.

(** * Further properties *)

(** ** Further properties of the index parser *)

Lemma lstrip_spaces pre s :
  Forall (fun c => Py_UNICODE_ISSPACE c = true) pre -> lstrip (pre ++ s) = lstrip s.
Proof.
  induction 1 as [|c pre Hc _ IH]; [done|]. cbn. by rewrite Hc.
Qed.

Lemma lstrip_app_spaces s post :
  Forall (fun c => Py_UNICODE_ISSPACE c = true) post ->
  lstrip (s ++ post) = match lstrip s with
                       | [] => []
                       | c :: r => (c :: r) ++ post
                       end.
Proof.
  intros Hpost. induction s as [|c s IH]; cbn.
  - rewrite <- (app_nil_r post), lstrip_spaces by done. done.
  - destruct (Py_UNICODE_ISSPACE c); [exact IH|done].
Qed.

Lemma rstrip_app_spaces s post :
  Forall (fun c => Py_UNICODE_ISSPACE c = true) post -> rstrip (s ++ post) = rstrip s.
Proof.
  intros Hpost. unfold rstrip. rewrite rev_app_distr.
  rewrite lstrip_spaces; [done|]. by apply Forall_rev.
Qed.

Lemma strip_outer_whitespace a b :
  differ_by_outer_whitespace a b -> strip a = strip b.
Proof.
  intros (pre & post & Hpre & Hpost & ->). unfold strip.
  rewrite lstrip_spaces by done. rewrite lstrip_app_spaces by done.
  destruct (lstrip b) as [|c r] eqn:E; [done|].
  by rewrite rstrip_app_spaces.
Qed.

Lemma parse_line_congr pf lines1 lines2 i a b :
  fields a = fields b ->
  List.map fields lines1 = List.map fields lines2 ->
  GribIdx.parse_line pf lines1 i a = GribIdx.parse_line pf lines2 i b.
Proof.
  intros Hab Hlines. rewrite !parse_line_fields, !next_offset_fields.
  assert (Hnext : fields <$> lines1 !! S i = fields <$> lines2 !! S i).
  { rewrite <- !list_lookup_fmap. unfold fmap, list_fmap.
    change (List.map fields lines1 !! S i = List.map fields lines2 !! S i).
    by rewrite Hlines. }
  unfold record_of. rewrite Hab.
  destruct (lines1 !! S i) as [n1|], (lines2 !! S i) as [n2|];
    cbn in Hnext; try done.
  injection Hnext as ->. done.
Qed.

Lemma parse_loop_congr pf lines1 lines2 :
  List.map fields lines1 = List.map fields lines2 ->
  forall todo1 todo2 i acc,
    List.map fields todo1 = List.map fields todo2 ->
    GribIdx.parse_loop pf lines1 i todo1 acc
    = GribIdx.parse_loop pf lines2 i todo2 acc.
Proof.
  intros Hlines. induction todo1 as [|a todo1 IH]; intros [|b todo2] i acc Htodo;
    try done.
  injection Htodo as Hab Hrest. cbn [GribIdx.parse_loop].
  rewrite (parse_line_congr pf lines1 lines2 i a b Hab Hlines).
  destruct (GribIdx.parse_line pf lines2 i b); cbn [rbind]; [|done].
  by apply IH.
Qed.

Lemma fields_outer_whitespace l1 l2 :
  Forall2 differ_by_outer_whitespace l1 l2 ->
  List.map fields l1 = List.map fields l2.
Proof.
  induction 1 as [|a b l1 l2 Hab _ IH]; [done|].
  cbn [List.map]. rewrite IH. unfold fields.
  by rewrite (strip_outer_whitespace a b Hab).
Qed.

Lemma parse_same_fields pf text1 text2 :
  List.map fields (split NEWLINE text1) = List.map fields (split NEWLINE text2) ->
  GribIdx._parse_idx_content pf text1 = GribIdx._parse_idx_content pf text2.
Proof. intros Hfields. by apply parse_loop_congr. Qed.

(** X1.  Whitespace around a line of the index plays no part: two texts
    whose lines differ, one by one, only by whitespace put before and
    after them parse to the same records, or raise the same exception. *)
Theorem parse_ignores_outer_whitespace pf text1 text2 :
  Forall2 differ_by_outer_whitespace (split NEWLINE text1) (split NEWLINE text2) ->
  GribIdx._parse_idx_content pf text1 = GribIdx._parse_idx_content pf text2.
Proof.
  intros Hlines. by apply parse_same_fields, fields_outer_whitespace.
Qed.

(** The indented index parses as the plain one. *)
Lemma parse_ignores_outer_whitespace_witness :
  GribIdx._parse_idx_content example_platform indented_entries
  = GribIdx._parse_idx_content example_platform four_entries.
Proof.
  apply parse_ignores_outer_whitespace.
  set (l1 := split NEWLINE indented_entries). vm_compute in l1. subst l1.
  set (l2 := split NEWLINE four_entries). vm_compute in l2. subst l2.
  repeat (constructor;
          [exists [32%N; 32%N], [32%N];
           split; [repeat constructor|split; [repeat constructor|reflexivity]]|]).
  constructor.
Defined.

Lemma split_with_carriage_returns text :
  Forall2 (fun a b => a = b \/ a = b ++ [13%N])
          (split NEWLINE (with_carriage_returns text)) (split NEWLINE text).
Proof.
  induction text as [|c text IH]; cbn.
  - repeat constructor.
  - destruct (N.eqb_spec c NEWLINE) as [->|Hc]; cbn.
    + constructor; [by right|exact IH].
    + destruct (N.eqb_spec c NEWLINE) as [|_]; [done|].
      fold (with_carriage_returns text).
      destruct IH as [|a b l1 l2 Hab Hrest]; [repeat constructor|].
      constructor; [|done].
      destruct Hab as [->| ->]; [by left|by right].
Qed.

(** X2.  An index with CRLF line ends parses as the same index with LF
    line ends: the carriage return left at the end of each line by
    [split] is whitespace, and [strip] removes it. *)
Theorem parse_ignores_carriage_returns pf text :
  GribIdx._parse_idx_content pf (with_carriage_returns text)
  = GribIdx._parse_idx_content pf text.
Proof.
  apply parse_same_fields, fields_outer_whitespace.
  eapply Forall2_impl; [apply split_with_carriage_returns|].
  intros a b [->| ->].
  - exists [], []. rewrite app_nil_r. by repeat split.
  - exists [], [13%N]. repeat split; [done|by repeat constructor].
Qed.

Lemma split_nonempty sep s : split sep s <> [].
Proof.
  destruct s as [|c s]; cbn; [done|].
  destruct (c =? sep)%N; [done|]. by destruct (split sep s).
Qed.

Lemma split_trailing_separator sep s :
  split sep (s ++ [sep]) = split sep s ++ [[]].
Proof.
  induction s as [|c s IH]; cbn.
  - by rewrite N.eqb_refl.
  - rewrite IH. destruct (c =? sep)%N; [done|].
    pose proof (split_nonempty sep s). by destruct (split sep s).
Qed.

Lemma parse_line_blank_appended pf (lines : list pystr) i line :
  GribIdx.parse_line pf (lines ++ [[]]) i line = GribIdx.parse_line pf lines i line.
Proof.
  rewrite !parse_line_fields, !next_offset_fields.
  destruct (lt_eq_lt_dec (S i) (length lines)) as [[Hlt|Heq]|Hgt].
  - by rewrite lookup_app_l.
  - rewrite lookup_app_r by lia.
    replace (S i - length lines)%nat with 0%nat by lia.
    by rewrite (lookup_ge_None_2 lines (S i)) by lia.
  - rewrite (lookup_ge_None_2 lines (S i)) by lia.
    rewrite (lookup_ge_None_2 (lines ++ [[]]) (S i)); [done|].
    rewrite length_app; simpl; lia.
Qed.

Lemma parse_loop_blank_appended pf (lines : list pystr) :
  forall todo i acc,
    GribIdx.parse_loop pf (lines ++ [[]]) i (todo ++ [[]]) acc
    = GribIdx.parse_loop pf lines i todo acc.
Proof.
  induction todo as [|line todo IH]; intros i acc; cbn [app GribIdx.parse_loop].
  - rewrite parse_line_short; [done|]. vm_compute. lia.
  - rewrite parse_line_blank_appended.
    destruct (GribIdx.parse_line pf lines i line); cbn [rbind]; [apply IH|done].
Qed.

(** X3.  A newline at the end of the index changes nothing: the blank
    last line that [split] then yields is skipped, and the line before
    it, which now has a line after it, still closes no record, as that
    line has fewer than two fields. *)
Theorem parse_ignores_trailing_newline pf text :
  GribIdx._parse_idx_content pf (text ++ [NEWLINE])
  = GribIdx._parse_idx_content pf text.
Proof.
  unfold GribIdx._parse_idx_content. rewrite split_trailing_separator.
  apply parse_loop_blank_appended.
Qed.

Lemma parse_line_record pf (lines : list pystr) i line r :
  lines !! i = Some line ->
  GribIdx.parse_line pf lines i line = Ok r ->
  match r with
  | Some elem => closes lines i = true /\ record_at pf lines i elem
  | None => closes lines i = false
  end.
Proof.
  intros Hi. rewrite parse_line_fields, next_offset_fields. unfold closes.
  rewrite Hi.
  destruct (6 <=? length (fields line))%nat eqn:H6.
  2:{ intros [= <-]. by destruct (lines !! S i). }
  destruct (py_int pf (item (fields line) 1)) as [start|] eqn:Hs; cbn [rbind];
    [|done].
  destruct (lines !! S i) as [next|] eqn:Hn.
  2:{ by intros [= <-]. }
  destruct (2 <=? length (fields next))%nat eqn:H2.
  2:{ by intros [= <-]. }
  destruct (py_int pf (item (fields next) 1)) as [e|] eqn:He; cbn [rbind];
    [|done].
  intros [= <-]. split; [done|]. exists line, next. by repeat split.
Qed.

Lemma parse_loop_records pf (lines : list pystr) :
  forall todo pre acc out,
    lines = pre ++ todo ->
    GribIdx.parse_loop pf lines (length pre) todo acc = Ok out ->
    exists recs,
      out = acc ++ recs
      /\ Forall2 (record_at pf lines)
                 (List.filter (closes lines) (seq (length pre) (length todo)))
                 recs.
Proof.
  induction todo as [|line todo IH]; intros pre acc out Hl.
  - cbn. intros [= <-]. exists []. by rewrite app_nil_r.
  - assert (Hline : lines !! length pre = Some line).
    { rewrite Hl, lookup_app_r, Nat.sub_diag by lia. done. }
    assert (Hl' : lines = (pre ++ [line]) ++ todo) by (by rewrite <- app_assoc).
    assert (Hlen : S (length pre) = length (pre ++ [line]))
      by (rewrite length_app; simpl; lia).
    cbn [GribIdx.parse_loop length seq List.filter].
    destruct (GribIdx.parse_line pf lines (length pre) line) as [r|] eqn:Hr;
      cbn [rbind]; [|done].
    apply parse_line_record in Hr; [|done].
    rewrite Hlen. intros Hrest.
    apply (IH _ _ _ Hl') in Hrest as (recs & -> & Hall).
    rewrite <- Hlen in *.
    destruct r as [elem|].
    + destruct Hr as [-> Hat]. exists (elem :: recs).
      split; [by rewrite <- app_assoc|]. by constructor.
    + rewrite Hr. by exists recs.
Qed.

Lemma closers_bounded (lines : list pystr) :
  (length (List.filter (closes lines) (seq 0 (length lines)))
   <= length lines - 1)%nat.
Proof.
  destruct (length lines) as [|n] eqn:Hn; [done|].
  rewrite seq_S, List.filter_app, length_app. cbn [List.filter plus].
  assert (Hlast : closes lines n = false).
  { unfold closes. rewrite (lookup_ge_None_2 lines (S n)) by lia.
    by destruct (lines !! n). }
  rewrite Hlast. cbn [length].
  pose proof (List.filter_length_le (closes lines) (seq 0 n)) as Hle.
  rewrite length_seq in Hle. lia.
Qed.

(** X4.  Whenever the parser returns, its records are, in order, those
    of the lines that have six fields or more and are followed by a line
    of two fields or more, one record for each such line and no other:
    the variable and level are the fourth and fifth fields of the line,
    the start its second field, the end the second field of the line
    after it.  There are fewer records than lines. *)
Theorem parse_records_come_from_adjacent_lines pf text records :
  GribIdx._parse_idx_content pf text = Ok records ->
  let lines := split NEWLINE text in
  Forall2 (record_at pf lines)
          (List.filter (closes lines) (seq 0 (length lines))) records
  /\ (length records <= length lines - 1)%nat.
Proof.
  intros Hparse lines. unfold GribIdx._parse_idx_content in Hparse. fold lines in Hparse.
  apply (parse_loop_records pf lines lines [] [] records eq_refl) in Hparse
    as (recs & -> & Hall).
  cbn [app length] in *. split; [exact Hall|].
  apply Forall2_length in Hall. rewrite <- Hall. apply closers_bounded.
Qed.

(** The records of [four_entries] are those of its first three lines. *)
Lemma parse_records_come_from_adjacent_lines_witness :
  exists records,
    GribIdx._parse_idx_content example_platform four_entries = Ok records
    /\ Forall2 (record_at example_platform (split NEWLINE four_entries))
               [0; 1; 2]%nat records
    /\ (length records <= 3)%nat.
Proof.
  destruct (GribIdx._parse_idx_content example_platform four_entries)
    as [records|] eqn:Hparse; [|vm_compute in Hparse; discriminate].
  exists records. split; [reflexivity|].
  exact (parse_records_come_from_adjacent_lines
           example_platform four_entries records Hparse).
Defined.

Lemma ranges_of_records :
  forall (lines : list pystr) offs,
    length lines = length offs ->
    List.map byte_range (zip_with record_of lines (zip offs (tail offs)))
    = zip offs (tail offs).
Proof.
  intros lines offs Hlen.
  assert (Hz : (length (zip offs (tail offs)) <= length lines)%nat).
  { rewrite length_zip_with, length_tl. lia. }
  revert Hz. generalize (zip offs (tail offs)). clear.
  induction lines as [|l ls IH]; intros [|[a b] rs] Hz; simpl in *; try done; try lia.
  f_equal. apply IH. lia.
Qed.

Lemma adjacent_offsets_lookup (offs : list Z) k a b :
  zip offs (tail offs) !! k = Some (a, b) <->
  offs !! k = Some a /\ offs !! S k = Some b.
Proof.
  rewrite <- (lookup_tail offs k). split.
  - intros H. apply lookup_zip_with_Some in H as (x & y & [= -> ->] & Hx & Hy).
    done.
  - intros [Hx Hy]. apply lookup_zip_with_Some. by exists a, b.
Qed.

Lemma adjacent_offsets_sum (offs : list Z) :
  fold_right Z.add 0 (List.map (fun p => snd p - fst p) (zip offs (tail offs)))
  = List.last offs 0 - hd 0 offs.
Proof.
  destruct offs as [|a offs]; [done|]. revert a.
  induction offs as [|b offs IH]; intros a; [cbn; lia|].
  specialize (IH b).
  change (b - a + fold_right Z.add 0
                    (List.map (fun p => snd p - fst p)
                              (zip (b :: offs) (tail (b :: offs))))
          = List.last (b :: offs) 0 - a).
  rewrite IH. cbn [hd]. lia.
Qed.

Lemma well_formed_records pf text offsets :
  Forall2 (well_formed_entry pf) (split NEWLINE text) offsets ->
  exists records,
    GribIdx._parse_idx_content pf text = Ok records
    /\ List.map byte_range records = zip offsets (tail offsets)
    /\ forall k r,
         records !! k = Some r ->
         offsets !! k = Some (start_byte r)
         /\ offsets !! S k = Some (end_byte r).
Proof.
  intros Hwf. set (lines := split NEWLINE text) in *.
  pose proof (Forall2_length _ _ _ Hwf) as Hlen.
  pose proof (ranges_of_records lines offsets Hlen) as Hranges.
  set (records := zip_with record_of lines (zip offsets (tail offsets))) in *.
  exists records. split; [|split; [done|]].
  - unfold GribIdx._parse_idx_content.
    apply (parse_loop_consecutive pf lines lines offsets [] []); done.
  - intros k r Hk. apply adjacent_offsets_lookup. rewrite <- Hranges.
    change (List.map byte_range records) with (byte_range <$> records).
    by rewrite list_lookup_fmap, Hk.
Qed.

(** X5.  In an index all of whose lines are well-formed entries the
    ranges of the records lie end to end: each record ends where the next
    starts, the lengths of the ranges add up to the distance from the
    first offset to the last, and where the offsets increase from line to
    line every range has its start before its end. *)
Theorem parsed_ranges_lie_end_to_end pf text offsets :
  Forall2 (well_formed_entry pf) (split NEWLINE text) offsets ->
  exists records,
    GribIdx._parse_idx_content pf text = Ok records
    /\ (forall k r r',
          records !! k = Some r -> records !! S k = Some r' ->
          end_byte r = start_byte r')
    /\ sum_ranges records = List.last offsets 0 - hd 0 offsets
    /\ ((forall k a b, offsets !! k = Some a -> offsets !! S k = Some b -> a < b) ->
        Forall (fun r => start_byte r < end_byte r) records).
Proof.
  intros Hwf.
  destruct (well_formed_records pf text offsets Hwf)
    as (records & Hparse & Hranges & Hat).
  exists records. split; [done|]. split; [|split].
  - intros k r r' Hk Hk'. apply Hat in Hk as [_ He], Hk' as [Hs _]. congruence.
  - rewrite <- adjacent_offsets_sum, <- Hranges, List.map_map. reflexivity.
  - intros Hinc. apply Forall_lookup. intros k r Hk.
    apply Hat in Hk as [Hs He]. exact (Hinc _ _ _ Hs He).
Qed.

(** The three ranges of [four_entries] add up to 1400 - 100. *)
Lemma parsed_ranges_lie_end_to_end_witness :
  exists records,
    GribIdx._parse_idx_content example_platform four_entries = Ok records
    /\ sum_ranges records = 1300
    /\ Forall (fun r => start_byte r < end_byte r) records.
Proof.
  destruct (parsed_ranges_lie_end_to_end example_platform four_entries
              [100; 500; 900; 1400] four_entries_well_formed)
    as (records & Hparse & _ & Hsum & Hpos).
  exists records. split; [exact Hparse|]. split; [exact Hsum|].
  apply Hpos. intros [|[|[|[|k]]]] a b; cbn; intros [= <-] [= <-]; lia.
Defined.

(** ** Further properties of the element matcher *)

Lemma is_match_cases elem target :
  GribIdx.is_match elem target
  = match target !! py "name" with
    | None => Raise (KeyError (py "name"))
    | Some name =>
        if str_eq (variable elem) name then
          match target !! py "level" with
          | None => Raise (KeyError (py "level"))
          | Some _ => Ok (selects target elem)
          end
        else Ok (selects target elem)
    end.
Proof.
  unfold GribIdx.is_match, getitem, selects, str_eq.
  destruct (target !! py "name") as [name|]; cbn [rbind]; [|done].
  case_bool_decide as Hv.
  - destruct (target !! py "level") as [lvl|]; cbn [rbind]; [|done].
    f_equal. repeat case_bool_decide; try done; exfalso;
      match goal with
      | Hno : ~ (_ /\ _) |- _ => apply Hno; split; congruence
      | Hyes : _ /\ _ |- _ => destruct Hyes; congruence
      end.
  - f_equal. symmetry. apply bool_decide_eq_false. intros [Hn _]. congruence.
Qed.

Lemma scan_elements_cases target :
  forall elems acc,
    GribIdx.scan_elements target elems acc
    = match missing_key elems target with
      | Some key => Raise (KeyError key)
      | None => Ok (acc ++ List.filter (selects target) elems)
      end.
Proof.
  induction elems as [|elem elems IH]; intros acc.
  - cbn. by rewrite app_nil_r.
  - cbn [GribIdx.scan_elements missing_key existsb List.filter].
    rewrite is_match_cases.
    destruct (target !! py "name") as [name|] eqn:Hn; cbn [rbind]; [|done].
    destruct (str_eq (variable elem) name) eqn:Hv; cbn [orb].
    + destruct (target !! py "level") as [lvl|] eqn:Hl; cbn [rbind]; [|done].
      etransitivity; [apply IH|]. unfold missing_key. rewrite Hn, Hl.
      assert (Hnone : match elems with
                      | [] => None
                      | _ :: _ =>
                          if existsb (fun e => str_eq (variable e) name) elems
                          then @None pystr else None
                      end = None).
      { destruct elems; [done|]. by destruct (existsb _ _). }
      rewrite Hnone.
      destruct (selects target elem); [|done]. by rewrite <- app_assoc.
    + etransitivity; [apply IH|]. unfold missing_key. rewrite Hn.
      assert (Hsel : selects target elem = false).
      { apply bool_decide_eq_false. intros [Hn' _].
        unfold str_eq in Hv. apply bool_decide_eq_false in Hv. congruence. }
      rewrite Hsel.
      destruct elems as [|e es]; [done|reflexivity].
Qed.

Lemma scan_targets_cases self :
  forall targets acc,
    GribIdx.scan_targets self targets acc
    = match first_missing (GribIdx.elements self) targets with
      | Some key => Raise (KeyError key)
      | None => Ok (acc ++ named_records self targets)
      end.
Proof.
  induction targets as [|target targets IH]; intros acc; cbn.
  - by rewrite app_nil_r.
  - rewrite scan_elements_cases.
    destruct (missing_key _ target); cbn [rbind]; [done|].
    rewrite IH. destruct (first_missing _ targets); [done|].
    by rewrite <- app_assoc.
Qed.

Lemma find_elements_cases self targets :
  GribIdx.find_elements self targets
  = match first_missing (GribIdx.elements self) targets with
    | Some key => Raise (KeyError key)
    | None => Ok (named_records self targets)
    end.
Proof. unfold GribIdx.find_elements. by rewrite scan_targets_cases. Qed.

Lemma first_missing_app elems ts1 ts2 :
  first_missing elems (ts1 ++ ts2)
  = match first_missing elems ts1 with
    | Some key => Some key
    | None => first_missing elems ts2
    end.
Proof.
  induction ts1 as [|t ts1 IH]; cbn; [done|].
  by destruct (missing_key elems t).
Qed.

Lemma missing_key_name_or_level elems target key :
  missing_key elems target = Some key ->
  key = py "name" \/ key = py "level".
Proof.
  unfold missing_key. destruct elems; [done|].
  destruct (target !! py "name"); [|intros [= <-]; by left].
  destruct (existsb _ _); [|done].
  destruct (target !! py "level"); [done|]. intros [= <-]. by right.
Qed.

Lemma first_missing_Some elems targets key :
  first_missing elems targets = Some key <->
  exists before target after,
    targets = before ++ target :: after
    /\ Forall (fun t => missing_key elems t = None) before
    /\ missing_key elems target = Some key.
Proof.
  induction targets as [|t targets IH]; cbn.
  - split; [done|]. intros (before & target & after & H & _). by destruct before.
  - destruct (missing_key elems t) as [k|] eqn:Hk.
    + split.
      * intros [= ->]. exists [], t, targets. by repeat split.
      * intros ([|b before] & target & after & [= -> ->] & Hb & Ht).
        -- congruence.
        -- apply Forall_cons_1 in Hb as [Hb _]. congruence.
    + rewrite IH. split.
      * intros (before & target & after & -> & Hb & Ht).
        exists (t :: before), target, after. repeat split; [|done].
        by constructor.
      * intros ([|b before] & target & after & [= -> ->] & Hb & Ht).
        -- congruence.
        -- apply Forall_cons_1 in Hb as [_ Hb]. by exists before, target, after.
Qed.

Lemma named_records_spec self targets elem :
  In elem (named_records self targets) <->
  In elem (GribIdx.elements self)
  /\ exists target,
       In target targets
       /\ target !! py "name" = Some (variable elem)
       /\ target !! py "level" = Some (level elem).
Proof.
  unfold named_records. rewrite in_flat_map. split.
  - intros (target & Ht & Hin). apply List.filter_In in Hin as [Hin Hsel].
    apply bool_decide_eq_true in Hsel. eauto.
  - intros (Hin & target & Ht & Hn & Hl). exists target. split; [done|].
    apply List.filter_In. split; [done|]. by apply bool_decide_eq_true.
Qed.

(** X6.  Asking for two lists of targets one after the other is asking
    for each list and putting the answers one after the other: the
    records of the first list come first, and a missing key in the first
    list is met before any of the second. *)
Theorem find_elements_app self targets1 targets2 :
  GribIdx.find_elements self (targets1 ++ targets2)
  = (let* found1 := GribIdx.find_elements self targets1 in
     let* found2 := GribIdx.find_elements self targets2 in
     Ok (found1 ++ found2))%result.
Proof.
  rewrite !find_elements_cases, first_missing_app.
  destruct (first_missing _ targets1); cbn [rbind]; [done|].
  destruct (first_missing _ targets2); cbn [rbind]; [done|].
  unfold named_records. by rewrite flat_map_app.
Qed.

(** X7.  [find_elements] raises exactly when a target lacks a key that
    the comparison gets to look up: ["name"], looked up at the first
    record of a non-empty index, or ["level"], looked up at the first
    record whose variable is the target's name.  The exception is the
    [KeyError] of that key for the first such target, so an empty index
    raises for no targets at all, and a target without ["level"] whose
    name is in no record passes. *)
Theorem find_elements_raises_for_missing_key self targets :
  (forall e,
      GribIdx.find_elements self targets = Raise e <->
      exists before target after key,
        targets = before ++ target :: after
        /\ Forall (fun t => missing_key (GribIdx.elements self) t = None) before
        /\ missing_key (GribIdx.elements self) target = Some key
        /\ e = KeyError key)
  /\ (forall e,
        GribIdx.find_elements self targets = Raise e ->
        e = KeyError (py "name") \/ e = KeyError (py "level"))
  /\ (GribIdx.elements self = [] ->
      GribIdx.find_elements self targets = Ok [])
  /\ (forall target,
        In target targets ->
        GribIdx.elements self <> [] ->
        target !! py "name" = None ->
        exists e, GribIdx.find_elements self targets = Raise e).
Proof.
  rewrite find_elements_cases.
  destruct (first_missing (GribIdx.elements self) targets) as [key|] eqn:Hfirst.
  - pose proof (proj1 (first_missing_Some _ _ _) Hfirst)
      as (before & target & after & Hsplit & Hbefore & Hkey).
    split; [|split; [|split]].
    + intros e. split.
      * intros [= <-]. by exists before, target, after, key.
      * intros (b & t & a & k & Hs & Hb & Hk & ->).
        assert (Hk' : first_missing (GribIdx.elements self) targets = Some k).
        { apply first_missing_Some. by exists b, t, a. }
        congruence.
    + intros e [= <-].
      destruct (missing_key_name_or_level _ _ _ Hkey) as [->| ->]; [by left|by right].
    + intros Hnil. rewrite Hnil in Hkey. done.
    + intros. by eexists.
  - split; [|split; [|split]].
    + intros e. split; [done|].
      intros (b & t & a & k & Hs & Hb & Hk & ->).
      assert (Hk' : first_missing (GribIdx.elements self) targets = Some k).
      { apply first_missing_Some. by exists b, t, a. }
      congruence.
    + done.
    + intros Hnil. unfold named_records. rewrite Hnil. f_equal.
      clear. induction targets; [done|]. cbn. done.
    + intros target Hin Hne Hname. exfalso.
      assert (Hall : Forall (fun t => missing_key (GribIdx.elements self) t = None)
                            targets).
      { clear -Hfirst. induction targets as [|t ts IH]; [constructor|].
        cbn in Hfirst. destruct (missing_key _ t) eqn:Ht; [done|].
        constructor; [done|by apply IH]. }
      rewrite List.Forall_forall in Hall. specialize (Hall target Hin).
      unfold missing_key in Hall. rewrite Hname in Hall.
      by destruct (GribIdx.elements self).
Qed.

(** On the index of two records, a target with no key at all raises for
    its name, one with the name of a record and no level raises for its
    level, and one with a name that is in no record passes. *)
Lemma find_elements_raises_for_missing_key_witness :
  GribIdx.find_elements two_records [name_only "RH"; ∅]
  = Raise (KeyError (py "name"))
  /\ GribIdx.find_elements two_records [name_only "RH"; name_only "TMP"]
     = Raise (KeyError (py "level"))
  /\ GribIdx.find_elements two_records [name_only "RH"] = Ok [].
Proof.
  split; [|split].
  - apply (proj1 (find_elements_raises_for_missing_key
                    two_records [name_only "RH"; ∅])).
    exists [name_only "RH"], ∅, [], (py "name").
    split; [reflexivity|]. split; [|split; [|reflexivity]].
    + constructor; [vm_compute; reflexivity|constructor].
    + vm_compute. reflexivity.
  - apply (proj1 (find_elements_raises_for_missing_key
                    two_records [name_only "RH"; name_only "TMP"])).
    exists [name_only "RH"], (name_only "TMP"), [], (py "level").
    split; [reflexivity|]. split; [|split; [|reflexivity]].
    + constructor; [vm_compute; reflexivity|constructor].
    + vm_compute. reflexivity.
  - vm_compute. reflexivity.
Defined.

(** X8.  Whatever the targets hold, an answer of [find_elements] is the
    list of the records the targets name, target by target and in index
    order within a target: a target that lacks a key and yet raises
    nothing adds no record, and every record of the answer is a record
    of the index that some target names by variable and level. *)
Theorem find_elements_answer_is_named_records self targets matched :
  GribIdx.find_elements self targets = Ok matched ->
  matched = named_records self targets
  /\ (forall elem,
        In elem matched <->
        In elem (GribIdx.elements self)
        /\ exists target,
             In target targets
             /\ target !! py "name" = Some (variable elem)
             /\ target !! py "level" = Some (level elem))
  /\ (length matched <= length targets * length (GribIdx.elements self))%nat.
Proof.
  rewrite find_elements_cases.
  destruct (first_missing _ targets); [done|]. intros [= <-].
  split; [done|]. split; [apply named_records_spec|].
  unfold named_records. induction targets as [|t ts IH]; cbn; [lia|].
  rewrite length_app.
  pose proof (List.filter_length_le (selects t) (GribIdx.elements self)). lia.
Qed.

(** A target without its level, of a name in no record, and the
    temperature: the answer is the temperature record. *)
Lemma find_elements_answer_is_named_records_witness :
  exists matched,
    GribIdx.find_elements two_records
      [name_only "RH"; target "TMP" "2 m above ground"] = Ok matched
    /\ List.map byte_range matched = [(0, 3)].
Proof.
  destruct (GribIdx.find_elements two_records
              [name_only "RH"; target "TMP" "2 m above ground"])
    as [matched|] eqn:Hfind; [|vm_compute in Hfind; discriminate].
  exists matched. split; [reflexivity|].
  destruct (find_elements_answer_is_named_records _ _ _ Hfind) as (-> & _ & _).
  vm_compute. reflexivity.
Defined.

(** X9.  The byte ranges [get_byte_ranges] gives for a well-formed index
    are the ranges of the records [find_elements] gives, in the same
    order, and each of them runs from the offset of one line of the index
    to the offset of the line after it. *)
Theorem byte_ranges_join_adjacent_offsets pf text offsets idx targets ranges :
  Forall2 (well_formed_entry pf) (split NEWLINE text) offsets ->
  GribIdx.__init__ pf text = Ok idx ->
  GribIdx.get_byte_ranges idx targets = Ok ranges ->
  (exists matched,
      GribIdx.find_elements idx targets = Ok matched
      /\ ranges = List.map byte_range matched)
  /\ Forall (fun range =>
               exists k,
                 offsets !! k = Some (fst range)
                 /\ offsets !! S k = Some (snd range))
            ranges.
Proof.
  intros Hwf Hinit Hranges.
  destruct (well_formed_records pf text offsets Hwf)
    as (records & Hparse & _ & Hat).
  unfold GribIdx.__init__ in Hinit. rewrite Hparse in Hinit.
  cbn [rbind] in Hinit. injection Hinit as <-.
  unfold GribIdx.get_byte_ranges in Hranges.
  destruct (GribIdx.find_elements _ targets) as [matched|] eqn:Hfind;
    cbn [rbind] in Hranges; [|done].
  injection Hranges as <-. split; [by exists matched|].
  rewrite find_elements_cases in Hfind.
  destruct (first_missing _ targets); [done|]. injection Hfind as <-.
  apply List.Forall_forall. intros range Hin.
  apply in_map_iff in Hin as (elem & <- & Hin).
  apply named_records_spec in Hin as [Hin _]. cbn [GribIdx.elements] in Hin.
  apply list_elem_of_In, list_elem_of_lookup_1 in Hin as [k Hk].
  exists k. exact (Hat k elem Hk).
Qed.

(** Wind asked before temperature on [four_entries]: the range of the
    wind first. *)
Lemma byte_ranges_join_adjacent_offsets_witness :
  exists idx ranges,
    GribIdx.__init__ example_platform four_entries = Ok idx
    /\ GribIdx.get_byte_ranges idx wind_then_temperature = Ok ranges
    /\ ranges = [(500, 900); (100, 500)]
    /\ Forall (fun range =>
                 exists k,
                   [100; 500; 900; 1400] !! k = Some (fst range)
                   /\ [100; 500; 900; 1400] !! S k = Some (snd range))
              ranges.
Proof.
  destruct (GribIdx.__init__ example_platform four_entries)
    as [idx|] eqn:Hinit; [|vm_compute in Hinit; discriminate].
  destruct (GribIdx.get_byte_ranges idx wind_then_temperature)
    as [ranges|] eqn:Hranges.
  2:{ vm_compute in Hinit. injection Hinit as <-.
      vm_compute in Hranges. discriminate. }
  exists idx, ranges. split; [reflexivity|]. split; [exact Hranges|].
  split.
  - vm_compute in Hinit. injection Hinit as <-.
    vm_compute in Hranges. by injection Hranges as <-.
  - exact (proj2 (byte_ranges_join_adjacent_offsets
                    example_platform four_entries [100; 500; 900; 1400]
                    idx wind_then_temperature ranges
                    four_entries_well_formed Hinit Hranges)).
Defined.

(** ** Further properties of the range fetch *)

Lemma megabytes_overflow n :
  megabytes n
  = if FLOAT_OVERFLOW * 1024 <=? Z.abs n then Raise OverflowError
    else Ok (inject_Z n / inject_Z 1024 / inject_Z 1024)%Q.
Proof.
  unfold megabytes, int_truediv. change (1024 =? 0) with false. cbv iota.
  change (Z.abs 1024) with 1024.
  destruct (_ <=? _); cbn [rbind]; [done|].
  by apply float_truediv_nonzero.
Qed.

Lemma speed_mbps_overflow n duration :
  (exists speed, speed_mbps n duration = Ok speed)
  \/ (speed_mbps n duration = Raise OverflowError
      /\ FLOAT_OVERFLOW * 1024 <= Z.abs n).
Proof.
  unfold speed_mbps. destruct (positive duration) eqn:Hpos; [|by left; eexists].
  rewrite megabytes_overflow.
  destruct (Z.leb_spec (FLOAT_OVERFLOW * 1024) (Z.abs n)); cbn [rbind].
  - by right.
  - left. eexists. apply float_truediv_nonzero.
    apply positive_spec in Hpos. intros Hz. rewrite Hz in Hpos.
    by apply Qlt_irrefl in Hpos.
Qed.

Lemma range_header_raise env s e ex :
  range_header env s e = Raise ex -> ex = ValueError [].
Proof.
  unfold range_header, format_int.
  destruct (_ && _); cbn [rbind]; [congruence|].
  destruct (_ && _); cbn [rbind]; [congruence|done].
Qed.

Lemma download_bytes_run env bucket key s e w :
  download_bytes env bucket key s e w
  = match range_header env s e with
    | Raise ex => (Raise ex, after_clock w)
    | Ok _ =>
        match s3_get_object env (after_clock w) (range_request bucket key s e) with
        | Raise ex => (Raise ex, after_range_read bucket key s e w)
        | Ok data =>
            (if FLOAT_OVERFLOW * 1024 <=? Z.abs (e - s) then Raise OverflowError
             else Ok data,
             after_clock (after_range_read bucket key s e w))
        end
    end.
Proof.
  unfold download_bytes, bind, time, lift, get_object, ret, after_range_read.
  fold (after_clock w).
  destruct (range_header env s e) as [h|ex] eqn:Eh; [|done].
  apply range_header_ok in Eh. subst h. fold (range_request bucket key s e).
  destruct (s3_get_object env (after_clock w) _) as [data|ex]; [|done].
  set (w1 := record_event _ (after_clock w)).
  change {| files := files w1; trace := trace w1;
            clock_reads := S (clock_reads w1) |} with (after_clock w1).
  match goal with
  | |- context [speed_mbps ?n ?d] =>
      destruct (speed_mbps_overflow n d) as [[speed ->]| [-> Hbig]]
  end.
  - rewrite megabytes_overflow. by destruct (_ <=? _).
  - by apply Z.leb_le in Hbig as ->.
Qed.

(** X10.  [download_bytes] returns the bytes the store gave for the one
    request [bytes=start-(end-1)], having read the clock before and after
    it and touched no file, exactly when the two numbers of the header
    can be formatted, the store answers, and the length [end - start] is
    small enough to be turned into megabytes for the log line.  Whether
    the start lies before the end plays no part: no [ValueError] is
    raised for a start at or after the end. *)
Theorem download_bytes_returns_store_answer env bucket key s e w data w' :
  download_bytes env bucket key s e w = (Ok data, w') <->
  (exists header, range_header env s e = Ok header)
  /\ s3_get_object env (after_clock w) (range_request bucket key s e) = Ok data
  /\ Z.abs (e - s) < FLOAT_OVERFLOW * 1024
  /\ w' = after_clock (after_range_read bucket key s e w).
Proof.
  rewrite download_bytes_run.
  destruct (range_header env s e) as [h|ex].
  2:{ split; [done|]. by intros [[? ?] _]. }
  destruct (s3_get_object env (after_clock w) _) as [answer|ex].
  2:{ split; [done|]. by intros (_ & ? & _). }
  destruct (Z.leb_spec (FLOAT_OVERFLOW * 1024) (Z.abs (e - s))).
  - split; [done|]. intros (_ & _ & ? & _). lia.
  - split.
    + intros [= -> <-]. split; [by eexists|done].
    + intros (_ & [= ->] & _ & ->). done.
Qed.

(** Asked for the range from 9 to 4, the store that answers everything
    is sent [bytes=9-3], and its answer is returned. *)
Lemma download_bytes_returns_store_answer_witness :
  download_bytes echo_env (py "bucket") (py "key") 9 4 empty_world
  = (Ok [x47; x52; x49; x42]%byte,
     after_clock (after_range_read (py "bucket") (py "key") 9 4 empty_world))
  /\ Range (range_request (py "bucket") (py "key") 9 4) = Some (py "bytes=9-3").
Proof.
  split; [|vm_compute; reflexivity].
  apply (proj2 (download_bytes_returns_store_answer
                  echo_env (py "bucket") (py "key") 9 4 empty_world _ _)).
  split; [eexists; vm_compute; reflexivity|].
  split; [reflexivity|]. split; [vm_compute; reflexivity|reflexivity].
Defined.

(** X11.  When [download_bytes] raises, no file has changed, and one of
    three things has happened: a number of the header has more digits
    than [str] may produce, the [ValueError] of which comes before any
    request; or the store raised at the one request, and its exception
    is passed on; or the store answered and the length could not be
    turned into megabytes, an [OverflowError].  A clock that stands still
    or runs backwards raises nothing. *)
Theorem download_bytes_raises env bucket key s e w ex w' :
  download_bytes env bucket key s e w = (Raise ex, w') ->
  files w' = files w
  /\ ((ex = ValueError []
       /\ range_header env s e = Raise ex
       /\ trace w' = trace w)
      \/ (s3_get_object env (after_clock w) (range_request bucket key s e)
          = Raise ex
          /\ trace w'
             = trace w ++ [EvGetObject (range_request bucket key s e)])
      \/ (ex = OverflowError
          /\ FLOAT_OVERFLOW * 1024 <= Z.abs (e - s)
          /\ (exists data,
                s3_get_object env (after_clock w) (range_request bucket key s e)
                = Ok data)
          /\ trace w'
             = trace w ++ [EvGetObject (range_request bucket key s e)])).
Proof.
  rewrite download_bytes_run.
  destruct (range_header env s e) as [h|ex0] eqn:Eh.
  2:{ intros [= -> <-]. split; [done|]. left.
      by rewrite (range_header_raise _ _ _ _ Eh). }
  destruct (s3_get_object env (after_clock w) _) as [answer|ex0].
  2:{ intros [= -> <-]. split; [done|]. right. left. done. }
  destruct (Z.leb_spec (FLOAT_OVERFLOW * 1024) (Z.abs (e - s))); [|done].
  intros [= <- <-]. split; [done|]. right. right.
  split; [done|]. split; [done|]. split; [by eexists|done].
Qed.

(** The store of the examples has nothing for the range from 7 to 9. *)
Lemma download_bytes_raises_witness :
  exists w',
    download_bytes quiet_env (py "bucket") (py "key") 7 9 empty_world
    = (Raise (ExternalError (py "InvalidRange")), w')
    /\ files w' = files empty_world
    /\ length (trace w') = 1%nat.
Proof.
  destruct (download_bytes quiet_env (py "bucket") (py "key") 7 9 empty_world)
    as [r w'] eqn:Hrun.
  assert (Hr : r = Raise (ExternalError (py "InvalidRange"))).
  { apply (f_equal fst) in Hrun. vm_compute in Hrun. by subst r. }
  subst r. exists w'. split; [reflexivity|].
  destruct (download_bytes_raises _ _ _ _ _ _ _ _ Hrun)
    as [Hfiles [(_ & _ & Ht)|[(_ & Ht)|(_ & _ & _ & Ht)]]];
    (split; [exact Hfiles|]).
  - apply (f_equal snd) in Hrun. vm_compute in Hrun. subst w'. discriminate.
  - by rewrite Ht.
  - by rewrite Ht.
Defined.

(** ** Further properties of the orchestrator *)

Lemma select_elements_run env bucket idx_key targets w :
  select_elements env bucket idx_key targets w
  = (index_stage env w (index_request bucket idx_key) targets,
     record_event (EvGetObject (index_request bucket idx_key)) w).
Proof.
  unfold select_elements, index_stage, bind, get_object, lift.
  fold (index_request bucket idx_key).
  destruct (s3_get_object env w _) as [body|]; cbn [rbind]; [|done].
  destruct (decode_utf8 body) as [text|]; cbn [rbind]; [|done].
  destruct (GribIdx.__init__ _ text); cbn [rbind]; done.
Qed.

Lemma download_run env dt fh els path bucket region w utc :
  normalize_utc dt = Ok utc ->
  let request := the_index_request env utc fh bucket in
  let result := initial_result (platform env) utc fh els path in
  download_gfs_data env dt fh els path bucket region w
  = match boto3_client env (after_clock w) region with
    | Some e => (Ok (with_error result (ErrorDownloading e)), with_client region w)
    | None =>
        match index_stage env (with_client region w) request els with
        | Raise e =>
            (Ok (with_error result (ErrorDownloading e)),
             with_index region request w)
        | Ok [] =>
            (Ok (with_error result (ElementsNotFound els)),
             with_index region request w)
        | Ok (elem :: rest) =>
            try_except
              (bind (fetch_loop env bucket (the_grib_key env utc fh)
                                (elem :: rest) [] 0)
                    (fun fetched =>
                       save_and_report env result path (time_time env w)
                                       (fst fetched) (snd fetched)))
              (fun e => ret (with_error result (ErrorDownloading e)))
              (with_index region request w)
        end
    end.
Proof.
  intros Hn request result.
  unfold download_gfs_data, bind at 1, time. fold (after_clock w).
  unfold bind at 1, lift. rewrite Hn. unfold try_except.
  fold (initial_result (platform env) utc fh els path). fold result.
  unfold try_body, bind at 1, new_client. fold (with_client region w).
  fold (the_grib_key env utc fh).
  destruct (boto3_client env (after_clock w) region) as [e|]; [done|].
  unfold bind at 1. rewrite select_elements_run.
  fold (the_index_request env utc fh bucket). fold request.
  fold (with_index region request w).
  destruct (index_stage env (with_client region w) request els)
    as [[|elem rest]|e]; done.
Qed.

Lemma fetch_and_save_outcome env result0 bucket key path t0 selected w r w' :
  try_except
    (bind (fetch_loop env bucket key selected [] 0)
          (fun fetched =>
             save_and_report env result0 path t0 (fst fetched) (snd fetched)))
    (fun e => ret (with_error result0 (ErrorDownloading e))) w = (r, w') ->
  (exists e, r = Ok (with_error result0 (ErrorDownloading e)))
  \/ (exists size elapsed speed,
        r = Ok (with_success result0 size elapsed speed)).
Proof.
  unfold try_except, bind at 1.
  destruct (fetch_loop _ _ _ _ _ _ _) as [[fetched|e] w3].
  2:{ intros [= <- _]. left. by eexists. }
  destruct (save_and_report _ _ _ _ _ _ _) as [[o|e] w4] eqn:Hs.
  2:{ intros [= <- _]. left. by eexists. }
  intros [= <- _]. right.
  apply save_and_report_cases in Hs
    as [(? & ? & _)|[(_ & ? & ? & _)|(_ & n & _ & Hr)]]; try done.
  destruct Hr as (_ & size & elapsed & speed & _ & _ & ->). by do 3 eexists.
Qed.

Lemma index_stage_raise env w request targets e :
  index_stage env w request targets = Raise e ->
  s3_get_object env w request = Raise e
  \/ e = UnicodeDecodeError
  \/ (exists literal, e = ValueError literal)
  \/ e = KeyError (py "name")
  \/ e = KeyError (py "level").
Proof.
  unfold index_stage. intros H.
  destruct (s3_get_object env w request) as [body|]; cbn [rbind] in H;
    [|injection H as <-; by left].
  right. unfold decode_utf8 in H.
  destruct (utf8_decode _) as [text|]; cbn [rbind] in H;
    [|injection H as <-; by left].
  right. unfold GribIdx.__init__, GribIdx._parse_idx_content in H.
  destruct (GribIdx.parse_loop _ _ _ _ _) as [records|e'] eqn:Hparse;
    cbn [rbind] in H.
  - right. rewrite find_elements_cases in H.
    destruct (first_missing _ targets) as [key|] eqn:Hkey; [|done].
    injection H as <-. apply first_missing_Some in Hkey
      as (_ & target & _ & _ & _ & Hkey).
    destruct (missing_key_name_or_level _ _ _ Hkey) as [->| ->];
      [by left|by right].
  - injection H as <-. left.
    exact (parse_loop_raise_ValueError _ _ _ _ _ _ Hparse).
Qed.

(** X12.  For a timestamp that is brought to UTC, a run answers
    [Specified elements not found] exactly when the client was made and
    the index, as the store served it, was decoded, parsed and searched
    without error and held no record for the targets.  The message
    carries the targets as the caller gave them, the outcome is a
    failure, and the run has made two calls, the client and the index
    read: no range is read and no directory or file is touched. *)
Theorem elements_not_found_iff
        env dt fh els path bucket region w utc out w' missing :
  normalize_utc dt = Ok utc ->
  let request := the_index_request env utc fh bucket in
  (download_gfs_data env dt fh els path bucket region w = (Ok out, w')
   /\ error_message out = Some (ElementsNotFound missing))
  <->
  (boto3_client env (after_clock w) region = None
   /\ index_stage env (with_client region w) request els = Ok []
   /\ missing = els
   /\ out = with_error (initial_result (platform env) utc fh els path)
                       (ElementsNotFound els)
   /\ w' = with_index region request w).
Proof.
  intros Hn request.
  rewrite (download_run env dt fh els path bucket region w utc Hn).
  fold request.
  destruct (boto3_client env (after_clock w) region) as [e|].
  { split; [intros [[= <- <-] Hmsg]; done|by intros [? _]]. }
  destruct (index_stage env (with_client region w) request els)
    as [[|elem rest]|e].
  - split.
    + intros [[= <- <-] [= <-]]. done.
    + intros (_ & _ & -> & -> & ->). done.
  - split; [|by intros (_ & ? & _)].
    intros [Hrun Hmsg]. exfalso.
    apply fetch_and_save_outcome in Hrun
      as [(e & [= ->])|(size & elapsed & speed & [= ->])]; done.
  - split; [intros [[= <- <-] Hmsg]; done|by intros (_ & ? & _)].
Qed.

(** Served the index without one entry, the run answers that the wind
    and the temperature were not found, after two calls. *)
Lemma elements_not_found_iff_witness :
  exists out w',
    download_gfs_data junk_env naive_midnight (py "000") wind_then_temperature
                      output_path DEFAULT_BUCKET DEFAULT_REGION empty_world
    = (Ok out, w')
    /\ error_message out = Some (ElementsNotFound wind_then_temperature)
    /\ length (trace w') = 2%nat.
Proof.
  assert (Hstage :
    index_stage junk_env (with_client DEFAULT_REGION empty_world)
      (the_index_request junk_env (replace_tzinfo_utc naive_midnight)
                         (py "000") DEFAULT_BUCKET)
      wind_then_temperature = Ok []) by (vm_compute; reflexivity).
  destruct (proj2 (elements_not_found_iff
                     junk_env naive_midnight (py "000") wind_then_temperature
                     output_path DEFAULT_BUCKET DEFAULT_REGION empty_world
                     (replace_tzinfo_utc naive_midnight) _ _ _ eq_refl)
                  (conj eq_refl
                     (conj Hstage (conj eq_refl (conj eq_refl eq_refl)))))
    as [Hrun Hmsg].
  eexists. eexists. split; [exact Hrun|]. split; [exact Hmsg|reflexivity].
Defined.

(** X13.  For a timestamp that is brought to UTC, a failure before the
    first range read is reported, not raised, with the exception in the
    message: when the client cannot be made the store is never asked, and
    when the index cannot be read, decoded, parsed or searched the index
    read is the one request made.  In the second case the exception is
    that of the store, or [UnicodeDecodeError], or the [ValueError] of an
    offset that is no integer, or the [KeyError] of a target that lacks
    ["name"] or ["level"]. *)
Theorem early_failures_are_reported env dt fh els path bucket region w utc :
  normalize_utc dt = Ok utc ->
  let request := the_index_request env utc fh bucket in
  let result := initial_result (platform env) utc fh els path in
  (forall e,
      boto3_client env (after_clock w) region = Some e ->
      download_gfs_data env dt fh els path bucket region w
      = (Ok (with_error result (ErrorDownloading e)), with_client region w))
  /\ (forall e,
        boto3_client env (after_clock w) region = None ->
        index_stage env (with_client region w) request els = Raise e ->
        download_gfs_data env dt fh els path bucket region w
        = (Ok (with_error result (ErrorDownloading e)),
           with_index region request w)
        /\ (s3_get_object env (with_client region w) request = Raise e
            \/ e = UnicodeDecodeError
            \/ (exists literal, e = ValueError literal)
            \/ e = KeyError (py "name")
            \/ e = KeyError (py "level"))).
Proof.
  intros Hn request result.
  rewrite (download_run env dt fh els path bucket region w utc Hn).
  fold request result. split.
  - by intros e ->.
  - intros e -> Hstage. split; [by rewrite Hstage|].
    exact (index_stage_raise _ _ _ _ _ Hstage).
Qed.

(** An index that is no UTF-8 gives a failure outcome with the
    [UnicodeDecodeError], after the client and the index read. *)
Lemma early_failures_are_reported_witness :
  exists out w',
    download_gfs_data binary_env naive_midnight (py "000") wind_then_temperature
                      output_path DEFAULT_BUCKET DEFAULT_REGION empty_world
    = (Ok out, w')
    /\ error_message out = Some (ErrorDownloading UnicodeDecodeError)
    /\ length (trace w') = 2%nat.
Proof.
  assert (Hstage :
    index_stage binary_env (with_client DEFAULT_REGION empty_world)
      (the_index_request binary_env (replace_tzinfo_utc naive_midnight)
                         (py "000") DEFAULT_BUCKET)
      wind_then_temperature = Raise UnicodeDecodeError)
    by (vm_compute; reflexivity).
  destruct (proj2 (early_failures_are_reported
                     binary_env naive_midnight (py "000") wind_then_temperature
                     output_path DEFAULT_BUCKET DEFAULT_REGION empty_world
                     (replace_tzinfo_utc naive_midnight) eq_refl)
                  UnicodeDecodeError eq_refl Hstage)
    as [Hrun _].
  eexists. eexists. split; [exact Hrun|]. split; reflexivity.
Defined.

Lemma progress_range_reads env utc fh els path bucket region p request :
  justified env utc fh els path bucket p ->
  In (EvGetObject request) (events_of env utc fh path bucket region p) ->
  Range request <> None ->
  exists selected elem,
    selected_from_index env utc fh els bucket selected
    /\ In elem selected
    /\ request = element_request bucket (the_grib_key env utc fh) elem.
Proof.
  intros Hj Hin Hrange.
  assert (Hreads : forall selected,
             selected_from_index env utc fh els bucket selected ->
             In (EvGetObject request) (range_reads env utc fh bucket selected) ->
             exists selected elem,
               selected_from_index env utc fh els bucket selected
               /\ In elem selected
               /\ request = element_request bucket (the_grib_key env utc fh) elem).
  { intros selected Hsel Hr.
    apply range_reads_are_reads in Hr as (elem & Helem & [= ->]). eauto. }
  destruct p; cbn [events_of justified] in Hin, Hj; unfold opening in Hin;
    split_membership Hin;
    try discriminate; try done;
    try (injection Hin as <-; by destruct Hrange).
  - destruct Hj as (Hsel & _ & _).
    apply range_reads_are_reads in Hin as (elem & Helem & [= ->]).
    exists selected, elem. split; [done|]. split; [|done].
    rewrite <- (take_drop issued selected). apply in_or_app. by left.
  - destruct Hj as [[Hsel _] _]. eauto.
  - destruct Hj as [[Hsel _] _]. eauto.
  - destruct Hj as [[Hsel _] _]. eauto.
  - destruct Hj as [[Hsel _] _]. eauto.
Qed.

(** X14.  Every request with a range that a run makes asks for a record
    that the index, as the store served it to this run, holds and that
    one of the caller's targets names by variable and level; this needs
    nothing of the targets. *)
Theorem range_reads_only_for_named_records
        env dt fh els path bucket region w r w' utc :
  normalize_utc dt = Ok utc ->
  download_gfs_data env dt fh els path bucket region w = (r, w') ->
  exists evs,
    trace w' = trace w ++ evs
    /\ forall request,
         In (EvGetObject request) evs ->
         Range request <> None ->
         exists body text records elem target,
           answered env (the_index_request env utc fh bucket) body
           /\ decode_utf8 body = Ok text
           /\ GribIdx._parse_idx_content (platform env) text = Ok records
           /\ In elem records
           /\ In target els
           /\ target !! py "name" = Some (variable elem)
           /\ target !! py "level" = Some (level elem)
           /\ request = element_request bucket (the_grib_key env utc fh) elem.
Proof.
  intros Hn Hrun.
  destruct (download_summary _ _ _ _ _ _ _ _ _ _ _ Hn Hrun)
    as (p & Hj & _ & Ht & _).
  eexists. split; [exact Ht|]. intros request Hin Hrange.
  destruct (progress_range_reads _ _ _ _ _ _ _ _ _ Hj Hin Hrange)
    as (selected & elem & (body & text & records & Hans & Hdec & Hparse & Hfind)
        & Helem & ->).
  rewrite find_elements_cases in Hfind.
  destruct (first_missing _ els); [done|]. injection Hfind as <-.
  apply named_records_spec in Helem as (Hrec & target & Ht' & Hname & Hlevel).
  exists body, text, records, elem, target. by repeat split.
Qed.

(** In the run without faults the two range reads are for the wind and
    the temperature records. *)
Lemma range_reads_only_for_named_records_witness :
  exists r w' evs,
    download_gfs_data quiet_env naive_midnight (py "000") wind_then_temperature
                      output_path DEFAULT_BUCKET DEFAULT_REGION empty_world
    = (r, w')
    /\ trace w' = trace empty_world ++ evs
    /\ forall request,
         In (EvGetObject request) evs ->
         Range request <> None ->
         exists elem target,
           In target wind_then_temperature
           /\ target !! py "name" = Some (variable elem)
           /\ target !! py "level" = Some (level elem)
           /\ request
              = element_request DEFAULT_BUCKET
                  (the_grib_key quiet_env (replace_tzinfo_utc naive_midnight)
                                (py "000"))
                  elem.
Proof.
  destruct (download_gfs_data quiet_env naive_midnight (py "000")
              wind_then_temperature output_path DEFAULT_BUCKET DEFAULT_REGION
              empty_world) as [r w'] eqn:Hrun.
  destruct (range_reads_only_for_named_records
              quiet_env naive_midnight (py "000") wind_then_temperature
              output_path DEFAULT_BUCKET DEFAULT_REGION empty_world r w'
              (replace_tzinfo_utc naive_midnight) eq_refl Hrun)
    as (evs & Ht & Hreads).
  exists r, w', evs. split; [reflexivity|]. split; [exact Ht|].
  intros request Hin Hrange.
  destruct (Hreads request Hin Hrange)
    as (_ & _ & _ & elem & target & _ & _ & _ & _ & Htarget & Hname & Hlevel & ->).
  exists elem, target. split; [exact Htarget|].
  split; [exact Hname|]. split; [exact Hlevel|reflexivity].
Defined.

Lemma megabytes_nonnegative n size :
  0 <= n -> megabytes n = Ok size -> (0 <= size)%Q.
Proof.
  intros Hn. rewrite megabytes_overflow. destruct (_ <=? _); [done|].
  intros [= <-].
  apply Qle_shift_div_l; [reflexivity|]. rewrite Qmult_0_l.
  apply Qle_shift_div_l; [reflexivity|]. rewrite Qmult_0_l.
  unfold Qle. cbn. lia.
Qed.

Lemma avg_speed_mbps_cases total elapsed size speed :
  megabytes total = Ok size ->
  avg_speed_mbps total elapsed = Ok speed ->
  ((0 < elapsed)%Q /\ speed = (size / elapsed)%Q)
  \/ (~ (0 < elapsed)%Q /\ speed = 0%Q).
Proof.
  unfold avg_speed_mbps. intros ->. cbn [rbind].
  destruct (positive elapsed) eqn:Hpos.
  - apply positive_spec in Hpos. rewrite float_truediv_nonzero.
    + intros [= <-]. by left.
    + intros Hz. rewrite Hz in Hpos. by apply Qlt_irrefl in Hpos.
  - intros [= <-]. right. split; [|done].
    intros H. apply positive_spec in H. congruence.
Qed.

(** X15.  The three measures of the outcome are absent from every
    failure and present in every success.  In a success the size and the
    speed are not negative, and the speed is positive exactly when both
    the time and the size are: a success with a clock that did not
    advance, or with empty chunks, reports the speed 0. *)
Theorem outcome_measures env dt fh els path bucket region w out w' :
  download_gfs_data env dt fh els path bucket region w = (Ok out, w') ->
  (success out = false ->
   file_size_mb out = None /\ download_time_s out = None
   /\ download_speed_mbs out = None)
  /\ (success out = true ->
      exists size elapsed speed,
        file_size_mb out = Some size
        /\ download_time_s out = Some elapsed
        /\ download_speed_mbs out = Some speed
        /\ (0 <= size)%Q
        /\ (0 <= speed)%Q
        /\ ((0 < speed)%Q <-> (0 < elapsed)%Q /\ (0 < size)%Q)).
Proof.
  intros Hrun.
  destruct (normalize_utc dt) as [utc|e] eqn:Hn.
  2:{ by rewrite (download_raises _ _ _ _ _ _ _ _ _ Hn) in Hrun. }
  destruct (download_summary _ _ _ _ _ _ _ _ _ _ _ Hn Hrun)
    as (p & Hj & _ & _ & [= ->]).
  destruct p; cbn [outcome_of]; (split; [try done|try done]).
  intros _. cbn [justified] in Hj. destruct Hj as (_ & _ & Hsize & Hspeed).
  exists size, elapsed, speed. cbn.
  split; [done|]. split; [done|]. split; [done|].
  assert (Hs : (0 <= size)%Q)
    by (eapply megabytes_nonnegative; [|exact Hsize]; lia).
  split; [exact Hs|].
  destruct (avg_speed_mbps_cases _ _ _ _ Hsize Hspeed)
    as [[Hpos ->]|[Hneg ->]].
  - assert (Hnz : ~ (elapsed == 0)%Q).
    { intros Hz. rewrite Hz in Hpos. by apply Qlt_irrefl in Hpos. }
    split.
    + apply Qle_shift_div_l; [done|]. by rewrite Qmult_0_l.
    + split.
      * intros Hsp. split; [done|].
        assert (Heq : (size == size / elapsed * elapsed)%Q)
          by (rewrite Qmult_comm; symmetry; by apply Qmult_div_r).
        rewrite Heq. by apply Qmult_lt_0_compat.
      * intros [_ Hsz]. apply Qlt_shift_div_l; [done|]. by rewrite Qmult_0_l.
  - split; [apply Qle_refl|]. split.
    + intros H. by apply Qlt_irrefl in H.
    + by intros [? _].
Qed.

(** The run without faults reports five bytes, three seconds on the
    clock of the examples, and the speed that goes with them. *)
Lemma outcome_measures_witness :
  exists out w' size elapsed speed,
    download_gfs_data quiet_env naive_midnight (py "000") wind_then_temperature
                      output_path DEFAULT_BUCKET DEFAULT_REGION empty_world
    = (Ok out, w')
    /\ file_size_mb out = Some size
    /\ download_time_s out = Some elapsed
    /\ download_speed_mbs out = Some speed
    /\ (0 <= size)%Q /\ (0 <= speed)%Q.
Proof.
  destruct (download_gfs_data quiet_env naive_midnight (py "000")
              wind_then_temperature output_path DEFAULT_BUCKET DEFAULT_REGION
              empty_world) as [r w'] eqn:Hrun.
  destruct r as [out|e]; [|vm_compute in Hrun; discriminate].
  assert (Hsuccess : success out = true).
  { apply (f_equal fst) in Hrun. cbn [fst] in Hrun.
    apply (f_equal (fun r => match r with Ok o => success o | Raise _ => false end))
      in Hrun. vm_compute in Hrun. exact (eq_sym Hrun). }
  destruct (proj2 (outcome_measures _ _ _ _ _ _ _ _ _ _ Hrun) Hsuccess)
    as (size & elapsed & speed & H1 & H2 & H3 & H4 & H5 & _).
  exists out, w', size, elapsed, speed. by repeat split.
Defined.

(** ** The directory of the destination *)

Lemma from_slash_nil s : from_slash s = [] <-> ~ In SLASH s.
Proof.
  induction s as [|c s IH]; cbn; [tauto|].
  destruct (N.eqb_spec c SLASH) as [->|Hc].
  - split; [done|]. intros H. exfalso. apply H. by left.
  - rewrite IH. split.
    + intros Hno [?|?]; congruence.
    + intros Hno Hin. apply Hno. by right.
Qed.

Lemma from_slash_app s t :
  ~ In SLASH s -> from_slash (s ++ SLASH :: t) = SLASH :: t.
Proof.
  induction s as [|c s IH]; cbn; intros Hno.
  - reflexivity.
  - destruct (N.eqb_spec c SLASH) as [->|Hc].
    + exfalso. apply Hno. by left.
    + apply IH. intros Hin. apply Hno. by right.
Qed.

Lemma drop_slashes_nil s :
  drop_slashes s = [] -> forallb (fun c => (c =? SLASH)%N) s = true.
Proof.
  induction s as [|c s IH]; cbn; [done|].
  destruct (c =? SLASH)%N; [exact IH|done].
Qed.

Lemma dirname_nil p : dirname p = [] <-> ~ In SLASH p.
Proof.
  unfold dirname, upto_last_slash.
  assert (Hrev : ~ In SLASH p <-> from_slash (rev p) = []).
  { rewrite from_slash_nil. by rewrite <- in_rev. }
  rewrite Hrev.
  destruct (from_slash (rev p)) as [|c s] eqn:Hfrom; [done|].
  assert (Hne : rev (c :: s) <> []).
  { intros H. apply (f_equal (@length N)) in H.
    rewrite length_rev in H. done. }
  destruct (rev (c :: s)) as [|c' s'] eqn:Hhead; [done|].
  split; [|done].
  destruct (forallb _ (c' :: s')) eqn:Hall; [done|].
  unfold rstrip_slash. intros H. exfalso.
  apply (f_equal (@rev N)) in H. rewrite rev_involutive in H. cbn [rev] in H.
  apply drop_slashes_nil in H. rewrite forallb_forall in H.
  rewrite <- not_true_iff_false in Hall. apply Hall.
  apply forallb_forall. intros x Hx. apply H. by apply in_rev in Hx.
Qed.

Lemma dirname_join d c f :
  c <> SLASH -> ~ In SLASH f ->
  dirname (d ++ [c] ++ SLASH :: f) = d ++ [c].
Proof.
  intros Hc Hf. unfold dirname, upto_last_slash.
  rewrite app_assoc, rev_app_distr. cbn [rev]. rewrite <- app_assoc. cbn [app].
  rewrite from_slash_app by (by rewrite <- in_rev).
  change (rev (SLASH :: rev (d ++ [c]))) with (rev (rev (d ++ [c])) ++ [SLASH]).
  rewrite rev_involutive.
  destruct ((d ++ [c]) ++ [SLASH]) as [|c0 s0] eqn:Hhead.
  { by destruct d. }
  rewrite <- Hhead.
  assert (Hall : forallb (fun x => (x =? SLASH)%N) ((d ++ [c]) ++ [SLASH]) = false).
  { rewrite <- not_true_iff_false, forallb_forall. intros H.
    specialize (H c). apply N.eqb_eq in H; [done|].
    rewrite !in_app_iff. left. right. by left. }
  rewrite Hall. unfold rstrip_slash.
  rewrite rev_app_distr. cbn [rev app drop_slashes]. rewrite N.eqb_refl.
  rewrite rev_app_distr. cbn [rev app drop_slashes].
  apply N.eqb_neq in Hc. rewrite Hc.
  change (c :: rev d) with (rev [c] ++ rev d).
  by rewrite <- rev_app_distr, rev_involutive.
Qed.

Lemma events_of_makedirs env utc fh path bucket region p name :
  In (EvMakedirs name) (events_of env utc fh path bucket region p) ->
  name = dirname path.
Proof.
  intros H.
  assert (Hreads : forall selected,
             ~ In (EvMakedirs name) (range_reads env utc fh bucket selected)).
  { intros selected Hin.
    by apply range_reads_are_reads in Hin as (elem & _ & ?). }
  destruct p; cbn [events_of] in H; unfold opening in H;
    split_membership H;
    try discriminate; try done; try (by apply Hreads in H);
    by injection H as <-.
Qed.

(** X17.  For a destination [dir/file], where [dir] does not end with a
    slash and [file] has none, the directory part is [dir], and [dir] is
    the one name a run asks [os.makedirs] for. *)
Theorem directory_made_for_joined_path
        env dt fh els dir c file bucket region w r w' :
  c <> SLASH -> ~ In SLASH file ->
  let path := dir ++ [c] ++ SLASH :: file in
  dirname path = dir ++ [c]
  /\ (download_gfs_data env dt fh els path bucket region w = (r, w') ->
      exists evs,
        trace w' = trace w ++ evs
        /\ forall name, In (EvMakedirs name) evs -> name = dir ++ [c]).
Proof.
  intros Hc Hfile path.
  pose proof (dirname_join dir c file Hc Hfile) as Hdir. fold path in Hdir.
  split; [exact Hdir|]. intros Hrun.
  destruct (normalize_utc dt) as [utc|e] eqn:Hn.
  2:{ rewrite (download_raises _ _ _ _ _ _ _ _ _ Hn) in Hrun.
      injection Hrun as _ <-. exists []. cbn. rewrite app_nil_r.
      split; [done|]. by intros. }
  destruct (download_summary _ _ _ _ _ _ _ _ _ _ _ Hn Hrun)
    as (p & _ & _ & Ht & _).
  eexists. split; [exact Ht|]. intros name Hin.
  apply events_of_makedirs in Hin. congruence.
Qed.

(** The destination of the examples: the directory is [data]. *)
Lemma directory_made_for_joined_path_witness :
  dirname output_path = py "data".
Proof.
  exact (proj1 (directory_made_for_joined_path
                  quiet_env naive_midnight (py "000") wind_then_temperature
                  (py "dat") 97%N (py "out.grib2")
                  DEFAULT_BUCKET DEFAULT_REGION empty_world
                  (Raise IndexError) empty_world
                  ltac:(discriminate)
                  ltac:(vm_compute; intros H;
                        repeat (destruct H as [H|H]; [discriminate H|]);
                        exact H))).
Defined.

(** ** Further properties of the timestamp *)

Lemma first_cycle_dates : all_from year_roundtrips 400 1 = true.
Proof. vm_cast_no_check (eq_refl true). Qed.

Lemma days_in_month_shift y m q :
  days_in_month (y + 400 * q) m = days_in_month y m.
Proof. unfold days_in_month. by rewrite is_leap_shift. Qed.

Lemma first_cycle_date y m d :
  1 <= y <= 400 -> 1 <= m <= 12 -> 1 <= d <= days_in_month y m ->
  has_date (ymd2ord y m d) y m d = true.
Proof.
  intros Hy Hm Hd.
  assert (Hyear : year_roundtrips y = true).
  { apply (all_from_spec year_roundtrips 400 1 first_cycle_dates).
    change (Z.of_nat 400) with 400. lia. }
  assert (Hmonth : month_roundtrips y m = true).
  { apply (all_from_spec (month_roundtrips y) 12 1 Hyear).
    change (Z.of_nat 12) with 12. lia. }
  apply (all_from_spec (fun d => has_date (ymd2ord y m d) y m d)
                       (Z.to_nat (days_in_month y m)) 1 Hmonth).
  lia.
Qed.

Lemma has_date_spec n y m d :
  has_date n y m d = true ->
  ord2ymd n = (y, m, d)
  /\ 1 <= n <= DI400Y
  /\ (y < 400 -> n <= DI400Y - 366).
Proof.
  unfold has_date. destruct (ord2ymd n) as [[y' m'] d']. intros H.
  apply andb_prop in H as [H Hhi]. apply andb_prop in H as [H Hlo].
  apply andb_prop in H as [H Ed]. apply andb_prop in H as [Ey Em].
  apply Z.eqb_eq in Ey, Em, Ed. apply Z.leb_le in Hlo, Hhi.
  subst y' m' d'. split; [done|].
  destruct (Z.ltb_spec y 400); unfold DI400Y in *; lia.
Qed.

Lemma ord2ymd_later_cycle n y q m d :
  ord2ymd n = (y, m, d) -> 1 <= n <= DI400Y ->
  ord2ymd (n + DI400Y * q) = (y + 400 * q, m, d).
Proof.
  intros Hord Hn.
  replace (n + DI400Y * q) with (DI400Y * q + (n - 1) + 1) by lia.
  rewrite ord2ymd_shift by lia.
  replace (n - 1 + 1) with n by lia. by rewrite Hord.
Qed.

Lemma ord2ymd_ymd2ord y m d :
  1 <= y <= 9999 -> 1 <= m <= 12 -> 1 <= d <= days_in_month y m ->
  ord2ymd (ymd2ord y m d) = (y, m, d)
  /\ 1 <= ymd2ord y m d <= MAXORDINAL.
Proof.
  intros Hy Hm Hd.
  pose proof (Z.div_mod (y - 1) 400 ltac:(done)) as Hdm.
  pose proof (Z.mod_pos_bound (y - 1) 400 ltac:(done)) as Hr.
  set (q := (y - 1) / 400) in *. set (y0 := (y - 1) mod 400 + 1).
  assert (Ey : y = y0 + 400 * q) by (subst y0; lia).
  assert (Hq : 0 <= q <= 24) by (subst y0; lia).
  assert (Hy0 : 1 <= y0 <= 400) by (subst y0; lia).
  assert (Hlast : y0 < 400 \/ q <= 23) by lia.
  clearbody y0 q. clear Hdm Hr. subst y.
  rewrite days_in_month_shift in Hd. rewrite ymd2ord_shift.
  destruct (has_date_spec (ymd2ord y0 m d) y0 m d
              (first_cycle_date y0 m d Hy0 Hm Hd)) as (Hord & Hn & Hn').
  split; [by apply ord2ymd_later_cycle|].
  revert Hn Hn'. generalize (ymd2ord y0 m d). intros n Hn Hn'.
  unfold MAXORDINAL, DI400Y in *. lia.
Qed.

Lemma astimezone_utc_same_instant dt1 off1 dt2 off2 :
  wall_microseconds dt1 - off1 = wall_microseconds dt2 - off2 ->
  astimezone_utc dt1 off1 = astimezone_utc dt2 off2.
Proof. unfold astimezone_utc. by intros ->. Qed.

Lemma astimezone_utc_of_utc dt :
  valid_datetime dt ->
  astimezone_utc dt 0 = Ok (replace_tzinfo_utc dt).
Proof.
  intros (Hy & Hm & Hd & Hh & Hmi & Hs & Hus & _).
  destruct (ord2ymd_ymd2ord _ _ _ Hy Hm Hd) as [Hord Hrange].
  unfold astimezone_utc, wall_microseconds.
  set (n := ymd2ord (year dt) (month dt) (day dt)) in *.
  set (tod := ((hour dt * 60 + minute dt) * 60 + second dt) * US_PER_SECOND
              + microsecond dt).
  assert (Htod : 0 <= tod < US_PER_DAY)
    by (subst tod; unfold US_PER_DAY, US_PER_SECOND in *; lia).
  replace (n * US_PER_DAY + ((hour dt * 60 + minute dt) * 60 + second dt)
                            * US_PER_SECOND + microsecond dt - 0)
    with (tod + n * US_PER_DAY) by (subst tod; lia).
  rewrite Z.div_add, Z.mod_add by done.
  rewrite (Z.div_small tod), (Z.mod_small tod), Z.add_0_l by done.
  assert (Hin : (0 <? n) && (n <=? MAXORDINAL) = true).
  { apply andb_true_intro. split; [apply Z.ltb_lt|apply Z.leb_le]; lia. }
  rewrite Hin, Hord. unfold replace_tzinfo_utc. f_equal.
  assert (Hsecs : tod / US_PER_SECOND
                  = (hour dt * 60 + minute dt) * 60 + second dt).
  { subst tod. rewrite Z.div_add_l by done.
    rewrite (Z.div_small (microsecond dt)) by done. lia. }
  assert (Hmicro : tod mod US_PER_SECOND = microsecond dt).
  { subst tod. rewrite Z.add_comm, Z.mod_add by done.
    by apply Z.mod_small. }
  rewrite Hsecs, Hmicro.
  f_equal; unfold US_PER_SECOND in *; Z.div_mod_to_equations; lia.
Qed.

Lemma normalize_utc_by_instant dt :
  valid_datetime dt ->
  normalize_utc dt = astimezone_utc dt (default 0 (tzinfo dt)).
Proof.
  intros Hv. unfold normalize_utc.
  destruct (tzinfo dt) as [off|] eqn:Htz; [done|].
  by rewrite astimezone_utc_of_utc.
Qed.

(** X18.  Bringing a valid timestamp to UTC a second time changes
    nothing: the UTC timestamp is its own UTC timestamp. *)
Theorem normalize_utc_idempotent dt utc :
  valid_datetime dt ->
  normalize_utc dt = Ok utc ->
  normalize_utc utc = Ok utc.
Proof.
  intros Hv Hn. rewrite (normalize_utc_by_instant dt Hv) in Hn.
  pose proof (astimezone_utc_instant _ _ _ Hn) as [Hwall Htz].
  unfold normalize_utc. rewrite Htz. rewrite <- Hn.
  apply astimezone_utc_same_instant. lia.
Qed.

Ltac valid_example :=
  repeat split; vm_compute; first [reflexivity | discriminate].

(** 01:30 at UTC+08:00 is brought to 17:30 UTC of the day before, and
    that to itself. *)
Lemma normalize_utc_idempotent_witness :
  exists utc,
    normalize_utc shanghai_morning = Ok utc
    /\ hour utc = 17
    /\ normalize_utc utc = Ok utc.
Proof.
  destruct (normalize_utc shanghai_morning) as [utc|] eqn:Hn;
    [|vm_compute in Hn; discriminate].
  exists utc. split; [reflexivity|]. split.
  - vm_compute in Hn. by injection Hn as <-.
  - apply (normalize_utc_idempotent shanghai_morning utc); [valid_example|exact Hn].
Defined.

(** X19.  The timestamp enters a run by its instant alone: two valid
    timestamps of the same instant, a naive one being taken as UTC, are
    brought to the same UTC timestamp, and the two runs are the same in
    every respect. *)
Theorem same_instant_same_run env dt1 dt2 fh els path bucket region w :
  valid_datetime dt1 -> valid_datetime dt2 ->
  instant dt1 = instant dt2 ->
  normalize_utc dt1 = normalize_utc dt2
  /\ download_gfs_data env dt1 fh els path bucket region w
     = download_gfs_data env dt2 fh els path bucket region w.
Proof.
  intros Hv1 Hv2 Hsame.
  assert (Hn : normalize_utc dt1 = normalize_utc dt2).
  { rewrite !normalize_utc_by_instant by done.
    by apply astimezone_utc_same_instant. }
  split; [exact Hn|].
  unfold download_gfs_data, bind at 1 3, time.
  unfold bind at 1 2, lift. by rewrite Hn.
Qed.

(** 01:30 at UTC+08:00 on 1 March and 16:30 at UTC-01:00 on 28 February
    are one instant, and give one run. *)
Lemma same_instant_same_run_witness :
  instant shanghai_morning = instant azores_afternoon
  /\ download_gfs_data quiet_env shanghai_morning (py "000")
                        wind_then_temperature output_path
                        DEFAULT_BUCKET DEFAULT_REGION empty_world
     = download_gfs_data quiet_env azores_afternoon (py "000")
                         wind_then_temperature output_path
                         DEFAULT_BUCKET DEFAULT_REGION empty_world.
Proof.
  split; [vm_compute; reflexivity|].
  apply (same_instant_same_run quiet_env shanghai_morning azores_afternoon);
    [valid_example|valid_example|vm_compute; reflexivity].
Defined.

(** ** The clock *)

Lemma download_bytes_any_clock env clock bucket key s e w :
  download_bytes (with_clock env clock) bucket key s e w
  = download_bytes env bucket key s e w.
Proof. by rewrite !download_bytes_run. Qed.

Lemma fetch_loop_any_clock env clock bucket key :
  forall selected merged total w,
    fetch_loop (with_clock env clock) bucket key selected merged total w
    = fetch_loop env bucket key selected merged total w.
Proof.
  induction selected as [|elem rest IH]; intros merged total w; [done|].
  cbn [fetch_loop]. unfold bind. rewrite download_bytes_any_clock.
  destruct (download_bytes env _ _ _ _ w) as [[chunk|ex] w1]; [apply IH|done].
Qed.

Lemma report_any_clock result0 total t1 t2 w :
  forget_timing
    (bind (lift (avg_speed_mbps total t1))
          (fun speed =>
             bind (lift (megabytes total))
                  (fun size => ret (with_success result0 size t1 speed))) w)
  = forget_timing
      (bind (lift (avg_speed_mbps total t2))
            (fun speed =>
               bind (lift (megabytes total))
                    (fun size => ret (with_success result0 size t2 speed))) w).
Proof.
  assert (Hone : forall t,
    forget_timing
      (bind (lift (avg_speed_mbps total t))
            (fun speed =>
               bind (lift (megabytes total))
                    (fun size => ret (with_success result0 size t speed))) w)
    = (match megabytes total with
       | Ok size => Ok (without_timing (with_success result0 size 0 0))
       | Raise e => Raise e
       end, w)).
  { intros t. unfold bind, lift, ret, avg_speed_mbps.
    destruct (positive t) eqn:Hpos.
    - destruct (megabytes total) as [size|e]; cbn [rbind]; [|done].
      rewrite float_truediv_nonzero; [done|].
      apply positive_spec in Hpos. intros Hz. rewrite Hz in Hpos.
      by apply Qlt_irrefl in Hpos.
    - by destruct (megabytes total). }
  by rewrite !Hone.
Qed.

Lemma forget_timing_bind {A} (m : M A) k1 k2 w :
  (forall a w1, forget_timing (k1 a w1) = forget_timing (k2 a w1)) ->
  forget_timing (bind m k1 w) = forget_timing (bind m k2 w).
Proof.
  intros Hk. unfold bind. destruct (m w) as [[a|e] w1]; [apply Hk|done].
Qed.

Lemma save_and_report_any_clock env clock result0 path t1 t2 data total w :
  forget_timing
    (save_and_report (with_clock env clock) result0 path t1 data total w)
  = forget_timing (save_and_report env result0 path t2 data total w).
Proof.
  unfold save_and_report.
  change (makedirs (with_clock env clock)) with (makedirs env).
  change (open_wb (with_clock env clock)) with (open_wb env).
  change (write_all (with_clock env clock)) with (write_all env).
  apply forget_timing_bind. intros _ w1.
  apply forget_timing_bind. intros _ w2.
  apply forget_timing_bind. intros _ w3.
  unfold bind at 1 4, time. cbn [time_time with_clock].
  apply report_any_clock.
Qed.

Lemma forget_timing_try_except body1 body2 result0 w :
  forget_timing (body1 w) = forget_timing (body2 w) ->
  forget_timing
    (try_except body1
                (fun e => ret (with_error result0 (ErrorDownloading e))) w)
  = forget_timing
      (try_except body2
                  (fun e => ret (with_error result0 (ErrorDownloading e))) w).
Proof.
  intros H. apply (f_equal fst) in H as Hr. apply (f_equal snd) in H as Hw.
  unfold try_except, forget_timing, ret in *.
  destruct (body1 w) as [[o1|e1] w1], (body2 w) as [[o2|e2] w2];
    cbn [fst snd] in *; congruence.
Qed.

Lemma download_as_try env dt fh els path bucket region w :
  download_gfs_data env dt fh els path bucket region w
  = match normalize_utc dt with
    | Raise e => (Raise e, after_clock w)
    | Ok utc =>
        let result := initial_result (platform env) utc fh els path in
        try_except
          (try_body env result (strftime_Ymd (platform env) utc)
                    (strftime_H utc) fh els path bucket region
                    (time_time env w))
          (fun e => ret (with_error result (ErrorDownloading e)))
          (after_clock w)
    end.
Proof.
  unfold download_gfs_data, bind, time, lift.
  by destruct (normalize_utc dt).
Qed.

(** X20.  The clock takes no part in what a run does: with any other
    clock the run makes the same calls, leaves the same files, and
    returns the same outcome, or raises the same exception, but for the
    time and the speed that the outcome reports.  No reading of the
    clock makes a run fail. *)
Theorem clock_changes_only_time_and_speed
        env clock dt fh els path bucket region w :
  forget_timing
    (download_gfs_data (with_clock env clock) dt fh els path bucket region w)
  = forget_timing (download_gfs_data env dt fh els path bucket region w).
Proof.
  rewrite !download_as_try.
  destruct (normalize_utc dt) as [utc|e]; [|done].
  change (platform (with_clock env clock)) with (platform env).
  cbv zeta. apply forget_timing_try_except.
  unfold try_body.
  change (new_client (with_clock env clock)) with (new_client env).
  change (select_elements (with_clock env clock)) with (select_elements env).
  apply forget_timing_bind. intros _ w1.
  apply forget_timing_bind. intros selected w2.
  destruct selected as [|elem rest]; [done|].
  unfold bind. rewrite fetch_loop_any_clock.
  destruct (fetch_loop env _ _ _ _ _ _) as [[fetched|e] w3]; [|done].
  apply save_and_report_any_clock.
Qed.

(** ** The buffer and its count *)

Lemma download_bytes_ok env bucket key s e w data w' :
  download_bytes env bucket key s e w = (Ok data, w') ->
  w' = after_clock (after_range_read bucket key s e w).
Proof.
  rewrite download_bytes_run.
  destruct (range_header env s e); [|done].
  destruct (s3_get_object env _ _); [|done].
  destruct (_ <=? _); [done|]. by intros [= _ <-].
Qed.

(** X21.  The fetch loop keeps [total_bytes] in step with [merged_data]:
    when it ends without exception the buffer is the one it started
    with, with bytes added at its end, and the count has grown by the
    number of those bytes; so a count that was the length of the buffer
    is the length of the buffer still.  The loop has read the clock twice
    for each record and changed no file. *)
Theorem fetch_loop_keeps_count
        env bucket key selected merged total w merged' total' w' :
  fetch_loop env bucket key selected merged total w
  = (Ok (merged', total'), w') ->
  (exists data,
      merged' = merged ++ data
      /\ total' = total + Z.of_nat (length data))
  /\ (total = Z.of_nat (length merged) -> total' = Z.of_nat (length merged'))
  /\ clock_reads w' = (clock_reads w + 2 * length selected)%nat
  /\ files w' = files w.
Proof.
  revert merged total w.
  induction selected as [|elem rest IH]; intros merged total w Hrun.
  - cbn in Hrun. unfold ret in Hrun. injection Hrun as <- <- <-.
    split; [exists []; rewrite app_nil_r; split; [done|cbn; lia]|].
    split; [done|]. split; [cbn; lia|done].
  - cbn [fetch_loop] in Hrun. unfold bind in Hrun.
    destruct (download_bytes env bucket key (start_byte elem) (end_byte elem) w)
      as [[chunk|ex] w1] eqn:Hchunk; [|done].
    apply download_bytes_ok in Hchunk. subst w1.
    apply IH in Hrun as ((data & -> & ->) & _ & Hclock & Hfiles).
    split; [|split; [|split]].
    + exists (chunk ++ data). rewrite <- app_assoc, length_app.
      split; [done|lia].
    + intros ->. rewrite !length_app. lia.
    + rewrite Hclock. cbn. lia.
    + by rewrite Hfiles.
Qed.

(** The two records of the example, fetched into an empty buffer: five
    bytes, counted as five, and four readings of the clock. *)
Lemma fetch_loop_keeps_count_witness :
  exists merged' total' w',
    fetch_loop quiet_env (py "bucket") (py "key")
               (GribIdx.elements two_records) [] 0 empty_world
    = (Ok (merged', total'), w')
    /\ total' = Z.of_nat (length merged')
    /\ clock_reads w' = 4%nat.
Proof.
  destruct (fetch_loop quiet_env (py "bucket") (py "key")
              (GribIdx.elements two_records) [] 0 empty_world)
    as [[[merged' total']|e] w'] eqn:Hrun;
    [|vm_compute in Hrun; discriminate].
  exists merged', total', w'. split; [reflexivity|].
  destruct (fetch_loop_keeps_count _ _ _ _ _ _ _ _ _ _ Hrun)
    as (_ & Hcount & Hclock & _).
  split; [by apply Hcount|exact Hclock].
Defined.

(** ** The decoding of the index *)

Ltac decode_step H :=
  cbv zeta in H;
  match type of H with
  | context [if ?c then _ else _] => destruct c eqn:?
  | context [match ?l with [] => _ | _ :: _ => _ end] => destruct l
  | context [option_map _ ?o] => destruct o eqn:?
  end;
  cbn [option_map] in H; try discriminate H.

Ltac decode_bounds :=
  repeat match goal with
         | H : (_ && _) = true |- _ => apply andb_prop in H as [? ?]
         | H : (_ || _) = false |- _ => apply orb_false_elim in H as [? ?]
         | H : (_ && _) = false |- _ => apply andb_false_iff in H as [?|?]
         | H : negb _ = false |- _ => apply negb_false_iff in H
         | H : continuation _ = true |- _ => unfold continuation in H
         | H : (_ <=? _)%N = true |- _ => apply N.leb_le in H
         | H : (_ <=? _)%N = false |- _ => apply N.leb_gt in H
         | H : (_ <? _)%N = true |- _ => apply N.ltb_lt in H
         | H : (_ <? _)%N = false |- _ => apply N.ltb_ge in H
         end.

Lemma utf8_decode_scalar_values :
  forall n bs text,
    (length bs <= n)%nat ->
    utf8_decode bs = Some text ->
    Forall scalar_value text /\ (length text <= length bs)%nat.
Proof.
  induction n as [|n IH]; intros bs text Hlen Hdec.
  - destruct bs; [|cbn in Hlen; lia]. cbn in Hdec. injection Hdec as <-.
    split; [constructor|done].
  - destruct bs as [|b0 r0]; [injection Hdec as <-; split; [constructor|done]|].
    cbn [utf8_decode] in Hdec. cbn [length] in Hlen |- *.
    repeat decode_step Hdec;
      injection Hdec as <-;
      match goal with
      | Hrest : utf8_decode ?r = Some ?t |- _ =>
          apply IH in Hrest as [Hall Hshort]; [|cbn [length] in *; lia]
      end;
      (split; [constructor; [|exact Hall]|cbn [length] in *; lia]);
      decode_bounds; unfold scalar_value; lia.
Qed.

Lemma utf8_decode_ascii bs :
  Forall (fun b => (b < 128)%N) bs -> utf8_decode bs = Some bs.
Proof.
  induction 1 as [|b bs Hb _ IH]; [done|].
  cbn [utf8_decode]. apply N.ltb_lt in Hb. by rewrite Hb, IH.
Qed.

(** X22.  What [decode] makes of the bytes of the index: a body of ASCII
    bytes is decoded to the same code points and never raises; and
    whenever a body is decoded, the text holds Unicode scalar values
    only, no more of them than the body has bytes. *)
Theorem decode_utf8_text body :
  (Forall (fun b => (Byte.to_N b < 128)%N) body ->
   decode_utf8 body = Ok (List.map Byte.to_N body))
  /\ (forall text,
        decode_utf8 body = Ok text ->
        Forall scalar_value text /\ (length text <= length body)%nat).
Proof.
  unfold decode_utf8. split.
  - intros Hascii. rewrite utf8_decode_ascii; [done|].
    induction Hascii; constructor; done.
  - intros text Hdec.
    destruct (utf8_decode _) as [s|] eqn:Hs; [|done]. injection Hdec as ->.
    apply (utf8_decode_scalar_values _ _ _ (le_n _)) in Hs.
    by rewrite length_map in Hs.
Qed.

(** The index of the examples is ASCII and decodes to itself; two bytes
    that are no UTF-8 raise. *)
Lemma decode_utf8_text_witness :
  decode_utf8 (list_byte_of_string small_index) = Ok (py small_index)
  /\ decode_utf8 [xff; xfe]%byte = Raise UnicodeDecodeError.
Proof.
  split; [|vm_compute; reflexivity].
  rewrite (proj1 (decode_utf8_text (list_byte_of_string small_index))).
  - vm_compute. reflexivity.
  - set (body := list_byte_of_string small_index). vm_compute in body.
    subst body. repeat (constructor; [vm_compute; reflexivity|]). constructor.
Defined.

(** ** The strings of the timestamp *)

Lemma small_numbers_two_digits : all_from two_digits 32 0 = true.
Proof. vm_compute. reflexivity. Qed.

Lemma years_in_digits : all_from year_digits (Z.to_nat 9999) 1 = true.
Proof. vm_compute. reflexivity. Qed.

Lemma two_digits_spec n :
  0 <= n <= 31 ->
  digits_only (zero_pad 2 n) = true /\ length (zero_pad 2 n) = 2%nat.
Proof.
  intros Hn.
  pose proof (all_from_spec two_digits 32 0 small_numbers_two_digits n) as H.
  change (Z.of_nat 32) with 32 in H. specialize (H ltac:(lia)).
  unfold two_digits in H. apply andb_prop in H as [Hd Hl].
  by apply Nat.eqb_eq in Hl.
Qed.

Lemma year_digits_spec y :
  1 <= y <= 9999 ->
  digits_only (decimal y) = true
  /\ digits_only (zero_pad 4 y) = true
  /\ length (zero_pad 4 y) = 4%nat
  /\ (1000 <= y -> length (decimal y) = 4%nat).
Proof.
  intros Hy.
  pose proof (all_from_spec year_digits _ 1 years_in_digits y) as H.
  rewrite Z2Nat.id in H by done. specialize (H ltac:(lia)).
  unfold year_digits in H.
  apply andb_prop in H as [H Hfour]. apply andb_prop in H as [H Hl].
  apply andb_prop in H as [Hd Hp]. apply Nat.eqb_eq in Hl.
  repeat split; try done. intros Hbig.
  apply orb_prop in Hfour as [Hsmall|Hfour]; [apply Z.ltb_lt in Hsmall; lia|].
  by apply Nat.eqb_eq in Hfour.
Qed.

Lemma days_in_month_bounded y m : 1 <= m <= 12 -> days_in_month y m <= 31.
Proof.
  intros Hm. unfold days_in_month.
  destruct (_ && _); [lia|].
  assert (Hcases : m = 1 \/ m = 2 \/ m = 3 \/ m = 4 \/ m = 5 \/ m = 6 \/ m = 7
                   \/ m = 8 \/ m = 9 \/ m = 10 \/ m = 11 \/ m = 12) by lia.
  destruct Hcases as [->|[->|[->|[->|[->|[->|[->|[->|[->|[->|[->| ->]]]]]]]]]]];
    vm_compute; discriminate.
Qed.

Lemma digits_only_app s t :
  digits_only (s ++ t) = digits_only s && digits_only t.
Proof. apply forallb_app. Qed.

Lemma strftime_Ymd_digits pf dt :
  valid_datetime dt ->
  digits_only (strftime_Ymd pf dt) = true
  /\ (1000 <= year dt \/ strftime_pads_year pf = true ->
      length (strftime_Ymd pf dt) = 8%nat).
Proof.
  intros (Hy & Hm & Hd & _).
  pose proof (days_in_month_bounded (year dt) _ Hm) as Hdim.
  destruct (year_digits_spec _ Hy) as (Hdec & Hpad & Hpadlen & Hdeclen).
  destruct (two_digits_spec (month dt) ltac:(lia)) as [Hmd Hml].
  destruct (two_digits_spec (day dt) ltac:(lia)) as [Hdd Hdl].
  unfold strftime_Ymd. rewrite !digits_only_app, !length_app, Hmd, Hdd, Hml, Hdl.
  destruct (strftime_pads_year pf).
  - rewrite Hpad, Hpadlen. by split.
  - rewrite Hdec. split; [done|]. intros [Hbig|?]; [|done].
    by rewrite (Hdeclen Hbig).
Qed.

Lemma digits_have_no_slash s : digits_only s = true -> ~ In SLASH s.
Proof.
  unfold digits_only. rewrite forallb_forall. intros Hall Hin.
  apply Hall in Hin. vm_compute in Hin. discriminate.
Qed.

(** X24.  The destination that the script builds has the directory
    [data], whatever the valid forecast time and whatever the forecast
    hour, so long as the forecast hour has no slash: the script never
    asks [os.makedirs] for an empty name. *)
Theorem main_output_path_directory pf forecast_time fh :
  valid_datetime forecast_time ->
  ~ In SLASH fh ->
  dirname (main_output_path pf forecast_time fh) = py "data".
Proof.
  intros Hv Hfh.
  pose proof Hv as (_ & _ & _ & Hhour & _).
  destruct (two_digits_spec (hour forecast_time) ltac:(lia)) as [Hh _].
  destruct (strftime_Ymd_digits pf forecast_time Hv) as [Hd _].
  unfold main_output_path.
  set (file := py "gfs_" ++ strftime_Ymd pf forecast_time ++ py "_"
               ++ strftime_H forecast_time ++ py "_" ++ fh ++ py ".grib2").
  change (dirname (py "dat" ++ [97%N] ++ SLASH :: file) = py "dat" ++ [97%N]).
  apply dirname_join; [done|]. subst file. intros Hin.
  rewrite !in_app_iff in Hin.
  destruct Hin as [Hin|[Hin|[Hin|[Hin|[Hin|[Hin|Hin]]]]]];
    try (by apply digits_have_no_slash in Hin);
    try done;
    vm_compute in Hin;
    repeat (destruct Hin as [Hin|Hin]; [discriminate Hin|]); exact Hin.
Qed.

(** The destination of the script for midnight of 1 March 2025 and the
    forecast hour 384. *)
Lemma main_output_path_directory_witness :
  main_output_path example_platform naive_midnight (py "384")
  = py "data/gfs_20250301_00_384.grib2"
  /\ dirname (main_output_path example_platform naive_midnight (py "384"))
     = py "data".
Proof.
  split; [vm_compute; reflexivity|].
  apply (main_output_path_directory example_platform naive_midnight (py "384"));
    [valid_example|].
  vm_compute. intros Hin.
  repeat (destruct Hin as [Hin|Hin]; [discriminate Hin|]). exact Hin.
Defined.

(** * The run, stage by stage *)

(** ** The stages *)

Lemma format_int_cases pf n :
  (within_digit_limit pf n /\ format_int pf n = Ok (decimal n))
  \/ (~ within_digit_limit pf n /\ format_int pf n = Raise (ValueError [])).
Proof.
  unfold within_digit_limit, format_int.
  destruct (N.ltb_spec 0 (int_max_str_digits pf)) as [Hpos|Hzero];
    destruct (N.ltb_spec (int_max_str_digits pf) (digit_count n)) as [Hbig|Hfit];
    cbn [andb]; [right|left|left|left]; (split; [lia|done]).
Qed.

Lemma range_header_cases env s e :
  (within_digit_limit (platform env) s
   /\ within_digit_limit (platform env) (e - 1)
   /\ range_header env s e
      = Ok (py "bytes=" ++ decimal s ++ py "-" ++ decimal (e - 1)))
  \/ (~ (within_digit_limit (platform env) s
         /\ within_digit_limit (platform env) (e - 1))
      /\ range_header env s e = Raise (ValueError [])).
Proof.
  unfold range_header.
  destruct (format_int_cases (platform env) s) as [[Hs ->]|[Hs ->]];
    cbn [rbind]; [|right; split; [tauto|done]].
  destruct (format_int_cases (platform env) (e - 1)) as [[He ->]|[He ->]];
    cbn [rbind]; [by left|right; split; [tauto|done]].
Qed.

Lemma fetch_loop_raise_origin env bucket key :
  forall selected merged total w e w',
    fetch_loop env bucket key selected merged total w = (Raise e, w') ->
    e = ValueError [] \/ e = OverflowError
    \/ exists w0 request, s3_get_object env w0 request = Raise e.
Proof.
  induction selected as [|elem rest IH]; intros merged total w e w' Hrun;
    [done|].
  cbn [fetch_loop] in Hrun. unfold bind in Hrun.
  rewrite download_bytes_run in Hrun.
  destruct (range_header env _ _) as [h|ex] eqn:Hh.
  2:{ injection Hrun as <- _. left. exact (range_header_raise _ _ _ _ Hh). }
  destruct (s3_get_object env (after_clock w) _) as [chunk|ex] eqn:Hs.
  2:{ injection Hrun as <- _. right. right. eauto. }
  destruct (_ <=? _).
  - injection Hrun as <- _. right. by left.
  - by apply IH in Hrun.
Qed.

Lemma save_and_report_run env result0 path t0 data total ws :
  save_and_report env result0 path t0 data total ws
  = match makedirs_error env ws (dirname path) with
    | Some e => (Raise e, after_makedirs path ws)
    | None =>
        match open_fault env (after_makedirs path ws) path with
        | Some e => (Raise e, record_event (EvOpen path) (after_makedirs path ws))
        | None =>
            match write_fault env (after_open path ws) path data with
            | Some (n, e) =>
                (Raise e,
                 record_event (EvWrite path data)
                              (set_file path (take n data) (after_open path ws)))
            | None =>
                let ww := record_event (EvWrite path data)
                                       (set_file path data (after_open path ws)) in
                let elapsed := (time_time env ww - t0)%Q in
                (match megabytes total with
                 | Raise e => Raise e
                 | Ok size =>
                     Ok (with_success result0 size elapsed
                           (if positive elapsed then size / elapsed else 0)%Q)
                 end, after_clock ww)
            end
        end
    end.
Proof.
  unfold save_and_report, bind at 1, makedirs, makedirs_error.
  fold (after_makedirs path ws).
  destruct (dirname path) as [|c d] eqn:Hdir; [done|]. rewrite <- Hdir.
  destruct (mkdir_fault env ws (dirname path)) as [e|]; [done|].
  unfold bind at 1, open_wb.
  destruct (open_fault env (after_makedirs path ws) path) as [e|]; [done|].
  fold (after_open path ws).
  unfold bind at 1, write_all.
  destruct (write_fault env (after_open path ws) path data) as [[n e]|];
    [done|].
  unfold bind, time, lift, ret, avg_speed_mbps. cbv zeta.
  set (ww := record_event (EvWrite path data) _).
  fold (after_clock ww).
  destruct (positive (time_time env ww - t0)) eqn:Hpos.
  - destruct (megabytes total) as [size|e]; cbn [rbind]; [|done].
    rewrite float_truediv_nonzero; [done|].
    apply positive_spec in Hpos. intros Hz. rewrite Hz in Hpos.
    by apply Qlt_irrefl in Hpos.
  - by destruct (megabytes total).
Qed.

Lemma download_after_index env dt fh els path bucket region w utc selected :
  normalize_utc dt = Ok utc ->
  boto3_client env (after_clock w) region = None ->
  index_stage env (with_client region w)
              (the_index_request env utc fh bucket) els = Ok selected ->
  selected <> [] ->
  let result := initial_result (platform env) utc fh els path in
  let failure e := Ok (with_error result (ErrorDownloading e)) in
  download_gfs_data env dt fh els path bucket region w
  = match fetch_loop env bucket (the_grib_key env utc fh) selected [] 0
                     (with_index region (the_index_request env utc fh bucket) w)
    with
    | (Raise e, wf) => (failure e, wf)
    | (Ok (data, total), ws) =>
        match makedirs_error env ws (dirname path) with
        | Some e => (failure e, after_makedirs path ws)
        | None =>
            match open_fault env (after_makedirs path ws) path with
            | Some e =>
                (failure e, record_event (EvOpen path) (after_makedirs path ws))
            | None =>
                match write_fault env (after_open path ws) path data with
                | Some (n, e) =>
                    (failure e,
                     record_event (EvWrite path data)
                       (set_file path (take n data) (after_open path ws)))
                | None =>
                    let ww := record_event (EvWrite path data)
                                (set_file path data (after_open path ws)) in
                    let elapsed := (time_time env ww - time_time env w)%Q in
                    (match megabytes total with
                     | Raise e => failure e
                     | Ok size =>
                         Ok (with_success result size elapsed
                               (if positive elapsed then size / elapsed else 0)%Q)
                     end, after_clock ww)
                end
            end
        end
    end.
Proof.
  intros Hn Hclient Hstage Hne result failure.
  rewrite (download_run env dt fh els path bucket region w utc Hn).
  rewrite Hclient, Hstage. destruct selected as [|elem rest]; [done|].
  fold result. unfold try_except, bind.
  destruct (fetch_loop env _ _ _ _ _ _) as [[[data total]|e] ws]; [|done].
  cbn [fst snd]. rewrite save_and_report_run.
  destruct (makedirs_error env ws (dirname path)); [done|].
  destruct (open_fault env _ path); [done|].
  destruct (write_fault env _ path data) as [[n e]|]; [done|].
  cbv zeta. by destruct (megabytes total).
Qed.

Lemma fetch_loop_files env bucket key selected merged total w r w' :
  fetch_loop env bucket key selected merged total w = (r, w') ->
  files w' = files w.
Proof. intros Hrun. by apply fetch_loop_inv in Hrun as [Hf _]. Qed.

(** ** The range reads *)

Lemma store_answer_first env bucket key elem w :
  store_answer env bucket key [] elem w
  = s3_get_object env (after_clock w)
      (range_request bucket key (start_byte elem) (end_byte elem)).
Proof. reflexivity. Qed.

Lemma store_answer_later env bucket key first done elem w :
  store_answer env bucket key (first :: done) elem w
  = store_answer env bucket key done elem
      (after_clock
         (after_range_read bucket key (start_byte first) (end_byte first) w)).
Proof. reflexivity. Qed.

(** C7.  The fetch loop issues its range reads one after the other in
    match order, one for each record, each with the header
    [bytes=start-(end-1)], and goes on to the next record exactly when
    the store has answered the read before: the calls it adds to the
    trace are the requests of the first [k] records.  A loop that ends
    without an exception has issued one read for every record, and its
    buffer is the answers of the store in that order.  A loop that ends
    with an exception has had every earlier read answered, and stopped at
    one record for one of three reasons: a number of its header has more
    digits than [str] writes, and its read is not issued; or its read was
    issued and the store raised; or its read was answered and its length
    is too large for the log line. *)
Theorem range_reads_in_match_order
        env bucket key selected merged total w r w' :
  fetch_loop env bucket key selected merged total w = (r, w') ->
  exists k,
    (k <= length selected)%nat
    /\ trace w'
       = trace w
         ++ List.map
              (fun elem =>
                 EvGetObject
                   {| Bucket := bucket; Key := key;
                      Range := Some (py "bytes=" ++ decimal (start_byte elem)
                                     ++ py "-" ++ decimal (end_byte elem - 1)) |})
              (take k selected)
    /\ match r with
       | Ok (merged', total') =>
           k = length selected
           /\ exists chunks,
                length chunks = length selected
                /\ (forall i elem chunk,
                      selected !! i = Some elem ->
                      chunks !! i = Some chunk ->
                      store_answer env bucket key (take i selected) elem w
                      = Ok chunk)
                /\ merged' = merged ++ concat chunks
                /\ total' = total + Z.of_nat (length (concat chunks))
       | Raise e =>
           exists i elem,
             selected !! i = Some elem
             /\ (forall j before,
                   (j < i)%nat ->
                   selected !! j = Some before ->
                   exists chunk,
                     store_answer env bucket key (take j selected) before w
                     = Ok chunk)
             /\ ((k = i
                  /\ ~ header_formats (platform env) elem
                  /\ e = ValueError [])
                 \/ (k = S i
                     /\ header_formats (platform env) elem
                     /\ store_answer env bucket key (take i selected) elem w
                        = Raise e)
                 \/ (k = S i
                     /\ header_formats (platform env) elem
                     /\ (exists chunk,
                           store_answer env bucket key (take i selected) elem w
                           = Ok chunk)
                     /\ FLOAT_OVERFLOW * 1024
                        <= Z.abs (end_byte elem - start_byte elem)
                     /\ e = OverflowError))
       end
    /\ ((forall i elem,
           selected !! i = Some elem ->
           header_formats (platform env) elem
           /\ Z.abs (end_byte elem - start_byte elem) < FLOAT_OVERFLOW * 1024
           /\ exists chunk,
                store_answer env bucket key (take i selected) elem w = Ok chunk) ->
        k = length selected /\ exists fetched, r = Ok fetched).
Proof.
  intros Hrun.
  enough (Hmain :
    exists k,
      (k <= length selected)%nat
      /\ trace w'
         = trace w
           ++ List.map
                (fun elem =>
                   EvGetObject
                     {| Bucket := bucket; Key := key;
                        Range := Some (py "bytes=" ++ decimal (start_byte elem)
                                       ++ py "-" ++ decimal (end_byte elem - 1)) |})
                (take k selected)
      /\ match r with
         | Ok (merged', total') =>
             k = length selected
             /\ exists chunks,
                  length chunks = length selected
                  /\ (forall i elem chunk,
                        selected !! i = Some elem ->
                        chunks !! i = Some chunk ->
                        store_answer env bucket key (take i selected) elem w
                        = Ok chunk)
                  /\ merged' = merged ++ concat chunks
                  /\ total' = total + Z.of_nat (length (concat chunks))
         | Raise e =>
             exists i elem,
               selected !! i = Some elem
               /\ (forall j before,
                     (j < i)%nat ->
                     selected !! j = Some before ->
                     exists chunk,
                       store_answer env bucket key (take j selected) before w
                       = Ok chunk)
               /\ ((k = i
                    /\ ~ header_formats (platform env) elem
                    /\ e = ValueError [])
                   \/ (k = S i
                       /\ header_formats (platform env) elem
                       /\ store_answer env bucket key (take i selected) elem w
                          = Raise e)
                   \/ (k = S i
                       /\ header_formats (platform env) elem
                       /\ (exists chunk,
                             store_answer env bucket key (take i selected) elem w
                             = Ok chunk)
                       /\ FLOAT_OVERFLOW * 1024
                          <= Z.abs (end_byte elem - start_byte elem)
                       /\ e = OverflowError))
         end).
  { destruct Hmain as (k & Hk & Ht & Hr). exists k.
    split; [exact Hk|]. split; [exact Ht|]. split; [exact Hr|].
    intros Hall. destruct r as [[merged' total']|e].
    - split; [by destruct Hr|by eexists].
    - exfalso. destruct Hr as (i & elem & Hi & _ & Hwhy).
      destruct (Hall i elem Hi) as (Hf & Hsmall & chunk & Hchunk).
      destruct Hwhy as [(_ & Hnf & _)|[(_ & _ & Hraise)|(_ & _ & _ & Hbig & _)]];
        [by apply Hnf|congruence|lia]. }
  revert merged total w r w' Hrun.
  induction selected as [|first rest IH]; intros merged total w r w' Hrun.
  { cbn in Hrun. unfold ret in Hrun. injection Hrun as <- <-.
    exists 0%nat. split; [done|]. split; [cbn; by rewrite app_nil_r|].
    split; [done|]. exists []. cbn. rewrite app_nil_r.
    split; [done|]. split; [done|]. split; [done|lia]. }
  cbn [fetch_loop] in Hrun. unfold bind in Hrun.
  rewrite download_bytes_run in Hrun.
  destruct (range_header_cases env (start_byte first) (end_byte first))
    as [(Hs & He & Hh)|(Hno & Hh)]; rewrite Hh in Hrun.
  2:{ injection Hrun as <- <-. exists 0%nat.
      split; [cbn; lia|]. split; [cbn; by rewrite app_nil_r|].
      exists 0%nat, first. split; [done|]. split; [intros; lia|].
      left. split; [done|]. split; [exact Hno|done]. }
  assert (Hformats : header_formats (platform env) first) by done.
  rewrite <- store_answer_first in Hrun.
  destruct (store_answer env bucket key [] first w) as [chunk|ex] eqn:Hans.
  2:{ injection Hrun as <- <-. exists 1%nat.
      split; [cbn; lia|]. split; [done|].
      exists 0%nat, first. split; [done|]. split; [intros; lia|].
      right. left. split; [done|]. split; [exact Hformats|done]. }
  destruct (Z.leb_spec (FLOAT_OVERFLOW * 1024)
                       (Z.abs (end_byte first - start_byte first)))
    as [Hbig|Hsmall].
  { injection Hrun as <- <-. exists 1%nat.
    split; [cbn; lia|]. split; [done|].
    exists 0%nat, first. split; [done|]. split; [intros; lia|].
    right. right. split; [done|]. split; [exact Hformats|].
    split; [by eexists|done]. }
  apply IH in Hrun as (k & Hk & Ht & Hr). exists (S k).
  split; [cbn; lia|].
  split.
  { rewrite Ht. cbn [take List.map]. cbn. by rewrite <- app_assoc. }
  destruct r as [[merged' total']|e].
  - destruct Hr as (-> & chunks & Hlen & Hall & -> & ->).
    split; [done|]. exists (chunk :: chunks).
    split; [cbn; lia|]. split; [|split].
    + intros [|i] elem c Hi Hc; cbn in Hi, Hc.
      * injection Hi as <-. injection Hc as <-. exact Hans.
      * cbn [take]. rewrite store_answer_later. by eapply Hall.
    + cbn [concat]. by rewrite <- app_assoc.
    + cbn [concat]. rewrite length_app. lia.
  - destruct Hr as (i & elem & Hi & Hearlier & Hwhy).
    exists (S i), elem. split; [done|]. split.
    + intros [|j] before Hj Hb; cbn in Hb.
      * injection Hb as <-. by exists chunk.
      * cbn [take]. rewrite store_answer_later.
        apply (Hearlier j before); [lia|done].
    + cbn [take]. rewrite store_answer_later.
      destruct Hwhy as [(-> & Hnf & ->)|[(-> & Hf & Hraise)|(-> & Hf & Hc & Hb & ->)]].
      * left. split; [done|]. split; [exact Hnf|done].
      * right. left. split; [done|]. split; [exact Hf|exact Hraise].
      * right. right. split; [done|]. split; [exact Hf|]. by repeat split.
Qed.

(** Two records, the later in the file first: two reads, in that
    order, and the buffer holds the two answers in that order. *)
Lemma range_reads_in_match_order_witness :
  exists merged' total' w',
    fetch_loop quiet_env DEFAULT_BUCKET (py "grib")
               [ {| variable := py "UGRD"; level := py "10 m above ground";
                    start_byte := 3; end_byte := 5 |};
                 {| variable := py "TMP"; level := py "2 m above ground";
                    start_byte := 0; end_byte := 3 |} ] [] 0 empty_world
    = (Ok (merged', total'), w')
    /\ trace w'
       = [EvGetObject {| Bucket := DEFAULT_BUCKET; Key := py "grib";
                         Range := Some (py "bytes=3-4") |};
          EvGetObject {| Bucket := DEFAULT_BUCKET; Key := py "grib";
                         Range := Some (py "bytes=0-2") |}]
    /\ merged' = [x04; x05; x01; x02; x03]%byte.
Proof.
  pose (selected :=
          [ {| variable := py "UGRD"; level := py "10 m above ground";
               start_byte := 3; end_byte := 5 |};
            {| variable := py "TMP"; level := py "2 m above ground";
               start_byte := 0; end_byte := 3 |} ]).
  fold selected.
  destruct (fetch_loop quiet_env DEFAULT_BUCKET (py "grib") selected [] 0
                       empty_world) as [r w'] eqn:Hrun.
  destruct (range_reads_in_match_order _ _ _ _ _ _ _ _ _ Hrun)
    as (k & Hk & Ht & Hr & _).
  destruct r as [[merged' total']|e];
    [|apply (f_equal fst) in Hrun; vm_compute in Hrun; discriminate].
  destruct Hr as (-> & chunks & Hlen & Hall & -> & _).
  exists (concat chunks), total', w'. split; [reflexivity|].
  split; [rewrite Ht; reflexivity|].
  destruct chunks as [|c1 [|c2 [|c3 chunks]]]; try discriminate Hlen.
  pose proof (Hall 0%nat _ c1 eq_refl eq_refl) as H1.
  pose proof (Hall 1%nat _ c2 eq_refl eq_refl) as H2.
  vm_compute in H1, H2. injection H1 as <-. injection H2 as <-. reflexivity.
Defined.

(** ** The files *)

Lemma files_after_index region request w :
  files (with_index region request w) = files w.
Proof. reflexivity. Qed.

(** C2, corrected.  Whatever a run does, it writes to no file unless it
    comes to write the destination, and it comes to that only after the
    index was searched and every range read was answered: then the calls
    are the client, the index read, one range read for each matched
    record, the directory, the opening and the write of the whole buffer,
    and the one file changed is the destination.  Stage by stage: a run
    that does not get as far as the saving (the client, the index stage
    or a range read failed, or no record was matched) leaves every file
    as it was; so does a run whose directory cannot be made, and a run
    whose destination cannot be opened; a run whose write fails leaves
    at the destination the part of the buffer written before the
    failure, which is nothing of what was there before, as the opening
    emptied the file; and a run whose write is completed leaves the
    whole buffer there. *)
Theorem destination_untouched_before_write
        env dt fh els path bucket region w r w' :
  download_gfs_data env dt fh els path bucket region w = (r, w') ->
  (exists evs,
      trace w' = trace w ++ evs
      /\ ((forall path' data, ~ In (EvWrite path' data) evs) ->
          files w' = files w)
      /\ (forall path' data,
            In (EvWrite path' data) evs ->
            path' = path
            /\ exists utc selected chunks n,
                 normalize_utc dt = Ok utc
                 /\ fetched env utc fh els bucket selected chunks
                 /\ data = concat chunks
                 /\ evs = opening env utc fh bucket region
                          ++ range_reads env utc fh bucket selected
                          ++ [EvMakedirs (dirname path); EvOpen path;
                              EvWrite path data]
                 /\ files w' = <[path := take n data]> (files w)))
  /\ (forall e, normalize_utc dt = Raise e -> files w' = files w)
  /\ forall utc,
       normalize_utc dt = Ok utc ->
       ((forall selected data total ws,
            ~ reaches_save env utc fh els bucket region w
                           selected data total ws) ->
        files w' = files w)
       /\ forall selected data total ws,
            reaches_save env utc fh els bucket region w selected data total ws ->
            match makedirs_error env ws (dirname path) with
            | Some _ => files w' = files w
            | None =>
                match open_fault env (after_makedirs path ws) path with
                | Some _ => files w' = files w
                | None =>
                    match write_fault env (after_open path ws) path data with
                    | Some (n, _) =>
                        files w' = <[path := take n data]> (files w)
                    | None => files w' = <[path := data]> (files w)
                    end
                end
            end.
Proof.
  intros Hrun. split; [|split].
  { destruct (normalize_utc dt) as [utc|e] eqn:Hn.
    - destruct (download_summary _ _ _ _ _ _ _ _ _ _ _ Hn Hrun)
        as (p & Hj & Hf & Ht & _).
      exists (events_of env utc fh path bucket region p).
      split; [done|]. split.
      + intros Hno. rewrite Hf. by eapply files_of_without_write.
      + intros path' data Hin.
        apply (events_of_write _ _ _ els) in Hin
          as (-> & selected & chunks & n & -> & He & Hfs & Hfetched).
        split; [done|]. exists utc, selected, chunks, n.
        repeat split; try done; try apply Hfetched; try done.
        by rewrite Hf, Hfs.
    - rewrite (download_raises _ _ _ _ _ _ _ _ e Hn) in Hrun.
      injection Hrun as <- <-. exists []. cbn. rewrite app_nil_r.
      repeat split; try done. }
  { intros e Hn. rewrite (download_raises _ _ _ _ _ _ _ _ e Hn) in Hrun.
    by injection Hrun as _ <-. }
  intros utc Hn. split.
  - intros Hnever.
    pose proof (download_run env dt fh els path bucket region w utc Hn) as Hcases.
    cbv zeta in Hcases.
    destruct (boto3_client env (after_clock w) region) as [e|] eqn:Hclient.
    { rewrite Hcases in Hrun. by injection Hrun as _ <-. }
    destruct (index_stage env (with_client region w)
                (the_index_request env utc fh bucket) els)
      as [[|elem rest]|e] eqn:Hstage.
    + rewrite Hcases in Hrun. by injection Hrun as _ <-.
    + clear Hcases.
      rewrite (download_after_index env dt fh els path bucket region w utc
                 (elem :: rest) Hn Hclient Hstage ltac:(done)) in Hrun.
      destruct (fetch_loop env bucket _ (elem :: rest) [] 0 _)
        as [[[data total]|e] ws] eqn:Hfetch.
      * exfalso. apply (Hnever (elem :: rest) data total ws).
        by repeat split.
      * apply fetch_loop_files in Hfetch. injection Hrun as _ <-.
        by rewrite Hfetch.
    + rewrite Hcases in Hrun. by injection Hrun as _ <-.
  - intros selected data total ws (Hclient & Hstage & Hne & Hfetch).
    rewrite (download_after_index env dt fh els path bucket region w utc
               selected Hn Hclient Hstage Hne) in Hrun.
    rewrite Hfetch in Hrun. apply fetch_loop_files in Hfetch.
    rewrite files_after_index in Hfetch.
    destruct (makedirs_error env ws (dirname path)).
    { injection Hrun as _ <-. exact Hfetch. }
    destruct (open_fault env (after_makedirs path ws) path).
    { injection Hrun as _ <-. exact Hfetch. }
    destruct (write_fault env (after_open path ws) path data) as [[n e]|];
      injection Hrun as _ <-; cbn [files record_event set_file after_clock
                                   after_open after_makedirs];
      by rewrite insert_insert_eq, Hfetch.
Qed.

(** The connection drops at the second range read: the run does not
    get as far as the saving, and the file that was at the destination
    is as it was. *)
Lemma destination_untouched_before_write_witness :
  exists w',
    snd (download_gfs_data flaky_env naive_midnight (py "000")
           wind_then_temperature output_path DEFAULT_BUCKET DEFAULT_REGION
           world_with_output) = w'
    /\ files w' = files world_with_output.
Proof.
  destruct (download_gfs_data flaky_env naive_midnight (py "000")
              wind_then_temperature output_path DEFAULT_BUCKET DEFAULT_REGION
              world_with_output) as [r w'] eqn:Hrun.
  exists w'. split; [reflexivity|].
  destruct (destination_untouched_before_write _ _ _ _ _ _ _ _ _ _ Hrun)
    as (_ & _ & Hstages).
  destruct (Hstages (replace_tzinfo_utc naive_midnight) eq_refl)
    as [Hbefore _].
  apply Hbefore. intros selected data total ws (_ & Hstage & _ & Hfetch).
  vm_compute in Hstage. injection Hstage as <-.
  apply (f_equal fst) in Hfetch. vm_compute in Hfetch. discriminate.
Defined.

(** ** The outcome *)

(** C3, corrected.  A timestamp can be brought to UTC when it is naive,
    and when it is aware and its UTC time lies in the years 1 to 9999;
    otherwise the conversion, which stands before the [try], raises
    [OverflowError] to the caller.  For every input whose timestamp can
    be brought to UTC the call returns one outcome and raises nothing:
    the outcome carries the date and the cycle of the UTC timestamp, the
    forecast hour, the elements and the destination path as they were
    given, and when it is a failure it carries an error message.  Stage
    by stage, the first thing that fails decides the outcome, which is
    then a failure with the message of that exception: the making of the
    client; the index stage, that is the read of the index, its decoding,
    its parsing and the search for the targets; a range read of the fetch
    loop; the making of the directory; the opening of the destination;
    the write; and the conversion of the count to megabytes.  An index
    stage that finds no record gives the failure that says so.  When
    nothing fails the outcome is a success, with no message. *)
Theorem download_returns_outcome env dt fh els path bucket region w :
  (tzinfo dt = None -> normalize_utc dt = Ok (replace_tzinfo_utc dt))
  /\ (forall off,
        tzinfo dt = Some off ->
        (utc_in_range dt off -> exists utc, normalize_utc dt = Ok utc)
        /\ (~ utc_in_range dt off ->
            download_gfs_data env dt fh els path bucket region w
            = (Raise OverflowError, after_clock w)))
  /\ forall utc,
       normalize_utc dt = Ok utc ->
       exists out w',
         download_gfs_data env dt fh els path bucket region w = (Ok out, w')
         /\ date out = strftime_Ymd (platform env) utc
         /\ cycle out = strftime_H utc
         /\ forecast_hour out = fh
         /\ elements out = els
         /\ file_format out = py "grib2"
         /\ file_path out = Some path
         /\ (success out = false -> exists msg, error_message out = Some msg)
         /\ (success out = true -> error_message out = None)
         /\ match boto3_client env (after_clock w) region with
            | Some e => failed_with out e
            | None =>
                let request := the_index_request env utc fh bucket in
                match index_stage env (with_client region w) request els with
                | Raise e => failed_with out e
                | Ok [] =>
                    success out = false
                    /\ error_message out = Some (ElementsNotFound els)
                | Ok (first :: rest) =>
                    match fetch_loop env bucket (the_grib_key env utc fh)
                                     (first :: rest) [] 0
                                     (with_index region request w)
                    with
                    | (Raise e, _) => failed_with out e
                    | (Ok (data, total), ws) =>
                        match makedirs_error env ws (dirname path) with
                        | Some e => failed_with out e
                        | None =>
                            match open_fault env (after_makedirs path ws) path with
                            | Some e => failed_with out e
                            | None =>
                                match write_fault env (after_open path ws)
                                                  path data
                                with
                                | Some (_, e) => failed_with out e
                                | None =>
                                    match megabytes total with
                                    | Raise e => failed_with out e
                                    | Ok size =>
                                        success out = true
                                        /\ error_message out = None
                                        /\ file_size_mb out = Some size
                                    end
                                end
                            end
                        end
                    end
                end
            end.
Proof.
  split; [apply normalize_naive|]. split.
  { intros off Hoff.
    destruct (astimezone_utc_in_range dt off) as [Hin Hout].
    unfold normalize_utc. rewrite Hoff. split; [exact Hin|].
    intros Hno. apply download_raises.
    unfold normalize_utc. rewrite Hoff. by apply Hout. }
  intros utc Hn.
  destruct (run_exists env dt fh els path bucket region w) as (r & w' & Hrun).
  destruct (download_summary _ _ _ _ _ _ _ _ _ _ _ Hn Hrun)
    as (p & _ & _ & _ & ->).
  exists (outcome_of env utc fh els path p), w'.
  split; [exact Hrun|].
  destruct (outcome_of_echoes env utc fh els path p)
    as (H1 & H2 & H3 & H4 & H5 & H6 & H7 & H8).
  do 8 (split; [assumption|]).
  revert Hrun. generalize (outcome_of env utc fh els path p). clear -Hn.
  intros out Hrun.
  pose proof (download_run env dt fh els path bucket region w utc Hn) as Hcases.
  cbv zeta in Hcases |- *.
  destruct (boto3_client env (after_clock w) region) as [e|] eqn:Hclient.
  { rewrite Hcases in Hrun. by injection Hrun as <- _. }
  destruct (index_stage env (with_client region w)
              (the_index_request env utc fh bucket) els)
    as [[|first rest]|e] eqn:Hstage.
  - rewrite Hcases in Hrun. by injection Hrun as <- _.
  - clear Hcases.
    rewrite (download_after_index env dt fh els path bucket region w utc
               (first :: rest) Hn Hclient Hstage ltac:(done)) in Hrun.
    destruct (fetch_loop env bucket _ (first :: rest) [] 0 _)
      as [[[data total]|e] ws].
    2:{ by injection Hrun as <- _. }
    destruct (makedirs_error env ws (dirname path)).
    { by injection Hrun as <- _. }
    destruct (open_fault env (after_makedirs path ws) path).
    { by injection Hrun as <- _. }
    destruct (write_fault env (after_open path ws) path data) as [[n e]|].
    { by injection Hrun as <- _. }
    cbv zeta in Hrun.
    destruct (megabytes total); by injection Hrun as <- _.
  - rewrite Hcases in Hrun. by injection Hrun as <- _.
Qed.

(** A naive timestamp and a dropped connection: a failure outcome with
    the date, the cycle and the message of the read that failed; and an
    aware timestamp in range. *)
Lemma download_returns_outcome_witness :
  (exists out w',
     download_gfs_data flaky_env naive_midnight (py "000")
       wind_then_temperature output_path DEFAULT_BUCKET DEFAULT_REGION
       empty_world = (Ok out, w')
     /\ date out = py "20250301"
     /\ cycle out = py "00"
     /\ failed_with out (ExternalError (py "Connection reset by peer")))
  /\ exists utc, normalize_utc shanghai_morning = Ok utc.
Proof.
  destruct (download_returns_outcome flaky_env naive_midnight (py "000")
              wind_then_temperature output_path DEFAULT_BUCKET DEFAULT_REGION
              empty_world) as (Hnaive & _ & Hout).
  destruct (download_returns_outcome flaky_env shanghai_morning (py "000")
              wind_then_temperature output_path DEFAULT_BUCKET DEFAULT_REGION
              empty_world) as (_ & Haware & _).
  split.
  - destruct (Hout _ (Hnaive eq_refl))
      as (out & w' & Hrun & Hdate & Hcycle & _ & _ & _ & _ & _ & _ & Hstages).
    exists out, w'. split; [exact Hrun|].
    split; [rewrite Hdate; vm_compute; reflexivity|].
    split; [rewrite Hcycle; vm_compute; reflexivity|].
    clear -Hstages.
    change (boto3_client flaky_env (after_clock empty_world) DEFAULT_REGION)
      with (@None PyExc) in Hstages.
    cbv zeta in Hstages.
    match type of Hstages with
    | match ?stage with _ => _ end =>
        let s := eval vm_compute in stage in
        change stage with s in Hstages
    end.
    cbv iota in Hstages.
    match type of Hstages with
    | match ?fetch with _ => _ end =>
        let f := eval vm_compute in fetch in
        change fetch with f in Hstages
    end.
    exact Hstages.
  - apply (Haware _ eq_refl). vm_compute. split; [discriminate|reflexivity].
Defined.

(** ** The exceptions of a run, and the division *)

Lemma normalize_utc_raise dt e : normalize_utc dt = Raise e -> e = OverflowError.
Proof.
  unfold normalize_utc, astimezone_utc. destruct (tzinfo dt); [|done].
  destruct (_ && _); [|congruence].
  by destruct (ord2ymd _) as [[y m] d].
Qed.

Lemma index_stage_raise_origin env w request targets e :
  index_stage env w request targets = Raise e ->
  never_raises env e -> own_exception e.
Proof.
  intros Hstage (_ & Hstore & _).
  destruct (index_stage_raise _ _ _ _ _ Hstage)
    as [Hs|[->|[[literal ->]|[->| ->]]]]; unfold own_exception.
  - by apply Hstore in Hs.
  - tauto.
  - right. right. right. left. by eexists.
  - do 4 right. by eexists.
  - do 4 right. by eexists.
Qed.

Lemma reported_exception_is_own env dt fh els path bucket region w r w' e :
  download_gfs_data env dt fh els path bucket region w = (r, w') ->
  never_raises env e ->
  r = Raise e
  \/ (exists out, r = Ok out /\ error_message out = Some (ErrorDownloading e)) ->
  own_exception e.
Proof.
  intros Hrun Hnever Hreported.
  destruct (normalize_utc dt) as [utc|en] eqn:Hn.
  2:{ rewrite (download_raises _ _ _ _ _ _ _ _ en Hn) in Hrun.
      injection Hrun as <- _. apply normalize_utc_raise in Hn. subst en.
      destruct Hreported as [[= <-]|(out & [=] & _)]. by left. }
  assert (Hmsg : forall e', r = Ok (with_error
                                      (initial_result (platform env) utc fh els path)
                                      (ErrorDownloading e')) -> e' = e).
  { intros e' ->. destruct Hreported as [[=]|(out & [= <-] & Hm)].
    cbn in Hm. congruence. }
  pose proof (download_run env dt fh els path bucket region w utc Hn) as Hcases.
  cbv zeta in Hcases.
  pose proof Hnever as (Hclient' & Hstore & Hmkdir & Hopen & Hwrite).
  destruct (boto3_client env (after_clock w) region) as [ec|] eqn:Hclient.
  { rewrite Hcases in Hrun. injection Hrun as Hr _. symmetry in Hr.
    apply Hmsg in Hr. subst ec. by apply Hclient' in Hclient. }
  destruct (index_stage env (with_client region w)
              (the_index_request env utc fh bucket) els)
    as [[|first rest]|ei] eqn:Hstage.
  - rewrite Hcases in Hrun. injection Hrun as <- _.
    destruct Hreported as [[=]|(out & [= <-] & Hm)]. cbn in Hm. congruence.
  - clear Hcases.
    rewrite (download_after_index env dt fh els path bucket region w utc
               (first :: rest) Hn Hclient Hstage ltac:(done)) in Hrun.
    destruct (fetch_loop env bucket _ (first :: rest) [] 0 _)
      as [[[data total]|ef] ws] eqn:Hfetch.
    2:{ injection Hrun as Hr _. symmetry in Hr. apply Hmsg in Hr. subst ef.
        apply fetch_loop_raise_origin in Hfetch
          as [->|[->|(w0 & request & Hs)]]; unfold own_exception.
        - right. right. right. left. by eexists.
        - by left.
        - by apply Hstore in Hs. }
    destruct (makedirs_error env ws (dirname path)) as [em|] eqn:Hm.
    { injection Hrun as Hr _. symmetry in Hr. apply Hmsg in Hr. subst em.
      unfold makedirs_error in Hm. destruct (dirname path).
      - injection Hm as <-. right. right. by left.
      - by apply Hmkdir in Hm. }
    destruct (open_fault env (after_makedirs path ws) path) as [eo|] eqn:Ho.
    { injection Hrun as Hr _. symmetry in Hr. apply Hmsg in Hr. subst eo.
      by apply Hopen in Ho. }
    destruct (write_fault env (after_open path ws) path data)
      as [[n ew]|] eqn:Hw.
    { injection Hrun as Hr _. symmetry in Hr. apply Hmsg in Hr. subst ew.
      by apply Hwrite in Hw. }
    cbv zeta in Hrun. rewrite megabytes_overflow in Hrun.
    destruct (_ <=? _).
    + injection Hrun as Hr _. symmetry in Hr. apply Hmsg in Hr. subst e.
      by left.
    + injection Hrun as <- _.
      destruct Hreported as [[=]|(out & [= <-] & Hm')]. cbn in Hm'. congruence.
  - rewrite Hcases in Hrun. injection Hrun as Hr _. symmetry in Hr.
    apply Hmsg in Hr. subst ei.
    exact (index_stage_raise_origin _ _ _ _ _ Hstage Hnever).
Qed.

Lemma small_store_raise request e :
  small_store request = Raise e -> e = ExternalError (py "InvalidRange").
Proof.
  unfold small_store. destruct (Range request); [|done].
  repeat case_bool_decide; congruence.
Qed.

Lemma still_env_never_divides : never_raises still_env ZeroDivisionError.
Proof.
  repeat split; intros; cbn; try done.
  intros H. by apply small_store_raise in H.
Qed.

(** C9.  Neither the speed of one read nor the average speed of a run
    ever raises [ZeroDivisionError]: for an elapsed time that is zero or
    negative both are 0 and nothing is divided, and for a positive one
    they are the megabytes divided by that time.  So [download_bytes]
    returns what the store answered whatever the clock shows, and raises
    [ZeroDivisionError] only if the store raised it; a run whose
    collaborators never raise [ZeroDivisionError] neither raises nor
    reports one, whatever the clock shows; and the speed a successful run
    reports is its size divided by its time when that time is positive,
    and 0 when it is not. *)
Theorem throughput_never_divides_by_nonpositive chunk_size total_bytes elapsed :
  speed_mbps chunk_size elapsed <> Raise ZeroDivisionError
  /\ avg_speed_mbps total_bytes elapsed <> Raise ZeroDivisionError
  /\ ((elapsed <= 0)%Q ->
      speed_mbps chunk_size elapsed = Ok 0%Q
      /\ avg_speed_mbps total_bytes elapsed = Ok 0%Q)
  /\ ((0 < elapsed)%Q ->
      speed_mbps chunk_size elapsed
      = rbind (megabytes chunk_size) (fun mb => Ok (mb / elapsed)%Q)
      /\ avg_speed_mbps total_bytes elapsed
         = rbind (megabytes total_bytes) (fun mb => Ok (mb / elapsed)%Q))
  /\ (forall env bucket key s e w data,
        within_digit_limit (platform env) s ->
        within_digit_limit (platform env) (e - 1) ->
        Z.abs (e - s) < FLOAT_OVERFLOW * 1024 ->
        s3_get_object env (after_clock w) (range_request bucket key s e)
        = Ok data ->
        download_bytes env bucket key s e w
        = (Ok data, after_clock (after_range_read bucket key s e w)))
  /\ (forall env bucket key s e w w',
        download_bytes env bucket key s e w = (Raise ZeroDivisionError, w') ->
        s3_get_object env (after_clock w) (range_request bucket key s e)
        = Raise ZeroDivisionError)
  /\ (forall env dt fh els path bucket region w r w',
        download_gfs_data env dt fh els path bucket region w = (r, w') ->
        never_raises env ZeroDivisionError ->
        r <> Raise ZeroDivisionError
        /\ forall out,
             r = Ok out ->
             error_message out <> Some (ErrorDownloading ZeroDivisionError))
  /\ (forall env dt fh els path bucket region w out w',
        download_gfs_data env dt fh els path bucket region w = (Ok out, w') ->
        success out = true ->
        exists size time speed,
          file_size_mb out = Some size
          /\ download_time_s out = Some time
          /\ download_speed_mbs out = Some speed
          /\ ((time <= 0)%Q -> speed = 0%Q)
          /\ ((0 < time)%Q -> speed = (size / time)%Q)).
Proof.
  assert (Hown : ~ own_exception ZeroDivisionError).
  { intros [H|[H|[H|[[? H]|[? H]]]]]; discriminate H. }
  split; [|split; [|split; [|split; [|split; [|split; [|split]]]]]].
  5:{ intros env bucket key s e w data Hs He Hsmall Hanswer.
      rewrite download_bytes_run.
      destruct (range_header_cases env s e) as [(_ & _ & ->)|(Hno & _)];
        [|tauto].
      rewrite Hanswer.
      destruct (Z.leb_spec (FLOAT_OVERFLOW * 1024) (Z.abs (e - s))); [lia|done]. }
  5:{ intros env bucket key s e w w'. rewrite download_bytes_run.
      destruct (range_header env s e) as [h|ex] eqn:Hh.
      2:{ intros [= -> _]. by apply range_header_raise in Hh. }
      destruct (s3_get_object env (after_clock w) _) as [data|ex].
      - by destruct (_ <=? _).
      - by intros [= -> _]. }
  5:{ intros env dt fh els path bucket region w r w' Hrun Hnever. split.
      - intros ->. apply Hown.
        eapply reported_exception_is_own; [exact Hrun|exact Hnever|by left].
      - intros out -> Hmsg. apply Hown.
        eapply reported_exception_is_own; [exact Hrun|exact Hnever|].
        right. by exists out. }
  5:{ intros env dt fh els path bucket region w out w' Hrun Hok.
      destruct (normalize_utc dt) as [utc|e] eqn:Hn.
      2:{ by rewrite (download_raises _ _ _ _ _ _ _ _ e Hn) in Hrun. }
      destruct (download_summary _ _ _ _ _ _ _ _ _ _ _ Hn Hrun)
        as (p & Hj & _ & _ & [= ->]).
      destruct p; try discriminate Hok.
      destruct Hj as (_ & _ & Hsize & Hspeed).
      exists size, elapsed0, speed.
      split; [done|]. split; [done|]. split; [done|].
      destruct (avg_speed_mbps_cases _ _ _ _ Hsize Hspeed)
        as [[Hpos ->]|[Hneg ->]].
      - split; [|done]. intros Hle. exfalso. eapply Qlt_not_le; eauto.
      - split; [done|]. intros Hpos. by destruct Hneg. }
  all: unfold speed_mbps, avg_speed_mbps.
  all: destruct (positive elapsed) eqn:Hpos.
  all: try (apply positive_spec in Hpos;
            assert (Hnz : ~ (elapsed == 0)%Q)
              by (intros H; rewrite H in Hpos; by apply Qlt_irrefl in Hpos)).
  - destruct (megabytes_cases chunk_size) as [-> | ->]; cbn [rbind]; [|done].
    by rewrite float_truediv_nonzero.
  - done.
  - destruct (megabytes_cases total_bytes) as [-> | ->]; cbn [rbind]; [|done].
    by rewrite float_truediv_nonzero.
  - done.
  - intros Hle. exfalso. eapply Qlt_not_le; eauto.
  - done.
  - intros _. split.
    + destruct (megabytes chunk_size); cbn [rbind]; [|done].
      by apply float_truediv_nonzero.
    + destruct (megabytes total_bytes); cbn [rbind]; [|done].
      by apply float_truediv_nonzero.
  - intros Hlt. apply positive_spec in Hlt. congruence.
Qed.

(** Half a second backwards gives speed 0 and half a second forwards
    divides; and with a clock that stands still one read returns its
    three bytes, and the run is a success that reports the speed 0. *)
Lemma throughput_never_divides_by_nonpositive_witness :
  (speed_mbps 400 (-1 # 2) = Ok 0%Q /\ avg_speed_mbps 1300 (-1 # 2) = Ok 0%Q)
  /\ (speed_mbps 400 (1 # 2)
      = rbind (megabytes 400) (fun mb => Ok (mb / (1 # 2))%Q)
      /\ avg_speed_mbps 1300 (1 # 2)
         = rbind (megabytes 1300) (fun mb => Ok (mb / (1 # 2))%Q))
  /\ fst (download_bytes still_env DEFAULT_BUCKET (py "grib") 0 3 empty_world)
     = Ok [x01; x02; x03]%byte
  /\ exists out w',
       download_gfs_data still_env naive_midnight (py "000")
         wind_then_temperature output_path DEFAULT_BUCKET DEFAULT_REGION
         empty_world = (Ok out, w')
       /\ success out = true
       /\ error_message out <> Some (ErrorDownloading ZeroDivisionError)
       /\ download_speed_mbs out = Some 0%Q.
Proof.
  split; [|split; [|split]].
  - apply (throughput_never_divides_by_nonpositive 400 1300 (-1 # 2)).
    vm_compute. discriminate.
  - apply (throughput_never_divides_by_nonpositive 400 1300 (1 # 2)).
    reflexivity.
  - destruct (throughput_never_divides_by_nonpositive 0 0 0)
      as (_ & _ & _ & _ & Hread & _).
    rewrite (Hread still_env DEFAULT_BUCKET (py "grib") 0 3 empty_world
               [x01; x02; x03]%byte);
      [reflexivity
      |right; vm_compute; discriminate
      |right; vm_compute; discriminate
      |vm_compute; reflexivity
      |vm_compute; reflexivity].
  - destruct (download_gfs_data still_env naive_midnight (py "000")
                wind_then_temperature output_path DEFAULT_BUCKET
                DEFAULT_REGION empty_world) as [r w'] eqn:Hrun.
    assert (Hr : exists out, r = Ok out /\ success out = true).
    { vm_compute in Hrun. injection Hrun as <- _. eexists. split; reflexivity. }
    destruct Hr as (out & -> & Hok).
    destruct (throughput_never_divides_by_nonpositive 0 0 0)
      as (_ & _ & _ & _ & _ & _ & Hnever & Hreport).
    destruct (Hnever _ _ _ _ _ _ _ _ _ _ Hrun still_env_never_divides)
      as [_ Hmsg].
    destruct (Hreport _ _ _ _ _ _ _ _ _ _ Hrun Hok)
      as (size & time & speed & _ & Htime & Hspeed & Hzero & _).
    exists out, w'. split; [reflexivity|]. split; [exact Hok|].
    split; [by apply Hmsg|].
    rewrite Hspeed. f_equal. apply Hzero.
    assert (Ht : download_time_s out = Some 0%Q).
    { vm_compute in Hrun. by injection Hrun as <- _. }
    rewrite Ht in Htime. injection Htime as <-. apply Qle_refl.
Defined.

(** ** The directory and the strings of the timestamp *)

(** X16.  The directory part of a path is empty exactly when the path
    has no slash; so with a destination that is a bare file name no run
    succeeds and no run changes a file, whatever the store serves. *)
Theorem bare_file_name_never_succeeds
        env dt fh els path bucket region w out w' :
  (dirname path = [] <-> ~ In SLASH path)
  /\ (~ In SLASH path ->
      download_gfs_data env dt fh els path bucket region w = (Ok out, w') ->
      success out = false /\ files w' = files w).
Proof.
  split; [apply dirname_nil|].
  intros Hslash Hrun. apply dirname_nil in Hslash as Hdir.
  destruct (normalize_utc dt) as [utc|e] eqn:Hn.
  2:{ by rewrite (download_raises _ _ _ _ _ _ _ _ _ Hn) in Hrun. }
  destruct (download_summary _ _ _ _ _ _ _ _ _ _ _ Hn Hrun)
    as (p & Hj & Hf & _ & [= ->]).
  pose proof (justified_empty_dirname _ _ _ _ _ _ _ Hdir Hj) as Hp.
  destruct p; try done.
Qed.

(** The path of the docstring's example has no directory part, the
    destination of the examples has one; with the first and the store
    without faults the run is a failure, and leaves no file. *)
Lemma bare_file_name_never_succeeds_witness :
  dirname (py "gfs_data.grib2") = []
  /\ In SLASH output_path
  /\ exists out w',
       download_gfs_data quiet_env naive_midnight (py "000")
                         wind_then_temperature (py "gfs_data.grib2")
                         DEFAULT_BUCKET DEFAULT_REGION empty_world
       = (Ok out, w')
       /\ success out = false
       /\ files w' = files empty_world.
Proof.
  assert (Hbare : ~ In SLASH (py "gfs_data.grib2")).
  { vm_compute. intros H.
    repeat (destruct H as [H|H]; [discriminate H|]). exact H. }
  destruct (download_gfs_data quiet_env naive_midnight (py "000")
              wind_then_temperature (py "gfs_data.grib2") DEFAULT_BUCKET
              DEFAULT_REGION empty_world) as [r w'] eqn:Hrun.
  destruct r as [out|e]; [|vm_compute in Hrun; discriminate].
  destruct (bare_file_name_never_succeeds
              quiet_env naive_midnight (py "000") wind_then_temperature
              (py "gfs_data.grib2") DEFAULT_BUCKET DEFAULT_REGION empty_world
              out w') as [Hiff Hfails].
  split; [by apply Hiff|]. split; [vm_compute; tauto|].
  exists out, w'. split; [reflexivity|]. by apply Hfails.
Defined.

Lemma every_ordinal_has_a_date :
  all_from has_valid_date (Z.to_nat DI400Y) 1 = true.
Proof. vm_cast_no_check (eq_refl true). Qed.

Lemma has_valid_date_spec n :
  has_valid_date n = true ->
  let '(y, m, d) := ord2ymd n in
  1 <= y <= 400 /\ 1 <= m <= 12 /\ 1 <= d <= days_in_month y m
  /\ (n <= DI400Y - 366 -> y <= 399).
Proof.
  unfold has_valid_date. destruct (ord2ymd n) as [[y m] d]. intros H.
  apply andb_prop in H as [H Hlast]. apply andb_prop in H as [H Hd2].
  apply andb_prop in H as [H Hd1]. apply andb_prop in H as [H Hm2].
  apply andb_prop in H as [H Hm1]. apply andb_prop in H as [Hy1 Hy2].
  apply Z.leb_le in Hy1, Hy2, Hm1, Hm2, Hd1, Hd2.
  repeat split; try done. intros Hn.
  apply orb_prop in Hlast as [Hl|Hl]; [apply Z.ltb_lt in Hl|apply Z.leb_le in Hl];
    lia.
Qed.

Lemma ord2ymd_valid n :
  1 <= n <= MAXORDINAL ->
  let '(y, m, d) := ord2ymd n in
  1 <= y <= 9999 /\ 1 <= m <= 12 /\ 1 <= d <= days_in_month y m.
Proof.
  intros Hn.
  pose proof (Z.div_mod (n - 1) DI400Y ltac:(done)) as Hdm.
  pose proof (Z.mod_pos_bound (n - 1) DI400Y ltac:(done)) as Hr.
  set (q := (n - 1) / DI400Y) in *. set (r := (n - 1) mod DI400Y) in *.
  assert (Hq : 0 <= q <= 24).
  { unfold MAXORDINAL, DI400Y in *. lia. }
  assert (Hlast : q <= 23 \/ r + 1 <= DI400Y - 366).
  { unfold MAXORDINAL, DI400Y in *. lia. }
  replace n with (DI400Y * q + r + 1) by lia.
  rewrite ord2ymd_shift by done.
  pose proof (all_from_spec has_valid_date _ _ every_ordinal_has_a_date (r + 1))
    as Hc.
  rewrite Z2Nat.id in Hc by done. specialize (Hc ltac:(lia)).
  apply has_valid_date_spec in Hc.
  destruct (ord2ymd (r + 1)) as [[y m] d].
  destruct Hc as (Hy & Hm & Hd & Hy').
  rewrite days_in_month_shift. repeat split; try lia.
Qed.

Lemma astimezone_utc_valid dt off utc :
  astimezone_utc dt off = Ok utc -> valid_datetime utc.
Proof.
  unfold astimezone_utc.
  set (us := wall_microseconds dt - off).
  pose proof (Z.mod_pos_bound us US_PER_DAY ltac:(done)) as Hrest.
  set (days := us / US_PER_DAY) in *. set (rest := us mod US_PER_DAY) in *.
  destruct ((0 <? days) && (days <=? MAXORDINAL)) eqn:Hin; [|done].
  apply andb_prop in Hin as [Hlo Hhi].
  apply Z.ltb_lt in Hlo. apply Z.leb_le in Hhi.
  pose proof (ord2ymd_valid days ltac:(lia)) as Hdate.
  destruct (ord2ymd days) as [[y m] d]. intros [= <-].
  destruct Hdate as (Hy & Hm & Hd).
  unfold valid_datetime.
  cbn [year month day hour minute second microsecond tzinfo].
  split; [done|]. split; [done|]. split; [done|].
  clearbody rest. clear -Hrest.
  unfold US_PER_DAY, US_PER_SECOND in *.
  repeat split; try (Z.div_mod_to_equations; lia).
Qed.

Lemma normalize_utc_valid dt utc :
  valid_datetime dt -> normalize_utc dt = Ok utc -> valid_datetime utc.
Proof.
  intros Hv. unfold normalize_utc.
  destruct (tzinfo dt) as [off|]; [apply astimezone_utc_valid|].
  intros [= <-]. destruct Hv as (Hy & Hm & Hd & Hh & Hmi & Hs & Hus & _).
  unfold valid_datetime, replace_tzinfo_utc.
  cbn [year month day hour minute second microsecond tzinfo].
  repeat split; try tauto; unfold US_PER_DAY, US_PER_SECOND; lia.
Qed.

(** X23.  In a run for a valid timestamp that is brought to UTC, the
    cycle string is two digits and the date string is digits only, eight
    of them when the UTC year has four digits or the platform pads it;
    these are the date and cycle of the outcome, and every request of the
    run asks for the key
    [gfs.<date>/<cycle>/atmos/gfs.t<cycle>z.pgrb2.0p25.f<forecast hour>],
    followed by [.idx] when the request has no range. *)
Theorem timestamp_strings_are_digits
        env dt fh els path bucket region w r w' utc :
  valid_datetime dt ->
  normalize_utc dt = Ok utc ->
  download_gfs_data env dt fh els path bucket region w = (r, w') ->
  let date_str := strftime_Ymd (platform env) utc in
  let cycle_str := strftime_H utc in
  valid_datetime utc
  /\ digits_only cycle_str = true
  /\ length cycle_str = 2%nat
  /\ digits_only date_str = true
  /\ (1000 <= year utc \/ strftime_pads_year (platform env) = true ->
      length date_str = 8%nat)
  /\ (exists out, r = Ok out /\ date out = date_str /\ cycle out = cycle_str)
  /\ exists evs,
       trace w' = trace w ++ evs
       /\ forall request,
            In (EvGetObject request) evs ->
            Key request
            = py "gfs." ++ date_str ++ py "/" ++ cycle_str
              ++ py "/atmos/gfs.t" ++ cycle_str ++ py "z.pgrb2.0p25.f" ++ fh
              ++ match Range request with
                 | None => py ".idx"
                 | Some _ => []
                 end.
Proof.
  intros Hv Hn Hrun date_str cycle_str.
  pose proof (normalize_utc_valid dt utc Hv Hn) as Hvu.
  pose proof Hvu as (_ & _ & _ & Hh & _).
  destruct (two_digits_spec (hour utc) ltac:(lia)) as [Hhd Hhl].
  destruct (strftime_Ymd_digits (platform env) utc Hvu) as [Hd Hl].
  split; [exact Hvu|]. split; [exact Hhd|]. split; [exact Hhl|].
  split; [exact Hd|]. split; [exact Hl|].
  destruct (download_summary _ _ _ _ _ _ _ _ _ _ _ Hn Hrun)
    as (p & _ & _ & Ht & ->).
  split.
  { eexists. split; [reflexivity|].
    destruct (outcome_of_echoes env utc fh els path p) as (H1 & H2 & _).
    by split. }
  eexists. split; [exact Ht|]. intros request Hin.
  apply events_of_requests in Hin as [->|[elem ->]].
  - cbn [the_index_request index_request Key Range].
    unfold idx_key_of, the_grib_key, grib_key_of.
    fold date_str cycle_str. by rewrite <- !app_assoc.
  - cbn [element_request range_request Key Range].
    unfold the_grib_key, grib_key_of. fold date_str cycle_str.
    by rewrite app_nil_r.
Qed.

(** The run of the examples for midnight of 1 March 2025: the date
    [20250301], the cycle [00], and the key of the index. *)
Lemma timestamp_strings_are_digits_witness :
  exists r w' evs,
    download_gfs_data quiet_env naive_midnight (py "000") wind_then_temperature
                      output_path DEFAULT_BUCKET DEFAULT_REGION empty_world
    = (r, w')
    /\ (exists out, r = Ok out /\ date out = py "20250301"
                    /\ cycle out = py "00")
    /\ trace w' = trace empty_world ++ evs
    /\ forall request,
         In (EvGetObject request) evs ->
         Range request = None ->
         Key request
         = py "gfs.20250301/00/atmos/gfs.t00z.pgrb2.0p25.f000.idx".
Proof.
  destruct (download_gfs_data quiet_env naive_midnight (py "000")
              wind_then_temperature output_path DEFAULT_BUCKET DEFAULT_REGION
              empty_world) as [r w'] eqn:Hrun.
  destruct (timestamp_strings_are_digits
              quiet_env naive_midnight (py "000") wind_then_temperature
              output_path DEFAULT_BUCKET DEFAULT_REGION empty_world r w'
              (replace_tzinfo_utc naive_midnight)
              ltac:(valid_example) eq_refl Hrun)
    as (_ & _ & _ & _ & _ & (out & -> & Hdate & Hcycle) & evs & Ht & Hkeys).
  exists (Ok out), w', evs. split; [reflexivity|].
  split.
  { exists out. split; [reflexivity|].
    split; [rewrite Hdate|rewrite Hcycle]; vm_compute; reflexivity. }
  split; [exact Ht|]. intros request Hin Hrange.
  rewrite (Hkeys request Hin), Hrange. vm_compute. reflexivity.
Defined.
